(** * EazyFind search subsystem: query construction and pagination

    A shallow embedding of the [handlers] package (search.go: [ParseSearchParams],
    [BuildSearchQueries], [ScanRestaurant], [SearchHandler],
    [GetRestaurantsByCityHandler]; metadata.go: [CitiesHandler],
    [CuisinesHandler], [MealTypesHandler], [DetectCityHandler]) and of
    [fetchCoordinates] of the [worker] package, together with the parts of the
    Go standard library they call, and the properties of the specification
    stated over that embedding.

    Conventions:
    - a Go [string] is a [string] (a sequence of bytes);
    - a Go [int] is a [Z]; arithmetic that can leave the 64-bit range is wrapped
      explicitly ([wrap64]).  The placeholder counter [idx] is bounded by the
      number of bytes of the request plus a constant, so it is kept unwrapped;
    - a Go [float64] is a [spec_float] with the binary64 operations of
      [SpecFloat] (precision 53, emax 1024);
    - a slice that can be observed as [nil] is a [slice];
    - the database and the response writer are explicit: a handler is a
      function from the database oracle and the request to the response and
      the trace of its effects. *)

From Stdlib Require Import ZArith List Bool Ascii String Lia.
From Stdlib Require Import DecimalString DecimalPos.
From Stdlib Require Import SpecFloat Zpower.
Import ListNotations.

Open Scope string_scope.
Open Scope list_scope.
Open Scope Z_scope.

Infix "+++" := String.append (right associativity, at level 60) : string_scope.

(* ================================================================== *)
(** * The Go standard library, as far as the handlers use it *)
(* ================================================================== *)

(** ** strconv / fmt: decimal rendering of integers *)

Module Strconv.

(** [strconv.Itoa] and the [%d] verb: decimal digits, a leading minus sign
    for negative numbers, no padding. *)
Definition Itoa (z : Z) : string := NilEmpty.string_of_int (Z.to_int z).

(** The digit a byte stands for ([ch - '0'] when that is at most 9). *)
Definition digit_of (c : ascii) : option Z :=
  let d := Z.of_nat (nat_of_ascii c) - 48 in
  if (0 <=? d) && (d <=? 9) then Some d else None.

(** Value of a run of decimal digits, [None] when a byte is not a digit. *)
Fixpoint digits_value (acc : Z) (s : string) : option Z :=
  match s with
  | EmptyString => Some acc
  | String c s' =>
      match digit_of c with
      | Some d => digits_value (10 * acc + d) s'
      | None => None
      end
  end.

Definition MaxInt64 : Z := 9223372036854775807.
Definition MinInt64 : Z := -9223372036854775808.

(** [strconv.Atoi]: an optional sign followed by at least one decimal digit.
    The boolean is [true] when the returned error is not nil.  A syntax
    error yields 0; a value outside the 64-bit range yields the nearest
    bound together with a range error. *)
Definition Atoi (s : string) : Z * bool :=
  let '(neg, body) :=
    match s with
    | String "-"%char r => (true, r)
    | String "+"%char r => (false, r)
    | _ => (false, s)
    end in
  match body with
  | EmptyString => (0, true)
  | _ =>
      match digits_value 0 body with
      | None => (0, true)
      | Some v =>
          let z := if neg then - v else v in
          if (MaxInt64 <? z)%Z then (MaxInt64, true)
          else if (z <? MinInt64)%Z then (MinInt64, true)
          else (z, false)
      end
  end.

End Strconv.

(** ** fmt.Sprintf with the verbs [%d] and [%s] *)

Module Fmt.

Inductive operand :=
| OInt (z : Z)
| OStr (s : string).

(** The format is copied byte by byte; [%d] and [%s] consume the next
    operand.  A missing operand or an operand of the wrong kind is rendered
    the way Go reports it. *)
Fixpoint Sprintf (format : string) (a : list operand) : string :=
  match format with
  | EmptyString =>
      match a with
      | [] => ""
      | _ => "%!(EXTRA)"
      end
  | String "%"%char (String "d"%char rest) =>
      match a with
      | OInt z :: a' => Strconv.Itoa z +++ Sprintf rest a'
      | OStr s :: a' => "%!d(string=" +++ s +++ ")" +++ Sprintf rest a'
      | [] => "%!d(MISSING)" +++ Sprintf rest []
      end
  | String "%"%char (String "s"%char rest) =>
      match a with
      | OStr s :: a' => s +++ Sprintf rest a'
      | OInt z :: a' => "%!s(int=" +++ Strconv.Itoa z +++ ")" +++ Sprintf rest a'
      | [] => "%!s(MISSING)" +++ Sprintf rest []
      end
  | String c rest => String c (Sprintf rest a)
  end.

End Fmt.

(** ** strings: Split, Join, TrimSpace *)

Module Strings.

(** [strings.Split(s, sep)] for a one-byte separator: every separator ends
    a segment, so the result has one more element than [s] has separators
    (a single empty segment for the empty string). *)
Fixpoint Split (s : string) (sep : ascii) : list string :=
  match s with
  | EmptyString => [""]
  | String c s' =>
      if Ascii.eqb c sep then "" :: Split s' sep
      else
        match Split s' sep with
        | seg :: segs => String c seg :: segs
        | [] => [String c ""]
        end
  end.

(** [strings.Join(elems, sep)]. *)
Fixpoint Join (elems : list string) (sep : string) : string :=
  match elems with
  | [] => ""
  | [e] => e
  | e :: es => e +++ sep +++ Join es sep
  end.

Definition byte (c : ascii) : Z := Z.of_nat (nat_of_ascii c).

(** The six ASCII white-space bytes: tab, newline, vertical tab, form feed,
    carriage return, space. *)
Definition asciiSpace (b : Z) : bool :=
  (b =? 9) || (b =? 10) || (b =? 11) || (b =? 12) || (b =? 13) || (b =? 32).

(** Width in bytes of the white-space rune ([unicode.IsSpace]) encoded at
    the head of the byte sequence, 0 when there is none.  Beyond ASCII the
    white-space runes are U+0085, U+00A0, U+1680, U+2000..U+200A, U+2028,
    U+2029, U+202F, U+205F and U+3000, given here by their UTF-8 bytes. *)
Definition space_width (bs : list Z) : nat :=
  match bs with
  | b1 :: r1 =>
      if asciiSpace b1 then 1%nat
      else
        match r1 with
        | b2 :: r2 =>
            if (b1 =? 194) && ((b2 =? 133) || (b2 =? 160)) then 2%nat
            else
              match r2 with
              | b3 :: _ =>
                  if (b1 =? 225) && (b2 =? 154) && (b3 =? 128) then 3%nat
                  else if (b1 =? 226) && (b2 =? 128)
                          && (((128 <=? b3) && (b3 <=? 138))
                              || (b3 =? 168) || (b3 =? 169) || (b3 =? 175))
                  then 3%nat
                  else if (b1 =? 226) && (b2 =? 129) && (b3 =? 159) then 3%nat
                  else if (b1 =? 227) && (b2 =? 128) && (b3 =? 128) then 3%nat
                  else 0%nat
              | [] => 0%nat
              end
        | [] => 0%nat
        end
  | [] => 0%nat
  end.

(** The same for the rune that ends the sequence; the argument is the
    sequence reversed, so the encodings are read last byte first. *)
Definition space_width_rev (rbs : list Z) : nat :=
  match rbs with
  | b1 :: r1 =>
      if asciiSpace b1 then 1%nat
      else
        match r1 with
        | b2 :: r2 =>
            if Nat.eqb (space_width [b2; b1]) 2 then 2%nat
            else
              match r2 with
              | b3 :: _ => if Nat.eqb (space_width [b3; b2; b1]) 3 then 3%nat else 0%nat
              | [] => 0%nat
              end
        | [] => 0%nat
        end
  | [] => 0%nat
  end.

Fixpoint strip (width : list Z -> nat) (fuel : nat) (bs : list Z) : list Z :=
  match fuel with
  | O => bs
  | S fuel' =>
      match width bs with
      | O => bs
      | w => strip width fuel' (skipn w bs)
      end
  end.

Definition bytes_of (s : string) : list Z := map byte (list_ascii_of_string s).
Definition of_bytes (bs : list Z) : string :=
  string_of_list_ascii (map (fun b => ascii_of_nat (Z.to_nat b)) bs).

(** [strings.TrimSpace]: all leading and all trailing white-space runes are
    removed. *)
Definition TrimSpace (s : string) : string :=
  let bs := bytes_of s in
  let l := strip space_width (List.length bs) bs in
  let r := strip space_width_rev (List.length l) (rev l) in
  of_bytes (rev r).

End Strings.

(** ** PostgreSQL positional parameters

  A statement refers to its parameters as [$1], [$2], ...: a dollar sign
  followed by the longest run of decimal digits.  [placeholders] lists the
  parameter numbers of a statement from left to right, with repetitions.
  (No template of this package has a dollar sign inside a quoted literal.) *)

Module Pg.

Inductive lex :=
| Idle              (* outside a parameter reference *)
| Dollar            (* just after a dollar sign *)
| Num (n : Z).      (* inside the digits of a reference, value so far *)

Definition flush (st : lex) : list Z :=
  match st with
  | Num n => [n]
  | _ => []
  end.

Definition feed (st : lex) (c : ascii) : list Z * lex :=
  match Strconv.digit_of c with
  | Some d =>
      match st with
      | Idle => ([], Idle)
      | Dollar => ([], Num d)
      | Num n => ([], Num (10 * n + d))
      end
  | None =>
      if Ascii.eqb c "$" then (flush st, Dollar) else (flush st, Idle)
  end.

Fixpoint run (st : lex) (s : string) : list Z * lex :=
  match s with
  | EmptyString => ([], st)
  | String c s' =>
      let (out, st') := feed st c in
      let (out', st'') := run st' s' in
      (out ++ out', st'')
  end.

Definition placeholders (s : string) : list Z :=
  let (out, st) := run Idle s in out ++ flush st.

(** Parameters are introduced in order: reading a statement from left to
    right, every reference is either to a parameter already seen or to the
    next fresh one.  [intro_order next l] returns the next fresh number
    after [l] when that holds, starting from [next]. *)
Fixpoint intro_order (next : Z) (l : list Z) : option Z :=
  match l with
  | [] => Some next
  | i :: l' =>
      if (1 <=? i) && (i <? next) then intro_order next l'
      else if i =? next then intro_order (next + 1) l'
      else None
  end.

(** The same within one predicate that may only use parameters of its own:
    references below [lo] are refused. *)
Fixpoint own_order (lo next : Z) (l : list Z) : option Z :=
  match l with
  | [] => Some next
  | i :: l' =>
      if (lo <=? i) && (i <? next) then own_order lo next l'
      else if i =? next then own_order lo (next + 1) l'
      else None
  end.

(** A sequence of predicates each of which uses only fresh parameters of
    its own, numbered consecutively from [start]. *)
Fixpoint own_blocks (start : Z) (ls : list (list Z)) : option Z :=
  match ls with
  | [] => Some start
  | l :: ls' =>
      match own_order start start l with
      | Some next => own_blocks next ls'
      | None => None
      end
  end.

End Pg.

(* ================================================================== *)
(** * Package handlers: search.go *)
(* ================================================================== *)

Definition float64 := spec_float.

Module F64.
Definition prec : Z := 53.
Definition emax : Z := 1024.
Definition zero : float64 := S754_zero false.
(** The float64 nearest to an integer (conversion [float64(n)], and integer
    constants used as floats). *)
Definition of_int (n : Z) : float64 := binary_normalize prec emax n 0 false.
Definition div (x y : float64) : float64 := SFdiv prec emax x y.
Definition ltb (x y : float64) : bool := SFltb x y.
Definition leb (x y : float64) : bool := SFleb x y.

(** [math.Ceil] followed by the conversion to [int], for finite values:
    the least integer not below [m * 2^e].  The conversion of NaN and of
    infinities is implementation-defined in Go; the amd64 result is used. *)
Definition ceil_int (x : float64) : Z :=
  match x with
  | S754_zero _ => 0
  | S754_finite s m e =>
      let v := if s then Zneg m else Zpos m in
      if 0 <=? e then v * 2 ^ e
      else - ((- v) / 2 ^ (- e))
  | _ => Strconv.MinInt64
  end.
End F64.

(** Values passed to the database as query arguments ([interface{}]). *)
Inductive value :=
| VFloat (f : float64)
| VString (s : string)
| VInt (z : Z).

Definition DefaultLimit : Z := 12.

Record SearchParams := {
  Page : Z;
  Limit : Z;
  Offset : Z;
  Name : string;
  MinCost : Z;
  MaxCost : Z;
  Rating : float64;
  Discount : float64;
  Free : bool;
  City : string;
  Area : string;
  CuisineIds : string;
  MealTypeIds : string;
  Cuisine : string;
  MealType : string;
  Cuisines : string;
  MealTypes : string;
  Lat : float64;
  Lon : float64;
  Radius : float64;
  HasLocation : bool;
  Sort : string
}.

Definition nonempty (s : string) : bool :=
  match s with
  | EmptyString => false
  | _ => true
  end.

(** The accumulators of [BuildSearchQueries]: the argument vector, the
    predicates collected so far and the next free placeholder number. *)
Record builder := {
  args : list value;
  conditions : list string;
  idx : Z
}.

Import Fmt.

(** Lines 113-122: the distance expression and the 100 km cutoff of the
    default ordering. *)
Definition location_block (p : SearchParams) (b : builder) : string * builder :=
  if HasLocation p then
    let distanceExpr :=
      Sprintf "ST_Distance(r.geo, ST_SetSRID(ST_MakePoint($%d, $%d), 4326))"
              [OInt (idx b); OInt (idx b + 1)] in
    let args := args b ++ [VFloat (Lon p); VFloat (Lat p)] in
    let idx := idx b + 2 in
    let conditions :=
      if String.eqb (Sort p) "" || String.eqb (Sort p) "discount" then
        conditions b ++
          [Sprintf "ST_DWithin(r.geo, ST_SetSRID(ST_MakePoint($%d, $%d), 4326), 100000)"
                   [OInt (idx - 2); OInt (idx - 1)]]
      else conditions b in
    (distanceExpr, {| args := args; conditions := conditions; idx := idx |})
  else ("0.0", b).

(** Lines 124-133: city match, or else the radius around the point. *)
Definition city_block (p : SearchParams) (b : builder) : builder :=
  if nonempty (City p) then
    {| conditions := conditions b ++ [Sprintf "r.city ILIKE $%d" [OInt (idx b)]];
       args := args b ++ [VString (City p)];
       idx := idx b + 1 |}
  else if HasLocation p then
    {| conditions := conditions b ++
         [Sprintf "ST_DWithin(r.geo, ST_SetSRID(ST_MakePoint($%d, $%d), 4326), $%d)"
                  [OInt (idx b - 2); OInt (idx b - 1); OInt (idx b)]];
       args := args b ++ [VFloat (Radius p)];
       idx := idx b + 1 |}
  else b.

(** Lines 135-139. *)
Definition name_block (p : SearchParams) (b : builder) : builder :=
  if nonempty (Name p) then
    {| conditions := conditions b ++
         [Sprintf "(r.restaurant_name ILIKE $%d OR r.area ILIKE $%d)"
                  [OInt (idx b); OInt (idx b)]];
       args := args b ++ [VString ("%" +++ Name p +++ "%")];
       idx := idx b + 1 |}
  else b.

(** Lines 141-145. *)
Definition area_block (p : SearchParams) (b : builder) : builder :=
  if nonempty (Area p) then
    {| conditions := conditions b ++ [Sprintf "r.area ILIKE $%d" [OInt (idx b)]];
       args := args b ++ [VString ("%" +++ Area p +++ "%")];
       idx := idx b + 1 |}
  else b.

(** A predicate with one placeholder bound to one value: the shape of lines
    147-151, 175-179 and 203-222. *)
Definition single (format : string) (v : value) (b : builder) : builder :=
  {| conditions := conditions b ++ [Sprintf format [OInt (idx b)]];
     args := args b ++ [v];
     idx := idx b + 1 |}.

(** The loop of lines 156-160 (and 167-171, 184-188, 195-199): one
    placeholder and one argument per segment; [conv] is [strings.TrimSpace]
    for the name lists and the identity for the id lists. *)
Definition list_loop (conv : string -> string) (segments : list string)
    (b : builder) : list string * builder :=
  fold_left
    (fun (acc : list string * builder) (segment : string) =>
       let (placeholders, b) := acc in
       (placeholders ++ [Sprintf "$%d" [OInt (idx b)]],
        {| conditions := conditions b;
           args := args b ++ [VString (conv segment)];
           idx := idx b + 1 |}))
    segments ([], b).

(** Lines 153-162, 164-173, 181-190, 192-201. *)
Definition list_block (format : string) (conv : string -> string)
    (field : string) (b : builder) : builder :=
  if nonempty field then
    let segments := Strings.Split field "," in
    let (placeholders, b') := list_loop conv segments b in
    {| conditions := conditions b' ++
         [Sprintf format [OStr (Strings.Join placeholders ",")]];
       args := args b';
       idx := idx b' |}
  else b.

Definition cuisine_block (p : SearchParams) (b : builder) : builder :=
  if nonempty (Cuisine p) then
    single "r.id IN (SELECT rc.restaurant_id FROM restaurant_cuisines rc JOIN cuisines c ON rc.cuisine_id = c.id WHERE c.cuisine_name ILIKE $%d)"
           (VString (Cuisine p)) b
  else b.

Definition cuisines_block (p : SearchParams) : builder -> builder :=
  list_block "r.id IN (SELECT rc.restaurant_id FROM restaurant_cuisines rc JOIN cuisines c ON rc.cuisine_id = c.id WHERE c.cuisine_name IN (%s))"
             Strings.TrimSpace (Cuisines p).

Definition cuisineIds_block (p : SearchParams) : builder -> builder :=
  list_block "r.id IN (SELECT restaurant_id FROM restaurant_cuisines WHERE cuisine_id IN (%s))"
             (fun id => id) (CuisineIds p).

Definition mealType_block (p : SearchParams) (b : builder) : builder :=
  if nonempty (MealType p) then
    single "r.id IN (SELECT rmt.restaurant_id FROM restaurant_meal_types rmt JOIN meal_types m ON rmt.meal_type_id = m.id WHERE m.meal_type ILIKE $%d)"
           (VString (MealType p)) b
  else b.

Definition mealTypes_block (p : SearchParams) : builder -> builder :=
  list_block "r.id IN (SELECT rmt.restaurant_id FROM restaurant_meal_types rmt JOIN meal_types m ON rmt.meal_type_id = m.id WHERE m.meal_type IN (%s))"
             Strings.TrimSpace (MealTypes p).

Definition mealTypeIds_block (p : SearchParams) : builder -> builder :=
  list_block "r.id IN (SELECT restaurant_id FROM restaurant_meal_types WHERE meal_type_id IN (%s))"
             (fun id => id) (MealTypeIds p).

(** Lines 203-222: thresholds, each added only when strictly positive. *)
Definition minCost_block (p : SearchParams) (b : builder) : builder :=
  if 0 <? MinCost p then single "r.cost_for_two >= $%d" (VInt (MinCost p)) b else b.

Definition maxCost_block (p : SearchParams) (b : builder) : builder :=
  if 0 <? MaxCost p then single "r.cost_for_two <= $%d" (VInt (MaxCost p)) b else b.

Definition rating_block (p : SearchParams) (b : builder) : builder :=
  if F64.ltb F64.zero (Rating p) then single "r.rating >= $%d" (VFloat (Rating p)) b else b.

Definition discount_block (p : SearchParams) (b : builder) : builder :=
  if F64.ltb F64.zero (Discount p) then
    single "r.effective_discount >= $%d" (VFloat (Discount p)) b
  else b.

(** Lines 223-227: the two predicates without arguments. *)
Definition fixed (condition : string) (b : builder) : builder :=
  {| conditions := conditions b ++ [condition]; args := args b; idx := idx b |}.

Definition free_block (p : SearchParams) (b : builder) : builder :=
  if Free p then fixed "r.free = true" b else b.

Definition duplicate_block (b : builder) : builder :=
  fixed "r.is_duplicate = false" b.

(** Lines 105-227: the distance expression and the accumulators once every
    block has run, in the order of the source. *)
Definition build (p : SearchParams) : string * builder :=
  let b := {| args := []; conditions := []; idx := 1 |} in
  let (distanceExpr, b) := location_block p b in
  let b := city_block p b in
  let b := name_block p b in
  let b := area_block p b in
  let b := cuisine_block p b in
  let b := cuisines_block p b in
  let b := cuisineIds_block p b in
  let b := mealType_block p b in
  let b := mealTypes_block p b in
  let b := mealTypeIds_block p b in
  let b := minCost_block p b in
  let b := maxCost_block p b in
  let b := rating_block p b in
  let b := discount_block p b in
  let b := free_block p b in
  let b := duplicate_block b in
  (distanceExpr, b).

Definition whereStr (conditions : list string) : string :=
  "WHERE " +++ Strings.Join conditions " AND ".

Definition selectFields : string :=
  "r.id, r.restaurant_name, r.city, r.area, r.cost_for_two, r.rating, r.latitude, r.longitude, r.image_url, r.effective_discount, r.free, r.offer, r.percentage".

Definition resultFormat : string :=
  "
		SELECT %s, %s as distance,
		       COALESCE((SELECT json_agg(json_build_object('id', c.id, 'cuisine_name', c.cuisine_name)) FROM restaurant_cuisines rc JOIN cuisines c ON rc.cuisine_id = c.id WHERE rc.restaurant_id = r.id), '[]') as cuisines,
		       COALESCE((SELECT json_agg(json_build_object('id', m.id, 'meal_type', m.meal_type)) FROM restaurant_meal_types rmt JOIN meal_types m ON rmt.meal_type_id = m.id WHERE rmt.restaurant_id = r.id), '[]') as meal_types
		FROM restaurants r %s
	".

(** Lines 229-241. *)
Definition render (distanceExpr : string) (conditions : list string) : string * string :=
  let whereStr := whereStr conditions in
  let countQuery := "SELECT COUNT(*) FROM restaurants r " +++ whereStr in
  let resultQuery :=
    Sprintf resultFormat [OStr selectFields; OStr distanceExpr; OStr whereStr] in
  (countQuery, resultQuery).

(** [BuildSearchQueries]: the count query, the fetch query and the argument
    vector they share. *)
Definition BuildSearchQueries (p : SearchParams) : string * string * list value :=
  let (distanceExpr, b) := build p in
  let (countQuery, resultQuery) := render distanceExpr (conditions b) in
  (countQuery, resultQuery, args b).

(** The query of [GetRestaurantsByCityHandler] (lines 336-344). *)
Definition cityQuery : string :=
  "
			SELECT r.id, r.restaurant_name, r.city, r.area, r.cost_for_two, r.rating, r.latitude, r.longitude, r.image_url, r.effective_discount, r.free, r.offer, r.percentage,
				COALESCE((SELECT json_agg(json_build_object('id', c.id, 'cuisine_name', c.cuisine_name)) FROM restaurant_cuisines rc JOIN cuisines c ON rc.cuisine_id = c.id WHERE rc.restaurant_id = r.id), '[]') as cuisines,
				COALESCE((SELECT json_agg(json_build_object('id', m.id, 'meal_type', m.meal_type)) FROM restaurant_meal_types rmt JOIN meal_types m ON rmt.meal_type_id = m.id WHERE rmt.restaurant_id = r.id), '[]') as meal_types
			FROM restaurants r
			WHERE r.city ILIKE $1 AND r.is_duplicate = false
			ORDER BY r.effective_discount DESC
			LIMIT 10
		".

(** ** The request, the database and the response *)

(** [url.Values]: the values of each query parameter; [Get] is the first
    value of a key, or the empty string. *)
Definition Values := list (string * list string).

Definition Get (query : Values) (key : string) : string :=
  match find (fun kv => String.eqb (fst kv) key) query with
  | Some (_, v :: _) => v
  | _ => ""
  end.

(** A slice as JSON encoding observes it: [nil] is encoded as [null], a
    slice made with a literal or by [append] as an array. *)
Inductive slice (A : Type) :=
| nil_slice
| make_slice (elems : list A).
Arguments nil_slice {A}.
Arguments make_slice {A} elems.

Definition append {A : Type} (s : slice A) (x : A) : slice A :=
  match s with
  | nil_slice => make_slice [x]
  | make_slice l => make_slice (l ++ [x])
  end.

Definition elements {A : Type} (s : slice A) : list A :=
  match s with
  | nil_slice => []
  | make_slice l => l
  end.

(** A column of a result row as the driver delivers it. *)
Inductive column :=
| CNull
| CInt (z : Z)
| CFloat (f : float64)
| CBool (b : bool)
| CText (s : string).

Definition Row := list column.

Module models.

(** A lookup entity, an id and a display name: it stands for both
    [Cuisine] and [MealType] of package models (src/unnamed/part_001, lines
    215-225), the element types of the two lists [json.Unmarshal] fills. *)
Record Lookup := {
  LookupID : Z;
  LookupName : string
}.

(** The fields are the destinations of [ScanRestaurant].  The struct
    [Restaurant] of package models (src/unnamed/part_001, lines 190-213) has
    three more fields, URL, Page and GeoStatus, which no handler assigns:
    they keep their zero values in every entity the handlers return. *)
Record Restaurant := {
  ID : Z;
  RestaurantName : string;
  City : string;
  Area : string;
  CostForTwo : Z;
  Rating : float64;
  Latitude : float64;
  Longitude : float64;
  ImageURL : string;
  EffectiveDiscount : float64;
  Free : bool;
  Offer : string;
  Percentage : string;
  Distance : float64;
  Cuisines : list Lookup;
  MealTypes : list Lookup
}.

End models.

(** The error of a [strconv] parser: none, [ErrSyntax] or [ErrRange]. *)
Inductive NumError :=
| NoError
| ErrSyntax
| ErrRange.

Definition is_infinity (f : float64) : bool :=
  match f with
  | S754_infinity _ => true
  | _ => false
  end.

(** What the handlers take from outside the repository: the float parser of
    [strconv] with its two documented failure results (0 with a syntax error,
    an infinity with a range error), the conversions of [database/sql] from a
    column to a destination of each Go type ([None] when [Scan] reports an
    error), and the value [json.Unmarshal] leaves in a list of lookup
    entities (its error is ignored by the caller). *)
Record Runtime := {
  ParseFloat : string -> float64 * NumError;
  ParseFloat_syntax :
    forall s, snd (ParseFloat s) = ErrSyntax -> fst (ParseFloat s) = F64.zero;
  ParseFloat_range :
    forall s, snd (ParseFloat s) = ErrRange -> is_infinity (fst (ParseFloat s)) = true;
  convertInt : column -> option Z;
  convertString : column -> option string;
  convertFloat : column -> option float64;
  convertBool : column -> option bool;
  convertBytes : column -> option string;
  Unmarshal : string -> list models.Lookup
}.

(** The database as the handlers see it: the scanned count or the error of
    [QueryRow(...).Scan], and the rows or the error of [Query]. *)
Record DB := {
  QueryRow : string -> list value -> Z + string;
  Query : string -> list value -> list Row + string
}.

Inductive event :=
| EQueryRow (query : string) (arguments : list value)
| EQuery (query : string) (arguments : list value)
| ELog (prefix err : string).

Inductive json :=
| JInt (z : Z)
| JRestaurants (rs : slice models.Restaurant).

Inductive payload :=
| Object (fields : list (string * json))     (* an encoded map[string]interface{} *)
| Array (rs : slice models.Restaurant)       (* an encoded slice *)
| Text (s : string)                          (* a plain-text body *)
| NoBody.                                    (* nothing was written *)

Record Response := {
  status : Z;
  header : list (string * string);
  body : payload
}.

Definition StatusOK : Z := 200.
Definition StatusBadRequest : Z := 400.

(** [encoding/json] refuses a float64 that is NaN or infinite
    ([UnsupportedValueError]); every other value of the types encoded here
    has an encoding.  The distance is left out only when it equals zero
    ([omitempty]), so a NaN or infinite distance is refused as well. *)
Definition finite (f : float64) : bool :=
  match f with
  | S754_nan => false
  | S754_infinity _ => false
  | _ => true
  end.

Definition encodes_restaurant (r : models.Restaurant) : bool :=
  finite (models.Rating r) && finite (models.EffectiveDiscount r)
  && finite (models.Latitude r) && finite (models.Longitude r)
  && finite (models.Distance r).

Definition encodes_json (v : json) : bool :=
  match v with
  | JInt _ => true
  | JRestaurants rs => forallb encodes_restaurant (elements rs)
  end.

Definition encodes (v : payload) : bool :=
  match v with
  | Object fields => forallb (fun kv => encodes_json (snd kv)) fields
  | Array rs => forallb encodes_restaurant (elements rs)
  | Text _ => true
  | NoBody => true
  end.

(** [w.Header().Set("Content-Type", "application/json")] followed by
    [json.NewEncoder(w).Encode(v)], whose error the handlers drop: the
    encoder writes the whole value or, when it fails, nothing; either way the
    status is 200. *)
Definition respond_json (v : payload) : Response :=
  {| status := StatusOK;
     header := [("Content-Type", "application/json")];
     body := if encodes v then v else NoBody |}.

(** [http.Error]: a plain-text body, the message followed by a newline. *)
Definition http_Error (error : string) (code : Z) : Response :=
  {| status := code;
     header := [("Content-Type", "text/plain; charset=utf-8");
                ("X-Content-Type-Options", "nosniff")];
     body := Text (error +++ String "010"%char "") |}.

Definition wrap64 (z : Z) : Z :=
  (z + 9223372036854775808) mod 18446744073709551616 - 9223372036854775808.

Notation "x <- e ;; k" :=
  (match e with Some x => k | None => None end)
  (at level 61, e at next level, right associativity, only parsing).

Section Handlers.

Variable rt : Runtime.

(** [ParseSearchParams] (lines 47-100). *)
Definition ParseSearchParams (query : Values) : SearchParams :=
  let Limit := DefaultLimit in
  let Page := fst (Strconv.Atoi (Get query "page")) in
  let Page := if Page <=? 0 then 1 else Page in
  let Offset := wrap64 ((Page - 1) * Limit) in
  let Name := Get query "name" in
  let Name := if String.eqb Name "" then Get query "q" else Name in
  let MinCost := fst (Strconv.Atoi (Get query "minCost")) in
  let MinCost := if MinCost =? 0 then fst (Strconv.Atoi (Get query "min_cost")) else MinCost in
  let MaxCost := fst (Strconv.Atoi (Get query "maxCost")) in
  let MaxCost := if MaxCost =? 0 then fst (Strconv.Atoi (Get query "max_cost")) else MaxCost in
  let Rating := fst (ParseFloat rt (Get query "rating")) in
  let d := fst (ParseFloat rt (Get query "discount")) in
  let Discount := if F64.ltb F64.zero d then F64.div d (F64.of_int 100) else F64.zero in
  let Free := String.eqb (Get query "free") "true" in
  let latStr := Get query "lat" in
  let lonStr := Get query "lon" in
  let geo :=
    if nonempty latStr && nonempty lonStr then
      let Lat := fst (ParseFloat rt latStr) in
      let Lon := fst (ParseFloat rt lonStr) in
      let Radius := fst (ParseFloat rt (Get query "radius")) in
      let Radius := if F64.leb Radius F64.zero then F64.of_int 50000 else Radius in
      (Lat, Lon, Radius, true)
    else (F64.zero, F64.zero, F64.zero, false) in
  let '(Lat, Lon, Radius, HasLocation) := geo in
  {| Page := Page;
     Limit := Limit;
     Offset := Offset;
     Name := Name;
     MinCost := MinCost;
     MaxCost := MaxCost;
     Rating := Rating;
     Discount := Discount;
     Free := Free;
     City := Get query "city";
     Area := Get query "area";
     CuisineIds := Get query "cuisineIds";
     MealTypeIds := Get query "mealtypeIds";
     Cuisine := Get query "cuisine";
     MealType := Get query "meal_type";
     Cuisines := Get query "cuisines";
     MealTypes := Get query "mealtypes";
     Lat := Lat;
     Lon := Lon;
     Radius := Radius;
     HasLocation := HasLocation;
     Sort := Get query "sort" |}.

(** [ScanRestaurant] (lines 244-262): [rows.Scan] fails when the number of
    destinations differs from the number of columns or when a column does not
    convert; the distance is a destination only with [hasExtraFields].  The
    entity returned next to an error is dropped by both callers, so an error
    is [None] here. *)
Definition ScanRestaurant (row : Row) (hasExtraFields : bool) : option models.Restaurant :=
  match row with
  | c1 :: c2 :: c3 :: c4 :: c5 :: c6 :: c7 :: c8 :: c9 :: c10 :: c11 :: c12 :: c13 :: rest =>
      id <- convertInt rt c1 ;;
      restaurantName <- convertString rt c2 ;;
      city <- convertString rt c3 ;;
      area <- convertString rt c4 ;;
      costForTwo <- convertInt rt c5 ;;
      rating <- convertFloat rt c6 ;;
      latitude <- convertFloat rt c7 ;;
      longitude <- convertFloat rt c8 ;;
      imageURL <- convertString rt c9 ;;
      effectiveDiscount <- convertFloat rt c10 ;;
      free <- convertBool rt c11 ;;
      offer <- convertString rt c12 ;;
      percentage <- convertString rt c13 ;;
      let finish (distance : float64) (cuisinesJSON mealTypesJSON : string) :=
        {| models.ID := id;
           models.RestaurantName := restaurantName;
           models.City := city;
           models.Area := area;
           models.CostForTwo := costForTwo;
           models.Rating := rating;
           models.Latitude := latitude;
           models.Longitude := longitude;
           models.ImageURL := imageURL;
           models.EffectiveDiscount := effectiveDiscount;
           models.Free := free;
           models.Offer := offer;
           models.Percentage := percentage;
           models.Distance := distance;
           models.Cuisines := Unmarshal rt cuisinesJSON;
           models.MealTypes := Unmarshal rt mealTypesJSON |} in
      if hasExtraFields then
        match rest with
        | [c14; c15; c16] =>
            distance <- convertFloat rt c14 ;;
            cuisinesJSON <- convertBytes rt c15 ;;
            mealTypesJSON <- convertBytes rt c16 ;;
            Some (finish distance cuisinesJSON mealTypesJSON)
        | _ => None
        end
      else
        match rest with
        | [c14; c15] =>
            cuisinesJSON <- convertBytes rt c14 ;;
            mealTypesJSON <- convertBytes rt c15 ;;
            Some (finish F64.zero cuisinesJSON mealTypesJSON)
        | _ => None
        end
  | _ => None
  end.

(** The loop [for rows.Next() { ... }] of both handlers: rows that do not
    decode are skipped. *)
Definition collect (hasExtraFields : bool) (rows : list Row)
    (results : slice models.Restaurant) : slice models.Restaurant :=
  fold_left
    (fun results row =>
       match ScanRestaurant row hasExtraFields with
       | Some res => append results res
       | None => results
       end)
    rows results.

(** The [switch p.Sort] of lines 287-294. *)
Definition orderBy (sort : string) : string :=
  if String.eqb sort "rating_desc" then "ORDER BY rating DESC, id ASC"
  else if String.eqb sort "cost_asc" then "ORDER BY cost_for_two ASC, id ASC"
  else "ORDER BY effective_discount DESC, id ASC".

(** Line 280: [int(math.Ceil(float64(totalCount) / float64(p.Limit)))]. *)
Definition totalPages (totalCount limit : Z) : Z :=
  F64.ceil_int (F64.div (F64.of_int totalCount) (F64.of_int limit)).

(** [SearchHandler] (lines 266-319): the response and the effects in the
    order they happen. *)
Definition SearchHandler (db : DB) (query : Values) : Response * list event :=
  let p := ParseSearchParams query in
  let '(countQ, resultQ, args) := BuildSearchQueries p in
  match QueryRow db countQ args with
  | inr err =>
      (respond_json (Object [("restaurants", JRestaurants (make_slice []));
                             ("pages", JInt 0)]),
       [EQueryRow countQ args; ELog "Count query error:" err])
  | inl totalCount =>
      let totalPages := totalPages totalCount (Limit p) in
      if (totalPages <? Page p) && (0 <? totalPages) then
        (respond_json (Object [("restaurants", JRestaurants (make_slice []));
                               ("pages", JInt totalPages)]),
         [EQueryRow countQ args])
      else
        let finalQuery :=
          Sprintf "%s %s LIMIT %d OFFSET %d"
                  [OStr resultQ; OStr (orderBy (Sort p)); OInt (Limit p); OInt (Offset p)] in
        match Query db finalQuery args with
        | inr err =>
            (http_Error "Something went wrong" StatusBadRequest,
             [EQueryRow countQ args; EQuery finalQuery args;
              ELog "Search result query error:" err])
        | inl rows =>
            let results := collect true rows (make_slice []) in
            (respond_json (Object [("restaurants", JRestaurants results);
                                   ("pages", JInt totalPages);
                                   ("total_count", JInt totalCount)]),
             [EQueryRow countQ args; EQuery finalQuery args])
        end
  end.

(** [GetRestaurantsByCityHandler] (lines 324-363); [city] is the path value. *)
Definition GetRestaurantsByCityHandler (db : DB) (city : string) : Response * list event :=
  if String.eqb city "" then
    (http_Error "City is required" StatusBadRequest, [])
  else
    match Query db cityQuery [VString city] with
    | inr err =>
        (http_Error "Something went wrong" StatusBadRequest,
         [EQuery cityQuery [VString city]])
    | inl rows =>
        (respond_json (Array (collect false rows (make_slice []))),
         [EQuery cityQuery [VString city]])
    end.

End Handlers.

(* ================================================================== *)
(** * Package handlers: metadata.go *)
(* ================================================================== *)

(** ** fmt: the verb [%f]

    [%f] renders a float64 with six digits after the point: the exact value
    is rounded to a multiple of 10^-6, ties to even; a negative sign is kept,
    also on zero; the special values are [NaN], [+Inf] and [-Inf]. *)

Module FmtFloat.

(** The integer nearest to [n / d] for positive [d], ties to even. *)
Definition round_half_even (n d : Z) : Z :=
  let q := n / d in
  let r := n mod d in
  if 2 * r <? d then q
  else if d <? 2 * r then q + 1
  else if Z.even q then q else q + 1.

(** [m * 2^e] in millionths, rounded. *)
Definition millionths (m : positive) (e : Z) : Z :=
  if 0 <=? e then Zpos m * 2 ^ e * 1000000
  else round_half_even (Zpos m * 1000000) (2 ^ (- e)).

Fixpoint zeros (n : nat) : string :=
  match n with
  | O => ""
  | S n' => String "0" (zeros n')
  end.

(** The six digits after the point. *)
Definition fraction (u : Z) : string :=
  let digits := Strconv.Itoa (u mod 1000000) in
  zeros (6 - String.length digits) +++ digits.

Definition sign (s : bool) : string := if s then "-" else "".

Definition verb_f (x : float64) : string :=
  match x with
  | S754_nan => "NaN"
  | S754_infinity s => if s then "-Inf" else "+Inf"
  | S754_zero s => sign s +++ "0.000000"
  | S754_finite s m e =>
      let u := millionths m e in
      sign s +++ Strconv.Itoa (u / 1000000) +++ "." +++ fraction u
  end.

End FmtFloat.

(** ** Package models: the entities of the reference lists

    (src/unnamed/part_001, lines 186-233.) *)

Module Models.

Module City.
Record t := {
  ID : Z;
  CityName : string;
  Latitude : float64;
  Longitude : float64;
  GeoStatus : string
}.
End City.

Module Cuisine.
Record t := {
  ID : Z;
  CuisineName : string
}.
End Cuisine.

Module MealType.
Record t := {
  ID : Z;
  MealType : string
}.
End MealType.

End Models.

(** ** The world of the metadata handlers *)

(** What a log call is given: [log.Println] its operands, [log.Printf] a
    format and its operands. *)
Inductive logged :=
| LStr (s : string)
| LFloat (f : float64)
| LErr (err : string).

(** The effects of a metadata handler, in the order they happen. *)
Inductive effect :=
| Queried (query : string) (arguments : list value)      (* db.Query *)
| QueriedRow (query : string) (arguments : list value)   (* db.QueryRow(...).Scan *)
| Requested (url : string)                               (* http.Get *)
| Println (operands : list logged)
| Printf (format : string) (operands : list logged).

(** What a handler of metadata.go encodes as its body. *)
Inductive document :=
| CityList (cities : slice Models.City.t)
| CuisineList (cuisines : slice Models.Cuisine.t)
| MealTypeList (meals : slice Models.MealType.t)
| StringMap (fields : list (string * string))   (* an encoded map[string]string *)
| Plain (s : string)                            (* a plain-text body *)
| NoDocument.                                   (* nothing was written *)

Record Reply := {
  code : Z;
  headers : list (string * string);
  content : document
}.

Definition StatusInternalServerError : Z := 500.

Definition encodes_city (c : Models.City.t) : bool :=
  finite (Models.City.Latitude c) && finite (Models.City.Longitude c).

(** The values [encoding/json] has an encoding for: a city needs finite
    coordinates, the other entities hold integers and strings only. *)
Definition encodes_document (v : document) : bool :=
  match v with
  | CityList cities => forallb encodes_city (elements cities)
  | _ => true
  end.

(** [w.Header().Set("Content-Type", "application/json")] followed by
    [json.NewEncoder(w).Encode(v)], whose error the handlers drop: when the
    encoder fails nothing is written, with status 200. *)
Definition reply_json (v : document) : Reply :=
  {| code := StatusOK;
     headers := [("Content-Type", "application/json")];
     content := if encodes_document v then v else NoDocument |}.

(** [http.Error]. *)
Definition reply_error (error : string) (status : Z) : Reply :=
  {| code := status;
     headers := [("Content-Type", "text/plain; charset=utf-8");
                 ("X-Content-Type-Options", "nosniff")];
     content := Plain (error +++ String "010"%char "") |}.

(** The body of the reverse-geocoding reply as the handler decodes it: the
    [properties.city] of each feature, or the error of [Decode]. *)
Inductive geocoded :=
| Features (cities : list string)
| DecodeError (err : string).

(** What [DetectCityHandler] takes from outside the repository: the
    environment, the reply of [http.Get] (its error, or the decoded body) and
    the city name or the error of [db.QueryRow(...).Scan(&dbCity)]. *)
Record World := {
  Getenv : string -> string;
  httpGet : string -> geocoded + string;
  QueryName : string -> list value -> string + string
}.

(** The loop [for rows.Next() { ... }] of the three list handlers: rows
    that do not scan are skipped. *)
Definition scan_rows {A : Type} (scan : Row -> option A) (rows : list Row)
    (results : slice A) : slice A :=
  fold_left
    (fun results row =>
       match scan row with
       | Some c => append results c
       | None => results
       end)
    rows results.

Definition citiesQuery : string :=
  "SELECT id, city_name, COALESCE(latitude, 0), COALESCE(longitude, 0), COALESCE(geo_status, 'PENDING') FROM cities ORDER BY id ASC".

Definition cuisinesQuery : string :=
  "SELECT id, cuisine_name FROM cuisines ORDER BY id ASC".

Definition mealTypesQuery : string :=
  "SELECT id, meal_type FROM meal_types ORDER BY id ASC".

(** Line 137: the lookup of the resolved city. *)
Definition lookupQuery : string :=
  "SELECT city_name FROM cities WHERE city_name ILIKE $1".

(** Line 108: [fmt.Sprintf] of the reverse-geocoding address with the
    operands [lat], [lon] (verb [%f]) and [apiKey] (verb [%s]). *)
Definition apiURL (lat lon : float64) (apiKey : string) : string :=
  "https://api.geoapify.com/v1/geocode/reverse?lat=" +++ FmtFloat.verb_f lat
  +++ "&lon=" +++ FmtFloat.verb_f lon +++ "&apiKey=" +++ apiKey.

(** Lines 149-154: [fmt.Sprintf] of the nearest-city statement with the
    operands [lon], [lat] (verb [%f]). *)
Definition closestQuery (lon lat : float64) : string :=
  "
			SELECT city_name 
			FROM cities 
			ORDER BY ST_Distance(geo, ST_SetSRID(ST_MakePoint(" +++ FmtFloat.verb_f lon
  +++ ", " +++ FmtFloat.verb_f lat +++ "), 4326)::geography) ASC 
			LIMIT 1
		".

(** The names the reverse geocoder gives to the capital region (line 124). *)
Definition capital_region (city : string) : bool :=
  String.eqb city "Delhi" || String.eqb city "Noida" || String.eqb city "Gurugram"
  || String.eqb city "New Delhi" || String.eqb city "Gurgaon".

(** The names of the cities table that stand for the capital region
    (line 166). *)
Definition capital_region_row (dbCity : string) : bool :=
  String.eqb dbCity "delhi-ncr" || String.eqb dbCity "delhi"
  || String.eqb dbCity "noida" || String.eqb dbCity "gurugram".

Section MetadataHandlers.

Variable rt : Runtime.

(** [rows.Scan(&c.ID, &c.CityName, &c.Latitude, &c.Longitude, &c.GeoStatus)]. *)
Definition scanCity (row : Row) : option Models.City.t :=
  match row with
  | [c1; c2; c3; c4; c5] =>
      id <- convertInt rt c1 ;;
      cityName <- convertString rt c2 ;;
      latitude <- convertFloat rt c3 ;;
      longitude <- convertFloat rt c4 ;;
      geoStatus <- convertString rt c5 ;;
      Some {| Models.City.ID := id;
              Models.City.CityName := cityName;
              Models.City.Latitude := latitude;
              Models.City.Longitude := longitude;
              Models.City.GeoStatus := geoStatus |}
  | _ => None
  end.

(** [rows.Scan(&c.ID, &c.CuisineName)]. *)
Definition scanCuisine (row : Row) : option Models.Cuisine.t :=
  match row with
  | [c1; c2] =>
      id <- convertInt rt c1 ;;
      cuisineName <- convertString rt c2 ;;
      Some {| Models.Cuisine.ID := id; Models.Cuisine.CuisineName := cuisineName |}
  | _ => None
  end.

(** [rows.Scan(&m.ID, &m.MealType)]. *)
Definition scanMealType (row : Row) : option Models.MealType.t :=
  match row with
  | [c1; c2] =>
      id <- convertInt rt c1 ;;
      mealType <- convertString rt c2 ;;
      Some {| Models.MealType.ID := id; Models.MealType.MealType := mealType |}
  | _ => None
  end.

(** [CitiesHandler] (lines 16-37). *)
Definition CitiesHandler (db : DB) : Reply * list effect :=
  match Query db citiesQuery [] with
  | inr err =>
      (reply_error "Something went wrong" StatusBadRequest,
       [Queried citiesQuery []; Println [LStr "Cities query error:"; LErr err]])
  | inl rows =>
      (reply_json (CityList (scan_rows scanCity rows (make_slice []))),
       [Queried citiesQuery []])
  end.

(** [CuisinesHandler] (lines 40-61). *)
Definition CuisinesHandler (db : DB) : Reply * list effect :=
  match Query db cuisinesQuery [] with
  | inr err =>
      (reply_error "Something went wrong" StatusBadRequest,
       [Queried cuisinesQuery []; Println [LStr "Cuisines query error:"; LErr err]])
  | inl rows =>
      (reply_json (CuisineList (scan_rows scanCuisine rows (make_slice []))),
       [Queried cuisinesQuery []])
  end.

(** [MealTypesHandler] (lines 64-85). *)
Definition MealTypesHandler (db : DB) : Reply * list effect :=
  match Query db mealTypesQuery [] with
  | inr err =>
      (reply_error "Something went wrong" StatusBadRequest,
       [Queried mealTypesQuery []; Println [LStr "MealTypes query error:"; LErr err]])
  | inl rows =>
      (reply_json (MealTypeList (scan_rows scanMealType rows (make_slice []))),
       [Queried mealTypesQuery []])
  end.

(** Lines 104-133 of [DetectCityHandler]: the reverse geocoding, attempted
    only with an API key; the resolved city and the effects. *)
Definition resolve (w : World) (lat lon : float64) : string * list effect :=
  let apiKey := Getenv w "GEOAPIFY_API_KEY" in
  if nonempty apiKey then
    let apiURL := apiURL lat lon apiKey in
    match httpGet w apiURL with
    | inr err =>
        ("", [Requested apiURL; Println [LStr "Geoapify request error:"; LErr err]])
    | inl (Features (city :: _)) =>
        (if capital_region city then "delhi-ncr" else city,
         [Requested apiURL; Printf "Geoapify resolved city: %s" [LStr city]])
    | inl (Features []) => ("", [Requested apiURL])
    | inl (DecodeError err) =>
        ("", [Requested apiURL; Println [LStr "Geoapify decode error:"; LErr err]])
    end
  else ("", []).

(** Lines 147-172: the nearest city of the table. *)
Definition closest (w : World) (lat lon : float64) : Reply * list effect :=
  let query := closestQuery lon lat in
  match QueryName w query [] with
  | inr err =>
      (reply_error "Could not detect city" StatusInternalServerError,
       [QueriedRow query [];
        Printf "Closest city query error for lat %f, lon %f: %v"
               [LFloat lat; LFloat lon; LErr err]])
  | inl dbCity =>
      let found := Printf "Closest city found in DB: %s" [LStr dbCity] in
      let dbCity := if capital_region_row dbCity then "delhi-ncr" else dbCity in
      (reply_json (StringMap [("city", dbCity)]), [QueriedRow query []; found])
  end.

(** [DetectCityHandler] (lines 89-173). *)
Definition DetectCityHandler (w : World) (query : Values) : Reply * list effect :=
  let latStr := Get query "lat" in
  let lonStr := Get query "lon" in
  if String.eqb latStr "" || String.eqb lonStr "" then
    (reply_error "lat and lon are required" StatusBadRequest, [])
  else
    let lat := fst (ParseFloat rt latStr) in
    let lon := fst (ParseFloat rt lonStr) in
    let detecting := Printf "Detecting city for lat: %v, lon: %v" [LFloat lat; LFloat lon] in
    let (resolvedCity, requested) := resolve w lat lon in
    if nonempty resolvedCity then
      match QueryName w lookupQuery [VString resolvedCity] with
      | inl dbCity =>
          (reply_json (StringMap [("city", dbCity)]),
           detecting :: requested
           ++ [QueriedRow lookupQuery [VString resolvedCity];
               Printf "Found match in DB for resolved city: %s" [LStr dbCity]])
      | inr _ =>
          let (reply, effects) := closest w lat lon in
          (reply,
           detecting :: requested
           ++ [QueriedRow lookupQuery [VString resolvedCity];
               Printf "Resolved city %s not found in DB, falling back to closest"
                      [LStr resolvedCity]]
           ++ effects)
      end
    else
      let (reply, effects) := closest w lat lon in
      (reply, detecting :: requested ++ effects).

End MetadataHandlers.

(* ================================================================== *)
(** * Package worker: fetchCoordinates *)
(* ================================================================== *)

(** ** net/url: QueryEscape *)

Module Url.

(** [shouldEscape(c, encodeQueryComponent)]: letters, digits and the four
    marks [-], [_], [.], [~] are kept, every other byte is escaped. *)
Definition shouldEscape (c : ascii) : bool :=
  let b := Strings.byte c in
  if ((97 <=? b) && (b <=? 122)) || ((65 <=? b) && (b <=? 90))
     || ((48 <=? b) && (b <=? 57))
  then false
  else if (b =? 45) || (b =? 95) || (b =? 46) || (b =? 126) then false
  else true.

Definition upperhex : string := "0123456789ABCDEF".

(** [upperhex[n]] for [n] below 16. *)
Definition hex (n : Z) : ascii :=
  match String.get (Z.to_nat n) upperhex with
  | Some c => c
  | None => "0"%char
  end.

(** [url.QueryEscape]: a space becomes [+], any other byte to escape
    becomes [%] and its two upper-case hexadecimal digits. *)
Fixpoint QueryEscape (s : string) : string :=
  match s with
  | EmptyString => ""
  | String c s' =>
      if shouldEscape c then
        if Ascii.eqb c " " then String "+" (QueryEscape s')
        else
          let b := Strings.byte c in
          String "%" (String (hex (b / 16)) (String (hex (b mod 16)) (QueryEscape s')))
      else String c (QueryEscape s')
  end.

End Url.

(** What [fetchCoordinates] gets back from the geocoding service: the error
    of [client.Get], the error of [Decode], or the decoded status and the
    locations (latitude, longitude) of the results. *)
Inductive geocoding :=
| RequestError (err : string)
| BodyError (err : string)
| Body (status : string) (results : list (float64 * float64)).

(** Lines 150-151: the address of the request. *)
Definition geocodeURL (name city apiKey : string) : string :=
  let query := Sprintf "%s, %s" [OStr name; OStr city] in
  Sprintf "https://maps.googleapis.com/maps/api/geocode/json?address=%s&key=%s"
          [OStr (Url.QueryEscape query); OStr apiKey].

(** [fetchCoordinates] (lines 149-185): the latitude, the longitude and the
    error, [None] for nil. *)
Definition fetchCoordinates (get : string -> geocoding) (name city apiKey : string)
  : float64 * float64 * option string :=
  let apiURL := geocodeURL name city apiKey in
  match get apiURL with
  | RequestError err => (F64.zero, F64.zero, Some err)
  | BodyError err => (F64.zero, F64.zero, Some err)
  | Body status results =>
      if negb (String.eqb status "OK") then
        (F64.zero, F64.zero, Some (Sprintf "API error: %s" [OStr status]))
      else
        match results with
        | [] => (F64.zero, F64.zero, Some "no results found")
        | (lat, lng) :: _ => (lat, lng, None)
        end
  end.
(* ================================================================== *)
(** * Vocabulary of the properties *)
(* ================================================================== *)

Import Pg Strconv.

(** A string over which a pending parameter reference cannot extend: it is
    empty or starts with a byte that is not a digit. *)
Definition nd (s : string) : Prop :=
  match s with
  | EmptyString => True
  | String c _ => digit_of c = None
  end.

(** Value of a decimal numeral read after the digits worth [acc]. *)
Fixpoint zacc (d : Decimal.uint) (acc : Z) : Z :=
  match d with
  | Decimal.Nil => acc
  | Decimal.D0 d => zacc d (10 * acc + 0)
  | Decimal.D1 d => zacc d (10 * acc + 1)
  | Decimal.D2 d => zacc d (10 * acc + 2)
  | Decimal.D3 d => zacc d (10 * acc + 3)
  | Decimal.D4 d => zacc d (10 * acc + 4)
  | Decimal.D5 d => zacc d (10 * acc + 5)
  | Decimal.D6 d => zacc d (10 * acc + 6)
  | Decimal.D7 d => zacc d (10 * acc + 7)
  | Decimal.D8 d => zacc d (10 * acc + 8)
  | Decimal.D9 d => zacc d (10 * acc + 9)
  end.

(** Consecutive integers [start, start+1, ...] ([n] of them). *)
Fixpoint zseq (start : Z) (n : nat) : list Z :=
  match n with
  | O => []
  | S n' => start :: zseq (start + 1) n'
  end.

(** The predicates of the package by name. *)
Definition distance_expression (i j : Z) : string :=
  Sprintf "ST_Distance(r.geo, ST_SetSRID(ST_MakePoint($%d, $%d), 4326))" [OInt i; OInt j].

Definition cutoff_predicate (i j : Z) : string :=
  Sprintf "ST_DWithin(r.geo, ST_SetSRID(ST_MakePoint($%d, $%d), 4326), 100000)" [OInt i; OInt j].

Definition radius_predicate (i j k : Z) : string :=
  Sprintf "ST_DWithin(r.geo, ST_SetSRID(ST_MakePoint($%d, $%d), 4326), $%d)" [OInt i; OInt j; OInt k].

Definition city_predicate (i : Z) : string :=
  Sprintf "r.city ILIKE $%d" [OInt i].

Definition name_predicate (i : Z) : string :=
  Sprintf "(r.restaurant_name ILIKE $%d OR r.area ILIKE $%d)" [OInt i; OInt i].

Definition placeholder (i : Z) : string := Sprintf "$%d" [OInt i].

(** A predicate that is neither the city match nor a geographic one, and
    that cannot extend a parameter reference written before it. *)
Definition ordinary (c : string) : Prop :=
  nd c /\ String.prefix "r.city" c = false /\ String.prefix "ST_" c = false.

(** A block that only appends ordinary predicates over fresh parameters. *)
Definition fresh_step (b b' : builder) : Prop :=
  exists cs vs,
    conditions b' = conditions b ++ cs /\
    args b' = args b ++ vs /\
    idx b' = idx b + Z.of_nat (List.length vs) /\
    Forall ordinary cs /\
    own_blocks (idx b) (map placeholders cs) = Some (idx b').

(** The accumulators at the start of [BuildSearchQueries]. *)
Definition init : builder := {| args := []; conditions := []; idx := 1 |}.

(** The blocks after the city / radius block. *)
Definition tail_blocks (p : SearchParams) (b : builder) : builder :=
  duplicate_block (free_block p (discount_block p (rating_block p
    (maxCost_block p (minCost_block p (mealTypeIds_block p (mealTypes_block p
      (mealType_block p (cuisineIds_block p (cuisines_block p
        (cuisine_block p (area_block p (name_block p b))))))))))))).

(** The sort keys for which [BuildSearchQueries] adds the cutoff. *)
Definition cutoff_sort (p : SearchParams) : bool :=
  String.eqb (Sort p) "" || String.eqb (Sort p) "discount".

(** What the first two blocks produce. *)
Definition distance (p : SearchParams) : string :=
  if HasLocation p then distance_expression 1 2 else "0.0".

Definition geo_conditions (p : SearchParams) : list string :=
  (if HasLocation p && cutoff_sort p then [cutoff_predicate 1 2] else [])
  ++ (if nonempty (City p) then [city_predicate (if HasLocation p then 3 else 1)]
      else if HasLocation p then [radius_predicate 1 2 3]
      else []).

Definition geo_args (p : SearchParams) : list value :=
  (if HasLocation p then [VFloat (Lon p); VFloat (Lat p)] else [])
  ++ (if nonempty (City p) then [VString (City p)]
      else if HasLocation p then [VFloat (Radius p)]
      else []).

(** The three results of [BuildSearchQueries] and the fragments they are
    rendered from. *)
Definition countQuery (p : SearchParams) : string := fst (fst (BuildSearchQueries p)).
Definition resultQuery (p : SearchParams) : string := snd (fst (BuildSearchQueries p)).
Definition arguments (p : SearchParams) : list value := snd (BuildSearchQueries p).
Definition distanceExpr (p : SearchParams) : string := fst (build p).
Definition search_conditions (p : SearchParams) : list string := conditions (snd (build p)).

(** The value a statement binds to [$i]. *)
Definition bound (a : list value) (i : Z) : option value :=
  if 1 <=? i then nth_error a (Z.to_nat (i - 1)) else None.

(** The fragments that refer to the geographic point. *)
Definition geographic (c : string) : Prop :=
  c = distance_expression 1 2 \/ c = cutoff_predicate 1 2 \/ c = radius_predicate 1 2 3.

(** Number of dollar signs of a string. *)
Fixpoint dollars (s : string) : nat :=
  match s with
  | EmptyString => O
  | String c s' => if Ascii.eqb c "$" then S (dollars s') else dollars s'
  end.

(** [contains needle hay]: [needle] occurs in [hay] ([strings.Contains]). *)
Fixpoint contains (needle hay : string) : bool :=
  String.prefix needle hay
  || match hay with
     | EmptyString => false
     | String _ hay' => contains needle hay'
     end.

(** The blocks after the city / radius block, in the order of the source. *)
Definition tail_list (p : SearchParams) : list (builder -> builder) :=
  [name_block p; area_block p; cuisine_block p; cuisines_block p;
   cuisineIds_block p; mealType_block p; mealTypes_block p; mealTypeIds_block p;
   minCost_block p; maxCost_block p; rating_block p; discount_block p;
   free_block p; duplicate_block].

Definition run_blocks (l : list (builder -> builder)) (b : builder) : builder :=
  fold_left (fun b f => f b) l b.

(** The accumulators after the city / radius block. *)
Definition prefix_state (p : SearchParams) : builder :=
  city_block p (snd (location_block p init)).

(** The formats of the four list filters (lines 161, 172, 189, 200). *)
Definition cuisines_format : string :=
  "r.id IN (SELECT rc.restaurant_id FROM restaurant_cuisines rc JOIN cuisines c ON rc.cuisine_id = c.id WHERE c.cuisine_name IN (%s))".
Definition cuisineIds_format : string :=
  "r.id IN (SELECT restaurant_id FROM restaurant_cuisines WHERE cuisine_id IN (%s))".
Definition mealTypes_format : string :=
  "r.id IN (SELECT rmt.restaurant_id FROM restaurant_meal_types rmt JOIN meal_types m ON rmt.meal_type_id = m.id WHERE m.meal_type IN (%s))".
Definition mealTypeIds_format : string :=
  "r.id IN (SELECT restaurant_id FROM restaurant_meal_types WHERE meal_type_id IN (%s))".

(** The IN-list predicate of a list filter with [n] placeholders from [k]. *)
Definition in_list_predicate (format : string) (k : Z) (n : nat) : string :=
  Sprintf format [OStr (Strings.Join (map placeholder (zseq k n)) ",")].

(** Number of occurrences of a byte in a string. *)
Fixpoint occurrences (c : ascii) (s : string) : nat :=
  match s with
  | EmptyString => O
  | String c' s' => if Ascii.eqb c' c then S (occurrences c s') else occurrences c s'
  end.

(** A text occurs in both statements of a request, or in neither. *)
Definition in_both (p : SearchParams) (c : string) : Prop :=
  contains c (countQuery p) = true /\ contains c (resultQuery p) = true.

Definition in_neither (p : SearchParams) (c : string) : Prop :=
  contains c (countQuery p) = false /\ contains c (resultQuery p) = false.

(** A parameter is referred to by both statements of a request. *)
Definition referenced (p : SearchParams) (k : Z) : Prop :=
  In k (placeholders (countQuery p)) /\ In k (placeholders (resultQuery p)).

(** What a list filter with a non-empty value contributes: a predicate,
    present in the text of both statements, with one placeholder per
    comma-separated segment, numbered consecutively, each referred to by both
    statements and bound to its (converted) segment; an empty segment is
    bound to the empty string. *)
Definition list_filter_kept (p : SearchParams) (format : string)
    (conv : string -> string) (field : string) : Prop :=
  field <> "" ->
  let segments := Strings.Split field "," in
  List.length segments = S (occurrences "," field) /\
  exists k,
    1 <= k /\
    In (in_list_predicate format k (List.length segments)) (search_conditions p) /\
    in_both p (in_list_predicate format k (List.length segments)) /\
    placeholders (in_list_predicate format k (List.length segments))
      = zseq k (List.length segments) /\
    (forall j, (j < List.length segments)%nat -> referenced p (k + Z.of_nat j)) /\
    (forall j segment,
        nth_error segments j = Some segment ->
        bound (arguments p) (k + Z.of_nat j) = Some (VString (conv segment))) /\
    (forall j,
        nth_error segments j = Some "" ->
        bound (arguments p) (k + Z.of_nat j) = Some (VString "")).

(** Sample requests. *)
Definition request (city name cuisines sort : string) (hasLocation : bool) : SearchParams :=
  {| Page := 1; Limit := DefaultLimit; Offset := 0;
     Name := name; MinCost := 0; MaxCost := 0;
     Rating := F64.zero; Discount := F64.zero; Free := false;
     City := city; Area := "";
     CuisineIds := ""; MealTypeIds := ""; Cuisine := ""; MealType := "";
     Cuisines := cuisines; MealTypes := "";
     Lat := if hasLocation then F64.of_int 18 else F64.zero;
     Lon := if hasLocation then F64.of_int 73 else F64.zero;
     Radius := if hasLocation then F64.of_int 50000 else F64.zero;
     HasLocation := hasLocation;
     Sort := sort |}.

(** Two fragments share parameters only if both refer to the geographic
    point, and then only [$1] and [$2]. *)
Definition shares_geo_only (p : SearchParams) (c1 c2 : string) : Prop :=
  forall k, In k (placeholders c1) -> In k (placeholders c2) ->
            HasLocation p = true /\ (k = 1 \/ k = 2) /\ geographic c1 /\ geographic c2.

(** ** Vocabulary of the handler properties *)

(** Least integer not below [a / b], for positive [b]. *)
Definition ceil_div (a b : Z) : Z := - ((- a) / b).

(** The statement [SearchHandler] sends for the fetch (line 296). *)
Definition finalQuery (p : SearchParams) : string :=
  Sprintf "%s %s LIMIT %d OFFSET %d"
          [OStr (resultQuery p); OStr (orderBy (Sort p)); OInt (Limit p); OInt (Offset p)].

(** The body of the two short-circuit responses. *)
Definition empty_page (pages : Z) : payload :=
  Object [("restaurants", JRestaurants (make_slice [])); ("pages", JInt pages)].

(** The value a response reports under a key, if any. *)
Definition reported (key : string) (r : Response) : option json :=
  match body r with
  | Object fields =>
      match find (fun kv => String.eqb (fst kv) key) fields with
      | Some (_, v) => Some v
      | None => None
      end
  | _ => None
  end.

(** A response reports a result list that is not [null]. *)
Definition reports_list (r : Response) : Prop :=
  exists l, reported "restaurants" r = Some (JRestaurants (make_slice l)).

Definition ran_fetch (trace : list event) : bool :=
  existsb (fun e => match e with EQuery _ _ => true | _ => false end) trace.

(** The rows of a result set that decode, in order. *)
Definition decoded (rt : Runtime) (hasExtraFields : bool) (rows : list Row)
  : list models.Restaurant :=
  flat_map (fun row => match ScanRestaurant rt row hasExtraFields with
                       | Some res => [res]
                       | None => []
                       end) rows.

(** ** Sample runtime and databases *)

(** A float parser that accepts decimal integers, reports a range error on
    "1e999" and a syntax error on anything else. *)
Definition sample_ParseFloat (s : string) : float64 * NumError :=
  match Strconv.Atoi s with
  | (z, false) => (F64.of_int z, NoError)
  | _ =>
      if String.eqb s "1e999" then (S754_infinity false, ErrRange)
      else (F64.zero, ErrSyntax)
  end.

Lemma sample_ParseFloat_syntax s :
  snd (sample_ParseFloat s) = ErrSyntax -> fst (sample_ParseFloat s) = F64.zero.
Proof.
  unfold sample_ParseFloat. destruct (Strconv.Atoi s) as [z []].
  - destruct (String.eqb s "1e999"); [discriminate | reflexivity].
  - discriminate.
Qed.

Lemma sample_ParseFloat_range s :
  snd (sample_ParseFloat s) = ErrRange -> is_infinity (fst (sample_ParseFloat s)) = true.
Proof.
  unfold sample_ParseFloat. destruct (Strconv.Atoi s) as [z []].
  - destruct (String.eqb s "1e999"); [reflexivity | discriminate].
  - discriminate.
Qed.

(** Conversions that accept a column of the destination's own kind. *)
Definition sample_runtime : Runtime :=
  {| ParseFloat := sample_ParseFloat;
     ParseFloat_syntax := sample_ParseFloat_syntax;
     ParseFloat_range := sample_ParseFloat_range;
     convertInt := fun c => match c with CInt z => Some z | _ => None end;
     convertString := fun c => match c with CText s => Some s | _ => None end;
     convertFloat := fun c => match c with CFloat f => Some f | _ => None end;
     convertBool := fun c => match c with CBool b => Some b | _ => None end;
     convertBytes := fun c => match c with CText s => Some s | _ => None end;
     Unmarshal := fun _ => [] |}.



(** A row of the search (16 columns, the distance after the 13 base columns)
    and the entity it decodes to. *)
Definition search_row (id : Z) (name : string) (rating : float64) : Row :=
  [CInt id; CText name; CText "Pune"; CText "Baner"; CInt 500;
   CFloat rating; CFloat (F64.of_int 18); CFloat (F64.of_int 73);
   CText "img"; CFloat F64.zero; CBool false; CText "1+1"; CText "50";
   CFloat (F64.of_int 250); CText "[]"; CText "[]"].

Definition search_entity (id : Z) (name : string) (rating : float64)
  : models.Restaurant :=
  {| models.ID := id;
     models.RestaurantName := name;
     models.City := "Pune";
     models.Area := "Baner";
     models.CostForTwo := 500;
     models.Rating := rating;
     models.Latitude := F64.of_int 18;
     models.Longitude := F64.of_int 73;
     models.ImageURL := "img";
     models.EffectiveDiscount := F64.zero;
     models.Free := false;
     models.Offer := "1+1";
     models.Percentage := "50";
     models.Distance := F64.of_int 250;
     models.Cuisines := [];
     models.MealTypes := [] |}.

(** A database that answers every count and every fetch the same way. *)
Definition constant_db (count : Z + string) (rows : list Row + string) : DB :=
  {| QueryRow := fun _ _ => count; Query := fun _ _ => rows |}.

(** ** Vocabulary of the further properties *)

(** The remaining predicates with one parameter, by name (lines 142, 148,
    176, 204, 209, 214, 219). *)
Definition area_predicate (i : Z) : string :=
  Sprintf "r.area ILIKE $%d" [OInt i].

Definition cuisine_predicate (i : Z) : string :=
  Sprintf "r.id IN (SELECT rc.restaurant_id FROM restaurant_cuisines rc JOIN cuisines c ON rc.cuisine_id = c.id WHERE c.cuisine_name ILIKE $%d)" [OInt i].

Definition mealType_predicate (i : Z) : string :=
  Sprintf "r.id IN (SELECT rmt.restaurant_id FROM restaurant_meal_types rmt JOIN meal_types m ON rmt.meal_type_id = m.id WHERE m.meal_type ILIKE $%d)" [OInt i].

Definition minCost_predicate (i : Z) : string :=
  Sprintf "r.cost_for_two >= $%d" [OInt i].

Definition maxCost_predicate (i : Z) : string :=
  Sprintf "r.cost_for_two <= $%d" [OInt i].

Definition rating_predicate (i : Z) : string :=
  Sprintf "r.rating >= $%d" [OInt i].

Definition discount_predicate (i : Z) : string :=
  Sprintf "r.effective_discount >= $%d" [OInt i].

(** Number of comma-separated segments of a list filter, none for the empty
    value. *)
Definition segment_count (field : string) : nat :=
  if nonempty field then List.length (Strings.Split field ",") else O.

(** What of a request can reach the text of the statements: which filters
    are active and how many segments each list filter has. *)
Definition shape (p : SearchParams) :=
  (HasLocation p, cutoff_sort p, nonempty (City p), nonempty (Name p),
   nonempty (Area p), nonempty (Cuisine p), segment_count (Cuisines p),
   segment_count (CuisineIds p), nonempty (MealType p),
   segment_count (MealTypes p), segment_count (MealTypeIds p),
   0 <? MinCost p, 0 <? MaxCost p, F64.ltb F64.zero (Rating p),
   F64.ltb F64.zero (Discount p), Free p).

(** Two accumulators that agree on everything but the values bound. *)
Definition alike (b b' : builder) : Prop :=
  conditions b = conditions b' /\ idx b = idx b'
  /\ List.length (args b) = List.length (args b').

(** The predicates the blocks after the city / radius block can append,
    each with the guard of its block. *)
Inductive emitted (p : SearchParams) : string -> Prop :=
| em_name k : nonempty (Name p) = true -> emitted p (name_predicate k)
| em_area k : nonempty (Area p) = true -> emitted p (area_predicate k)
| em_cuisine k : nonempty (Cuisine p) = true -> emitted p (cuisine_predicate k)
| em_cuisines k n :
    nonempty (Cuisines p) = true -> emitted p (in_list_predicate cuisines_format k n)
| em_cuisineIds k n :
    nonempty (CuisineIds p) = true -> emitted p (in_list_predicate cuisineIds_format k n)
| em_mealType k : nonempty (MealType p) = true -> emitted p (mealType_predicate k)
| em_mealTypes k n :
    nonempty (MealTypes p) = true -> emitted p (in_list_predicate mealTypes_format k n)
| em_mealTypeIds k n :
    nonempty (MealTypeIds p) = true
    -> emitted p (in_list_predicate mealTypeIds_format k n)
| em_minCost k : (0 <? MinCost p) = true -> emitted p (minCost_predicate k)
| em_maxCost k : (0 <? MaxCost p) = true -> emitted p (maxCost_predicate k)
| em_rating k : F64.ltb F64.zero (Rating p) = true -> emitted p (rating_predicate k)
| em_discount k :
    F64.ltb F64.zero (Discount p) = true -> emitted p (discount_predicate k)
| em_free : Free p = true -> emitted p "r.free = true"
| em_duplicate : emitted p "r.is_duplicate = false".

(** A predicate with one parameter is among the predicates of a request. *)
Definition present (p : SearchParams) (predicate : Z -> string) : Prop :=
  exists k, In (predicate k) (search_conditions p).

(** An IN-list predicate of a format is among the predicates of a request. *)
Definition list_present (p : SearchParams) (format : string) : Prop :=
  exists k n, In (in_list_predicate format k n) (search_conditions p).

(** A predicate with one parameter is among the predicates, refers to that
    parameter only, and the parameter is bound to [v]. *)
Definition binds (p : SearchParams) (predicate : Z -> string) (v : value) : Prop :=
  exists k,
    1 <= k /\
    In (predicate k) (search_conditions p) /\
    placeholders (predicate k) = [k] /\
    bound (arguments p) k = Some v.

(** A sample request with every filter set. *)
Definition full_request (name city : string) : SearchParams :=
  {| Page := 2; Limit := DefaultLimit; Offset := 12;
     Name := name; MinCost := 200; MaxCost := 900;
     Rating := F64.of_int 4; Discount := F64.div (F64.of_int 20) (F64.of_int 100);
     Free := true;
     City := city; Area := "Baner";
     CuisineIds := "3,4"; MealTypeIds := "7"; Cuisine := "Thai"; MealType := "Lunch";
     Cuisines := "Italian, Mexican"; MealTypes := "Dinner,Brunch";
     Lat := F64.of_int 18; Lon := F64.of_int 73; Radius := F64.of_int 50000;
     HasLocation := true;
     Sort := "" |}.

(** The entity of a search row is the entity of the same row without its
    distance column, with the distance filled in. *)
Definition with_distance (distance : float64) (r : models.Restaurant) : models.Restaurant :=
  {| models.ID := models.ID r;
     models.RestaurantName := models.RestaurantName r;
     models.City := models.City r;
     models.Area := models.Area r;
     models.CostForTwo := models.CostForTwo r;
     models.Rating := models.Rating r;
     models.Latitude := models.Latitude r;
     models.Longitude := models.Longitude r;
     models.ImageURL := models.ImageURL r;
     models.EffectiveDiscount := models.EffectiveDiscount r;
     models.Free := models.Free r;
     models.Offer := models.Offer r;
     models.Percentage := models.Percentage r;
     models.Distance := distance;
     models.Cuisines := models.Cuisines r;
     models.MealTypes := models.MealTypes r |}.

(** Two outcomes of a database call that a client cannot tell apart: both
    failed (with whatever error), or both succeeded with the same count. *)
Definition same_count (a b : Z + string) : Prop :=
  match a, b with
  | inl n, inl n' => n = n'
  | inr _, inr _ => True
  | _, _ => False
  end.

(** The same for a result set: both failed, or both succeeded with rows
    that decode to the same entities. *)
Definition same_rows (rt : Runtime) (hasExtraFields : bool)
    (a b : list Row + string) : Prop :=
  match a, b with
  | inl rows, inl rows' => decoded rt hasExtraFields rows = decoded rt hasExtraFields rows'
  | inr _, inr _ => True
  | _, _ => False
  end.

(** The largest page whose offset fits the 64-bit range. *)
Definition last_exact_page : Z := 768614336404564651.

(** A row of a search result set that decodes with the sample runtime. *)
Definition sample_row (id : Z) (name : string) : Row :=
  [CInt id; CText name; CText "Pune"; CText "Baner"; CInt 500;
   CFloat (F64.of_int 4); CFloat (F64.of_int 18); CFloat (F64.of_int 73);
   CText "img"; CFloat F64.zero; CBool false; CText ""; CText "";
   CFloat (F64.of_int 120); CText "[]"; CText "[]"].

(** ** Vocabulary of the metadata handlers and the worker *)

(** The rows of a result set that scan, in order. *)
Definition scanned {A : Type} (scan : Row -> option A) (rows : list Row) : list A :=
  flat_map (fun row => match scan row with
                       | Some c => [c]
                       | None => []
                       end) rows.

(** What a list handler does with the outcome of its one statement: a
    failure is logged under the handler's label and answered with the fixed
    400 text; otherwise the status is 200 with the JSON content type, and
    the body is the array (never [null]) of the rows that scan, in order,
    when the encoder accepts every one of them, and nothing at all when it
    refuses one (its error is dropped). *)
Definition lists_rows {A : Type} (handler : DB -> Reply * list effect)
    (query label : string) (wrap : slice A -> document)
    (scan : Row -> option A) (encodable : A -> bool) : Prop :=
  forall db,
    match Query db query [] with
    | inr err =>
        handler db
        = (reply_error "Something went wrong" StatusBadRequest,
           [Queried query []; Println [LStr label; LErr err]])
    | inl rows =>
        snd (handler db) = [Queried query []]
        /\ code (fst (handler db)) = StatusOK
        /\ headers (fst (handler db)) = [("Content-Type", "application/json")]
        /\ content (fst (handler db))
           = (if forallb encodable (scanned scan rows)
              then wrap (make_slice (scanned scan rows))
              else NoDocument)
        /\ (List.length (scanned scan rows) <= List.length rows)%nat
    end.

(** The names line 124 and line 166 of metadata.go compare with. *)
Definition geocoder_names : list string :=
  ["Delhi"; "Noida"; "Gurugram"; "New Delhi"; "Gurgaon"].
Definition table_names : list string :=
  ["delhi-ncr"; "delhi"; "noida"; "gurugram"].

(** The 200 answer that names a city. *)
Definition names_city (city : string) : Reply :=
  {| code := StatusOK;
     headers := [("Content-Type", "application/json")];
     content := StringMap [("city", city)] |}.

(** A row of the cities table and the city it scans to. *)
Definition city_row (id : Z) (name : string) (latitude : float64) : Row :=
  [CInt id; CText name; CFloat latitude; CFloat (F64.of_int 73); CText "DONE"].

Definition city_entity (id : Z) (name : string) (latitude : float64) : Models.City.t :=
  {| Models.City.ID := id;
     Models.City.CityName := name;
     Models.City.Latitude := latitude;
     Models.City.Longitude := F64.of_int 73;
     Models.City.GeoStatus := "DONE" |}.

(** The addresses requested and the statements run, in order. *)
Definition requests (t : list effect) : list string :=
  flat_map (fun e => match e with Requested url => [url] | _ => [] end) t.

Definition statements (t : list effect) : list (string * list value) :=
  flat_map (fun e => match e with
                     | Queried q a => [(q, a)]
                     | QueriedRow q a => [(q, a)]
                     | _ => []
                     end) t.

(** The coordinates [DetectCityHandler] works with. *)
Definition detect_lat (rt : Runtime) (query : Values) : float64 :=
  fst (ParseFloat rt (Get query "lat")).
Definition detect_lon (rt : Runtime) (query : Values) : float64 :=
  fst (ParseFloat rt (Get query "lon")).

(** The city the reverse geocoding resolved, empty when it did not. *)
Definition resolved (rt : Runtime) (w : World) (query : Values) : string :=
  fst (resolve w (detect_lat rt query) (detect_lon rt query)).

(** The lookup of the resolved city found a row. *)
Definition found (rt : Runtime) (w : World) (query : Values) : option string :=
  if nonempty (resolved rt w query) then
    match QueryName w lookupQuery [VString (resolved rt w query)] with
    | inl dbCity => Some dbCity
    | inr _ => None
    end
  else None.

(** The body that names a city. *)
Definition city_body (city : string) : document := StringMap [("city", city)].

(** Every byte of a string satisfies a test. *)
Fixpoint every_byte (ok : ascii -> bool) (s : string) : bool :=
  match s with
  | EmptyString => true
  | String c s' => ok c && every_byte ok s'
  end.

(** The bytes [%f] can produce: digits, the point, the signs and the letters
    of [NaN] and [Inf]. *)
Definition numeric_byte (c : ascii) : bool :=
  match digit_of c with
  | Some _ => true
  | None => existsb (Ascii.eqb c) (list_ascii_of_string ".-+InfNa")
  end.

(** The bytes [url.QueryEscape] can produce. *)
Definition escaped_byte (c : ascii) : bool :=
  negb (Url.shouldEscape c) || Ascii.eqb c "+" || Ascii.eqb c "%".

(** A world with a fixed API key and a fixed geocoder reply. *)
Definition sample_world (apiKey : string) (reply : geocoded + string)
    (names : string -> list value -> string + string) : World :=
  {| Getenv := fun key => if String.eqb key "GEOAPIFY_API_KEY" then apiKey else "";
     httpGet := fun _ => reply;
     QueryName := names |}.

(** A cities table that holds the one name [stored], found by the lookup
    for any key and nearest to every point. *)
Definition one_city (stored : string) : string -> list value -> string + string :=
  fun _ _ => inl stored.

(** A cities table the lookup finds nothing in, with [nearest] as the
    nearest city of every point ([inr] when that statement fails). *)
Definition no_match (nearest : string + string) : string -> list value -> string + string :=
  fun q _ => if String.eqb q lookupQuery then inr "sql: no rows in result set" else nearest.

Definition point_query : Values := [("lat", ["28"]); ("lon", ["77"])].
(** ** Searching a statement for a marker *)

(** To show that a predicate does not occur in a template, a marker is
    searched for: a piece of the predicate whose bytes are pairwise
    different.  [track m n s] reads [s] after [n] bytes of [m] have just been
    read; it is [None] when [m] is read to its end, and otherwise the number
    of bytes of [m] read at the end of [s]. *)

Fixpoint drop (n : nat) (s : string) : string :=
  match n, s with
  | O, _ => s
  | S n', String _ s' => drop n' s'
  | S _, EmptyString => EmptyString
  end.

Definition step (m : string) (n : nat) (c : ascii) : option nat :=
  match drop n m with
  | String a r =>
      if Ascii.eqb c a then
        match r with
        | EmptyString => None
        | _ => Some (S n)
        end
      else
        match m with
        | String a0 (String _ _) => if Ascii.eqb c a0 then Some 1%nat else Some O
        | String a0 EmptyString => if Ascii.eqb c a0 then None else Some O
        | EmptyString => Some O
        end
  | EmptyString => Some O
  end.

Fixpoint track (m : string) (n : nat) (s : string) : option nat :=
  match s with
  | EmptyString => Some n
  | String c s' =>
      match step m n c with
      | Some n' => track m n' s'
      | None => None
      end
  end.

Fixpoint occurs (c : ascii) (s : string) : bool :=
  match s with
  | EmptyString => false
  | String c' s' => Ascii.eqb c' c || occurs c s'
  end.

(** The bytes of a string are pairwise different. *)
Fixpoint distinct (s : string) : bool :=
  match s with
  | EmptyString => true
  | String c s' => negb (occurs c s') && distinct s'
  end.

(** The bytes of a list of placeholders: digits, a sign, the dollar sign
    and the comma. *)
Definition reference_byte (c : ascii) : bool :=
  match digit_of c with
  | Some _ => true
  | None => Ascii.eqb c "-" || Ascii.eqb c "$" || Ascii.eqb c ","
  end.

(** A string in which the search, started afresh, does not find [m].  The
    two markers used are the end of the radius predicate, "), $", and the
    start of the city predicate, "r.city I". *)
Definition lacks (m s : string) : Prop := exists e, track m O s = Some e.

(* ================================================================== *)
(** * The library models on sample values *)
(* ================================================================== *)

Example Itoa_examples :
  Strconv.Itoa 0 = "0" /\ Strconv.Itoa 12 = "12" /\ Strconv.Itoa (-305) = "-305".
Proof. repeat split. Qed.

Example Atoi_examples :
  Strconv.Atoi "10" = (10, false) /\ Strconv.Atoi "-7" = (-7, false)
  /\ Strconv.Atoi "" = (0, true) /\ Strconv.Atoi "1x" = (0, true)
  /\ Strconv.Atoi "+" = (0, true)
  /\ Strconv.Atoi "99999999999999999999" = (Strconv.MaxInt64, true).
Proof. repeat split. Qed.

Example Sprintf_example :
  Fmt.Sprintf "r.city ILIKE $%d" [Fmt.OInt 3] = "r.city ILIKE $3".
Proof. reflexivity. Qed.

Example Split_examples :
  Strings.Split "Italian, Mexican , Thai" ","%char = ["Italian"; " Mexican "; " Thai"]
  /\ Strings.Split "Italian," ","%char = ["Italian"; ""]
  /\ Strings.Split "" ","%char = [""].
Proof. repeat split. Qed.

Example TrimSpace_examples :
  Strings.TrimSpace " Mexican " = "Mexican" /\ Strings.TrimSpace "" = ""
  /\ Strings.TrimSpace "  a b  " = "a b".
Proof. repeat split. Qed.

Example Join_examples :
  Strings.Join ["$1"; "$2"; "$3"] "," = "$1,$2,$3" /\ Strings.Join [] "," = ""
  /\ Strings.Join ["x"] " AND " = "x".
Proof. repeat split. Qed.

Example placeholders_examples :
  Pg.placeholders "r.city ILIKE $3 AND x IN ($4,$5,$12) AND y = $1" = [3; 4; 5; 12; 1]
  /\ Pg.placeholders "cost $ 5 and 0.0 and $x1" = []
  /\ Pg.placeholders "$10" = [10].
Proof. repeat split. Qed.

Example intro_order_examples :
  Pg.intro_order 1 [1; 2; 1; 2; 3; 4; 4] = Some 5
  /\ Pg.intro_order 1 [3; 4] = None
  /\ Pg.intro_order 1 [1; 3] = None.
Proof. repeat split. Qed.

Example verb_f_examples :
  FmtFloat.verb_f (F64.of_int 18) = "18.000000"
  /\ FmtFloat.verb_f (F64.of_int (-73)) = "-73.000000"
  /\ FmtFloat.verb_f (F64.div (F64.of_int 1) (F64.of_int 10)) = "0.100000"
  /\ FmtFloat.verb_f (F64.div (F64.of_int 1) (F64.of_int 128)) = "0.007812"
  /\ FmtFloat.verb_f (F64.div (F64.of_int 3) (F64.of_int 128)) = "0.023438"
  /\ FmtFloat.verb_f (F64.div (F64.of_int 2) (F64.of_int 3)) = "0.666667"
  /\ FmtFloat.verb_f (S754_zero true) = "-0.000000"
  /\ FmtFloat.verb_f (S754_infinity false) = "+Inf"
  /\ FmtFloat.verb_f S754_nan = "NaN".
Proof. repeat split. Qed.

Example QueryEscape_examples :
  Url.QueryEscape "Cafe Mocha, Pune" = "Cafe+Mocha%2C+Pune"
  /\ Url.QueryEscape "a&key=x" = "a%26key%3Dx"
  /\ Url.QueryEscape "A-Z_a.z~09" = "A-Z_a.z~09".
Proof. repeat split. Qed.

Example closestQuery_example :
  contains "ST_MakePoint(77.000000, 28.000000), 4326)::geography"
           (closestQuery (F64.of_int 77) (F64.of_int 28)) = true.
Proof. reflexivity. Qed.
(* ================================================================== *)
(** * Facts about the library models and the query builder *)
(* ================================================================== *)
(** ** Scanning for placeholders *)

Lemma run_app st a b :
  run st (a +++ b) =
  let (o1, s1) := run st a in
  let (o2, s2) := run s1 b in (o1 ++ o2, s2).
Proof.
  revert st; induction a as [|c a IH]; intros st; simpl.
  - destruct (run st b); reflexivity.
  - destruct (feed st c) as [o s1]. rewrite IH.
    destruct (run s1 a) as [o1 s2]. destruct (run s2 b) as [o2 s3].
    now rewrite app_assoc.
Qed.

(** Scanning from a pending state and flushing at the end is scanning from
    [Idle], once the pending reference has been emitted. *)
Lemma run_nd st s :
  nd s ->
  (let (o, s') := run st s in o ++ flush s')
  = flush st ++ (let (o, s') := run Idle s in o ++ flush s').
Proof.
  destruct s as [|c s]; simpl.
  - intros _. now rewrite app_nil_r.
  - intros H. unfold feed. rewrite H.
    destruct (Ascii.eqb c "$"); destruct (run _ s) as [o s']; simpl;
      now rewrite <- app_assoc.
Qed.

Lemma placeholders_app a b :
  nd b -> placeholders (a +++ b) = placeholders a ++ placeholders b.
Proof.
  intros H. unfold placeholders. rewrite run_app.
  destruct (run Idle a) as [o1 s1].
  pose proof (run_nd s1 b H) as E.
  destruct (run s1 b) as [o2 s2]. rewrite <- !app_assoc, E.
  destruct (run Idle b); reflexivity.
Qed.

Lemma placeholders_skip c s :
  Ascii.eqb c "$" = false -> placeholders (String c s) = placeholders s.
Proof.
  intros H. unfold placeholders; simpl. unfold feed. rewrite H.
  destruct (digit_of c); destruct (run Idle s); reflexivity.
Qed.

(** Evaluation of [digit_of] on a given byte. *)
Ltac digit :=
  match goal with
  | |- context [digit_of ?c] =>
      let v := eval vm_compute in (digit_of c) in
      change (digit_of c) with v; cbv iota
  end.

Lemma run_digits d : forall acc rest,
  run (Num acc) (NilEmpty.string_of_uint d +++ rest) = run (Num (zacc d acc)) rest.
Proof.
  induction d; intros acc rest; cbn [NilEmpty.string_of_uint String.append run zacc];
    try reflexivity;
    unfold feed; digit; rewrite IHd; destruct (run _ rest); reflexivity.
Qed.

Lemma run_numeral d rest :
  d <> Decimal.Nil ->
  run Dollar (NilEmpty.string_of_uint d +++ rest) = run (Num (zacc d 0)) rest.
Proof.
  destruct d; intros H; try congruence;
    cbn [NilEmpty.string_of_uint String.append run zacc]; unfold feed; digit;
    rewrite run_digits; destruct (run _ rest); reflexivity.
Qed.

Lemma zacc_of_uint_acc d : forall acc,
  Zpos (Pos.of_uint_acc d acc) = zacc d (Zpos acc).
Proof.
  induction d; intros acc; cbn [Pos.of_uint_acc zacc]; try reflexivity;
    rewrite IHd; f_equal; lia.
Qed.

Lemma zacc_of_uint d : Z.of_N (Pos.of_uint d) = zacc d 0.
Proof.
  induction d; cbn [Pos.of_uint zacc Z.of_N]; try reflexivity; try assumption;
    rewrite zacc_of_uint_acc; reflexivity.
Qed.

Lemma zacc_to_uint p : zacc (Pos.to_uint p) 0 = Zpos p.
Proof.
  rewrite <- zacc_of_uint, DecimalPos.Unsigned.of_to. reflexivity.
Qed.

(** A decimal numeral written after a dollar sign is read back as the
    number it renders. *)
Lemma run_Itoa z rest :
  0 <= z -> run Dollar (Itoa z +++ rest) = run (Num z) rest.
Proof.
  intros Hz. unfold Itoa. destruct z as [|p|p]; try lia.
  - simpl. destruct (run _ rest); reflexivity.
  - cbn [Z.to_int NilEmpty.string_of_int]. rewrite run_numeral by apply DecimalPos.Unsigned.to_uint_nonnil.
    now rewrite zacc_to_uint.
Qed.

Lemma placeholders_ref z rest :
  0 <= z -> nd rest ->
  placeholders (String "$" (Itoa z +++ rest)) = z :: placeholders rest.
Proof.
  intros Hz Hnd. unfold placeholders. simpl. rewrite run_Itoa by assumption.
  pose proof (run_nd (Num z) rest Hnd) as E.
  destruct (run (Num z) rest) as [o s]. simpl. rewrite E.
  destruct (run Idle rest); reflexivity.
Qed.

Lemma placeholders_ref_end z :
  0 <= z -> placeholders (String "$" (Itoa z)) = [z].
Proof.
  intros Hz. replace (Itoa z) with (Itoa z +++ "").
  - now rewrite placeholders_ref.
  - clear. induction (Itoa z); simpl; congruence.
Qed.

Lemma placeholders_nil : placeholders "" = [].
Proof. reflexivity. Qed.

(** ** Order of introduction *)

Ltac tests :=
  repeat match goal with
         | |- context [?a <=? ?b] => destruct (Z.leb_spec a b)
         | |- context [?a <? ?b] => destruct (Z.ltb_spec a b)
         | |- context [?a =? ?b] => destruct (Z.eqb_spec a b)
         | H : context [?a <=? ?b] |- _ => destruct (Z.leb_spec a b)
         | H : context [?a <? ?b] |- _ => destruct (Z.ltb_spec a b)
         | H : context [?a =? ?b] |- _ => destruct (Z.eqb_spec a b)
         end.

Lemma zseq_length start n : List.length (zseq start n) = n.
Proof. revert start; induction n; intros; simpl; congruence. Qed.

Lemma zseq_snoc n : forall start,
  zseq start (S n) = zseq start n ++ [start + Z.of_nat n].
Proof.
  induction n; intros start.
  - simpl. f_equal. lia.
  - change (zseq start (S (S n))) with (start :: zseq (start + 1) (S n)).
    rewrite IHn. simpl. do 3 f_equal. lia.
Qed.

Lemma zseq_In n : forall start k,
  In k (zseq start n) <-> start <= k < start + Z.of_nat n.
Proof.
  induction n; intros start k; simpl.
  - lia.
  - rewrite IHn. lia.
Qed.

Lemma zseq_nth n : forall start j,
  (j < n)%nat -> nth_error (zseq start n) j = Some (start + Z.of_nat j).
Proof.
  induction n; intros start j Hj; [lia|].
  destruct j; simpl.
  - f_equal. lia.
  - rewrite IHn by lia. f_equal. lia.
Qed.

Lemma own_order_spec l : forall lo n m,
  lo <= n ->
  own_order lo n l = Some m ->
  n <= m /\ forall k, In k l -> (lo <= k < m).
Proof.
  induction l as [|i l IH]; intros lo n m Hlo H; simpl in H.
  - inversion H; subst. split; [lia | intros k []].
  - destruct ((lo <=? i) && (i <? n)) eqn:E.
    + apply IH in H; [|assumption]. destruct H as [H1 H2].
      split; [assumption|].
      intros k [<-|Hk]; [|auto].
      apply andb_true_iff in E. lia.
    + destruct (Z.eqb_spec i n); [|discriminate].
      apply IH in H; [|lia]. destruct H as [H1 H2]. split; [lia|].
      intros k [<-|Hk]; [lia|auto].
Qed.

Lemma own_order_intro l : forall lo n m,
  1 <= lo -> own_order lo n l = Some m -> intro_order n l = Some m.
Proof.
  induction l as [|i l IH]; intros lo n m Hlo H; simpl in *; [assumption|].
  destruct ((lo <=? i) && (i <? n)) eqn:E.
  - apply andb_true_iff in E.
    replace ((1 <=? i) && (i <? n)) with true by (symmetry; apply andb_true_iff; lia).
    eauto.
  - destruct (Z.eqb_spec i n); [|discriminate].
    replace ((1 <=? i) && (i <? n)) with false by (symmetry; apply andb_false_iff; lia).
    eauto.
Qed.

Lemma intro_order_app l1 : forall n l2,
  intro_order n (l1 ++ l2) =
  match intro_order n l1 with
  | Some m => intro_order m l2
  | None => None
  end.
Proof.
  induction l1 as [|i l1 IH]; intros n l2; simpl; [reflexivity|].
  destruct ((1 <=? i) && (i <? n)); [apply IH|].
  destruct (i =? n); [apply IH | reflexivity].
Qed.

Lemma own_blocks_app ls1 : forall s ls2,
  own_blocks s (ls1 ++ ls2) =
  match own_blocks s ls1 with
  | Some m => own_blocks m ls2
  | None => None
  end.
Proof.
  induction ls1 as [|l ls1 IH]; intros s ls2; simpl; [reflexivity|].
  destruct (own_order s s l); [apply IH | reflexivity].
Qed.

Lemma own_blocks_intro ls : forall s m,
  1 <= s -> own_blocks s ls = Some m -> intro_order s (List.concat ls) = Some m.
Proof.
  induction ls as [|l ls IH]; intros s m Hs H; simpl in *; [assumption|].
  destruct (own_order s s l) as [n|] eqn:E; [|discriminate].
  rewrite intro_order_app, (own_order_intro _ _ _ _ Hs E).
  apply IH; [|assumption].
  apply own_order_spec in E; lia.
Qed.

Lemma own_blocks_range ls : forall s m,
  own_blocks s ls = Some m ->
  s <= m /\ forall l k, In l ls -> In k l -> s <= k < m.
Proof.
  induction ls as [|l ls IH]; intros s m H; simpl in H.
  - inversion H; subst. split; [lia | intros ? ? []].
  - destruct (own_order s s l) as [n|] eqn:E; [|discriminate].
    apply own_order_spec in E; [|lia]. destruct E as [E1 E2].
    apply IH in H. destruct H as [H1 H2]. split; [lia|].
    intros l' k [<-|Hl] Hk.
    + specialize (E2 k Hk). lia.
    + specialize (H2 l' k Hl Hk). lia.
Qed.

(** Predicates that use only parameters of their own share none. *)
Lemma own_blocks_disjoint ls : forall s m,
  own_blocks s ls = Some m ->
  ForallOrdPairs (fun l1 l2 => forall k, In k l1 -> ~ In k l2) ls.
Proof.
  induction ls as [|l ls IH]; intros s m H; simpl in H; [constructor|].
  destruct (own_order s s l) as [n|] eqn:E; [|discriminate].
  apply own_order_spec in E; [|lia]. destruct E as [E1 E2].
  constructor; [|eauto].
  apply Forall_forall. intros l' Hl' k Hk Hk'.
  destruct (own_blocks_range _ _ _ H) as [_ R].
  specialize (R l' k Hl' Hk'). specialize (E2 k Hk). lia.
Qed.

(** What [intro_order] accepts mentions exactly the numbers up to the next
    fresh one. *)
Lemma intro_order_spec l : forall n m,
  1 <= n ->
  intro_order n l = Some m ->
  n <= m /\ (forall k, In k l -> 1 <= k < m) /\
  (forall k, n <= k < m -> In k l).
Proof.
  induction l as [|i l IH]; intros n m Hn H; simpl in H.
  - inversion H; subst. split; [lia|]. split; [intros k [] | intros k Hk; lia].
  - destruct ((1 <=? i) && (i <? n)) eqn:E.
    + apply andb_true_iff in E.
      apply IH in H; [|assumption]. destruct H as (H1 & H2 & H3).
      split; [lia|]. split.
      * intros k [<-|Hk]; [lia | apply H2, Hk].
      * intros k Hk. right. auto.
    + destruct (Z.eqb_spec i n); [|discriminate]. subst i.
      apply IH in H; [|lia]. destruct H as (H1 & H2 & H3).
      split; [lia|]. split.
      * intros k [<-|Hk]; [lia | apply H2, Hk].
      * intros k Hk. destruct (Z.eq_dec k n); [left; congruence|].
        right. apply H3. lia.
Qed.

Lemma intro_order_In l m :
  intro_order 1 l = Some m -> forall k, In k l <-> 1 <= k < m.
Proof.
  intros H k. destruct (intro_order_spec _ _ _ (Z.le_refl 1) H) as (_ & H2 & H3).
  split; auto.
Qed.

Lemma own_order_zseq n : forall lo start,
  lo <= start ->
  own_order lo start (zseq start n) = Some (start + Z.of_nat n).
Proof.
  induction n; intros lo start H.
  - simpl. f_equal. lia.
  - cbn [zseq own_order].
    replace ((lo <=? start) && (start <? start)) with false
      by (symmetry; apply andb_false_iff; lia).
    rewrite Z.eqb_refl, IHn by lia. f_equal. lia.
Qed.

(** ** The blocks of BuildSearchQueries *)

(** Placeholders of a format instantiated with numbers. *)
Ltac phs :=
  cbn [Sprintf];
  repeat first
    [ rewrite placeholders_ref by solve [lia | exact I | exact eq_refl]
    | rewrite placeholders_ref_end by lia
    | rewrite placeholders_skip by reflexivity
    | rewrite placeholders_nil ].

Ltac order := cbn [own_blocks own_order intro_order]; repeat (tests; cbn [andb]);
              try lia; try reflexivity.

Lemma distance_expression_phs i j :
  0 <= i -> 0 <= j -> placeholders (distance_expression i j) = [i; j].
Proof. intros. unfold distance_expression. phs. reflexivity. Qed.

Lemma cutoff_predicate_phs i j :
  0 <= i -> 0 <= j -> placeholders (cutoff_predicate i j) = [i; j].
Proof. intros. unfold cutoff_predicate. phs. reflexivity. Qed.

Lemma radius_predicate_phs i j k :
  0 <= i -> 0 <= j -> 0 <= k -> placeholders (radius_predicate i j k) = [i; j; k].
Proof. intros. unfold radius_predicate. phs. reflexivity. Qed.

Lemma city_predicate_phs i : 0 <= i -> placeholders (city_predicate i) = [i].
Proof. intros. unfold city_predicate. phs. reflexivity. Qed.

Lemma name_predicate_phs i : 0 <= i -> placeholders (name_predicate i) = [i; i].
Proof. intros. unfold name_predicate. phs. reflexivity. Qed.

Lemma placeholder_phs i : 0 <= i -> placeholders (placeholder i) = [i].
Proof. intros. unfold placeholder. phs. reflexivity. Qed.

Lemma fresh_refl b : fresh_step b b.
Proof.
  exists [], []. rewrite !app_nil_r. simpl. repeat split; auto. f_equal; lia.
Qed.

Lemma fresh_trans a b c : fresh_step a b -> fresh_step b c -> fresh_step a c.
Proof.
  intros (cs1 & vs1 & C1 & A1 & I1 & O1 & B1) (cs2 & vs2 & C2 & A2 & I2 & O2 & B2).
  exists (cs1 ++ cs2), (vs1 ++ vs2).
  rewrite C2, C1, A2, A1, I2, I1, !app_assoc, length_app, map_app, own_blocks_app, B1.
  repeat split; [lia | | ].
  - apply Forall_app; auto.
  - rewrite B2. f_equal. lia.
Qed.

Ltac one_predicate :=
  eexists [_], [_]; cbn [conditions args idx List.length];
  split; [reflexivity|]; split; [reflexivity|]; split; [lia|]; split;
  [ constructor; [repeat split; exact eq_refl | constructor]
  | cbn [map]; phs; order ].

Lemma name_block_fresh p b : 0 <= idx b -> fresh_step b (name_block p b).
Proof.
  intros H. unfold name_block. destruct (nonempty _); [|apply fresh_refl].
  one_predicate.
Qed.

Lemma area_block_fresh p b : 0 <= idx b -> fresh_step b (area_block p b).
Proof.
  intros H. unfold area_block. destruct (nonempty _); [|apply fresh_refl].
  one_predicate.
Qed.

Lemma cuisine_block_fresh p b : 0 <= idx b -> fresh_step b (cuisine_block p b).
Proof.
  intros H. unfold cuisine_block, single. destruct (nonempty _); [|apply fresh_refl].
  one_predicate.
Qed.

Lemma mealType_block_fresh p b : 0 <= idx b -> fresh_step b (mealType_block p b).
Proof.
  intros H. unfold mealType_block, single. destruct (nonempty _); [|apply fresh_refl].
  one_predicate.
Qed.

Lemma minCost_block_fresh p b : 0 <= idx b -> fresh_step b (minCost_block p b).
Proof.
  intros H. unfold minCost_block, single. destruct (0 <? _); [|apply fresh_refl].
  one_predicate.
Qed.

Lemma maxCost_block_fresh p b : 0 <= idx b -> fresh_step b (maxCost_block p b).
Proof.
  intros H. unfold maxCost_block, single. destruct (0 <? _); [|apply fresh_refl].
  one_predicate.
Qed.

Lemma rating_block_fresh p b : 0 <= idx b -> fresh_step b (rating_block p b).
Proof.
  intros H. unfold rating_block, single. destruct (F64.ltb _ _); [|apply fresh_refl].
  one_predicate.
Qed.

Lemma discount_block_fresh p b : 0 <= idx b -> fresh_step b (discount_block p b).
Proof.
  intros H. unfold discount_block, single. destruct (F64.ltb _ _); [|apply fresh_refl].
  one_predicate.
Qed.

Ltac no_argument :=
  eexists [_], []; cbn [conditions args idx List.length];
  split; [reflexivity|]; split; [now rewrite app_nil_r|]; split; [lia|]; split;
  [ constructor; [repeat split; exact eq_refl | constructor]
  | cbn [map]; phs; order ].

Lemma free_block_fresh p b : fresh_step b (free_block p b).
Proof.
  unfold free_block, fixed. destruct (Free p); [|apply fresh_refl]. no_argument.
Qed.

Lemma duplicate_block_fresh b : fresh_step b (duplicate_block b).
Proof. unfold duplicate_block, fixed. no_argument. Qed.

(** *** The list filters *)

Lemma list_loop_spec conv segments : forall placeholders0 b,
  fold_left
    (fun (acc : list string * builder) (segment : string) =>
       let (placeholders, b) := acc in
       (placeholders ++ [Sprintf "$%d" [OInt (idx b)]],
        {| conditions := conditions b;
           args := args b ++ [VString (conv segment)];
           idx := idx b + 1 |}))
    segments (placeholders0, b)
  = (placeholders0 ++ map placeholder (zseq (idx b) (List.length segments)),
     {| conditions := conditions b;
        args := args b ++ map (fun segment => VString (conv segment)) segments;
        idx := idx b + Z.of_nat (List.length segments) |}).
Proof.
  induction segments as [|segment segments IH]; intros ps b.
  - destruct b; cbn [fold_left List.length zseq map conditions args idx].
    rewrite !app_nil_r, Z.add_0_r. reflexivity.
  - cbn [fold_left]. rewrite IH.
    cbn [conditions args idx List.length zseq map].
    rewrite <- !app_assoc. cbn [app].
    f_equal. f_equal. lia.
Qed.

Lemma list_block_spec format conv field b :
  nonempty field = true ->
  let segments := Strings.Split field "," in
  list_block format conv field b =
  {| conditions := conditions b ++
       [Sprintf format
          [OStr (Strings.Join (map placeholder (zseq (idx b) (List.length segments))) ",")]];
     args := args b ++ map (fun segment => VString (conv segment)) segments;
     idx := idx b + Z.of_nat (List.length segments) |}.
Proof.
  intros H segments. unfold list_block, list_loop. rewrite H.
  fold segments. rewrite list_loop_spec. reflexivity.
Qed.

Lemma placeholders_join zs :
  Forall (fun z => 0 <= z) zs ->
  placeholders (Strings.Join (map placeholder zs) ",") = zs.
Proof.
  induction zs as [|z zs IH]; intros H; [reflexivity|].
  inversion H as [|? ? Hz Hzs]; subst.
  destruct zs as [|z' zs'].
  - simpl. now apply placeholder_phs.
  - change (Strings.Join (map placeholder (z :: z' :: zs')) ",")
      with (placeholder z +++ "," +++ Strings.Join (map placeholder (z' :: zs')) ",").
    rewrite placeholders_app by exact eq_refl.
    rewrite placeholder_phs by assumption.
    cbn [String.append]. rewrite placeholders_skip by reflexivity.
    rewrite IH by assumption. reflexivity.
Qed.

Lemma zseq_nonneg n : forall start, 0 <= start -> Forall (fun z => 0 <= z) (zseq start n).
Proof.
  induction n; intros start H; simpl; constructor; [assumption|].
  apply IHn. lia.
Qed.

Lemma Split_nonempty s sep : Strings.Split s sep <> [].
Proof.
  destruct s as [|c s]; simpl; [discriminate|].
  destruct (Ascii.eqb c sep); [discriminate|].
  destruct (Strings.Split s sep); discriminate.
Qed.

(** Placeholders of an IN-list predicate: those of the joined list. *)
Ltac in_list :=
  cbn [Sprintf];
  repeat first
    [ rewrite placeholders_skip by reflexivity
    | rewrite placeholders_app by exact eq_refl
    | rewrite placeholders_nil ];
  rewrite ?app_nil_r.

Ltac list_predicate H :=
  rewrite list_block_spec by assumption;
  eexists [_], _; cbn [conditions args idx];
  split; [reflexivity|]; split; [reflexivity|]; split;
  [ now rewrite length_map |]; split;
  [ constructor; [repeat split; exact eq_refl | constructor]
  | cbn [map own_blocks]; in_list;
    rewrite placeholders_join by (apply zseq_nonneg; exact H);
    rewrite own_order_zseq by lia; reflexivity ].

Lemma cuisines_block_fresh p b : 0 <= idx b -> fresh_step b (cuisines_block p b).
Proof.
  intros H. unfold cuisines_block.
  destruct (nonempty (Cuisines p)) eqn:E;
    [| unfold list_block; rewrite E; apply fresh_refl].
  list_predicate H.
Qed.

Lemma cuisineIds_block_fresh p b : 0 <= idx b -> fresh_step b (cuisineIds_block p b).
Proof.
  intros H. unfold cuisineIds_block.
  destruct (nonempty (CuisineIds p)) eqn:E;
    [| unfold list_block; rewrite E; apply fresh_refl].
  list_predicate H.
Qed.

Lemma mealTypes_block_fresh p b : 0 <= idx b -> fresh_step b (mealTypes_block p b).
Proof.
  intros H. unfold mealTypes_block.
  destruct (nonempty (MealTypes p)) eqn:E;
    [| unfold list_block; rewrite E; apply fresh_refl].
  list_predicate H.
Qed.

Lemma mealTypeIds_block_fresh p b : 0 <= idx b -> fresh_step b (mealTypeIds_block p b).
Proof.
  intros H. unfold mealTypeIds_block.
  destruct (nonempty (MealTypeIds p)) eqn:E;
    [| unfold list_block; rewrite E; apply fresh_refl].
  list_predicate H.
Qed.

Lemma fresh_step_idx b b' : fresh_step b b' -> idx b <= idx b'.
Proof. intros (cs & vs & _ & _ & I & _). lia. Qed.

Lemma build_eq p :
  build p = (fst (location_block p init),
             tail_blocks p (city_block p (snd (location_block p init)))).
Proof.
  unfold build. fold init. destruct (location_block p init). reflexivity.
Qed.

Lemma fresh_chain (f : builder -> builder) :
  (forall x, 0 <= idx x -> fresh_step x (f x)) ->
  forall b x, 0 <= idx b -> fresh_step b x -> fresh_step b (f x).
Proof.
  intros F b x H S. apply (fresh_trans _ _ _ S), F.
  apply fresh_step_idx in S. lia.
Qed.

Lemma tail_fresh p b : 0 <= idx b -> fresh_step b (tail_blocks p b).
Proof.
  intros H. unfold tail_blocks.
  apply (fresh_chain duplicate_block); [intros; apply duplicate_block_fresh | exact H |].
  apply (fresh_chain (free_block p)); [intros; apply free_block_fresh | exact H |].
  apply (fresh_chain (discount_block p)); [apply discount_block_fresh | exact H |].
  apply (fresh_chain (rating_block p)); [apply rating_block_fresh | exact H |].
  apply (fresh_chain (maxCost_block p)); [apply maxCost_block_fresh | exact H |].
  apply (fresh_chain (minCost_block p)); [apply minCost_block_fresh | exact H |].
  apply (fresh_chain (mealTypeIds_block p)); [apply mealTypeIds_block_fresh | exact H |].
  apply (fresh_chain (mealTypes_block p)); [apply mealTypes_block_fresh | exact H |].
  apply (fresh_chain (mealType_block p)); [apply mealType_block_fresh | exact H |].
  apply (fresh_chain (cuisineIds_block p)); [apply cuisineIds_block_fresh | exact H |].
  apply (fresh_chain (cuisines_block p)); [apply cuisines_block_fresh | exact H |].
  apply (fresh_chain (cuisine_block p)); [apply cuisine_block_fresh | exact H |].
  apply (fresh_chain (area_block p)); [apply area_block_fresh | exact H |].
  apply (fresh_chain (name_block p)); [apply name_block_fresh | exact H |].
  apply fresh_refl.
Qed.

Lemma prefix_spec p :
  let b := city_block p (snd (location_block p init)) in
  fst (location_block p init) = distance p /\
  conditions b = geo_conditions p /\
  args b = geo_args p /\
  idx b = 1 + Z.of_nat (List.length (geo_args p)).
Proof.
  unfold location_block, city_block, distance, geo_conditions, geo_args, cutoff_sort.
  destruct (HasLocation p); destruct (nonempty (City p));
    try destruct (String.eqb (Sort p) "" || String.eqb (Sort p) "discount");
    repeat split.
Qed.

(** The shape of the accumulators when every block has run. *)
Theorem build_structure p :
  exists cs vs,
    fst (build p) = distance p /\
    conditions (snd (build p)) = geo_conditions p ++ cs /\
    args (snd (build p)) = geo_args p ++ vs /\
    Forall ordinary cs /\
    own_blocks (1 + Z.of_nat (List.length (geo_args p))) (map placeholders cs)
      = Some (idx (snd (build p))) /\
    idx (snd (build p)) = 1 + Z.of_nat (List.length (args (snd (build p)))).
Proof.
  rewrite build_eq. cbn [fst snd].
  destruct (prefix_spec p) as (D & C & A & I).
  set (b := city_block p (snd (location_block p init))) in *.
  destruct (tail_fresh p b) as (cs & vs & C' & A' & I' & O & B); [lia|].
  exists cs, vs. rewrite C', A', C, A, <- I.
  repeat split; auto.
  rewrite I', I, length_app. lia.
Qed.

(** *** Rendering *)

Lemma placeholders_Join_and conds :
  Forall nd conds ->
  placeholders (Strings.Join conds " AND ") = List.concat (map placeholders conds).
Proof.
  induction conds as [|c conds IH]; intros H; [reflexivity|].
  inversion H as [|? ? Hc Hcs]; subst.
  destruct conds as [|c' conds'].
  - simpl. now rewrite app_nil_r.
  - change (Strings.Join (c :: c' :: conds') " AND ")
      with (c +++ " AND " +++ Strings.Join (c' :: conds') " AND ").
    rewrite placeholders_app by exact eq_refl.
    cbn [String.append]. rewrite !placeholders_skip by reflexivity.
    rewrite IH by assumption. reflexivity.
Qed.

Lemma placeholders_whereStr conds :
  Forall nd conds ->
  placeholders (whereStr conds) = List.concat (map placeholders conds).
Proof.
  intros H. unfold whereStr. cbn [String.append].
  rewrite !placeholders_skip by reflexivity.
  now apply placeholders_Join_and.
Qed.

Lemma placeholders_countQuery d conds :
  Forall nd conds ->
  placeholders (fst (render d conds)) = List.concat (map placeholders conds).
Proof.
  intros H. unfold render. cbn [fst String.append].
  rewrite !placeholders_skip by reflexivity.
  now apply placeholders_whereStr.
Qed.

Lemma placeholders_selectFields : placeholders selectFields = [].
Proof. vm_compute. reflexivity. Qed.

Lemma placeholders_resultQuery d conds :
  Forall nd conds ->
  placeholders (snd (render d conds))
  = placeholders d ++ List.concat (map placeholders conds).
Proof.
  intros H. unfold render, resultFormat. cbn [snd Sprintf].
  repeat first
    [ rewrite placeholders_skip by reflexivity
    | rewrite placeholders_app by exact eq_refl
    | rewrite placeholders_nil ].
  rewrite placeholders_selectFields, placeholders_whereStr by assumption.
  now rewrite app_nil_r.
Qed.

(** The two templates are the same WHERE clause behind different heads. *)
Lemma render_where d conds :
  fst (render d conds) = "SELECT COUNT(*) FROM restaurants r " +++ whereStr conds
  /\ snd (render d conds)
     = Sprintf resultFormat [OStr selectFields; OStr d; OStr (whereStr conds)].
Proof. split; reflexivity. Qed.

(** *** The templates as a whole *)

Lemma BuildSearchQueries_eq p :
  BuildSearchQueries p =
  (fst (render (distanceExpr p) (search_conditions p)),
   snd (render (distanceExpr p) (search_conditions p)),
   args (snd (build p))).
Proof.
  unfold BuildSearchQueries, distanceExpr, search_conditions.
  destruct (build p) as [d b]. cbn [fst snd].
  destruct (render d (conditions b)). reflexivity.
Qed.

Lemma ordinary_nd c : ordinary c -> nd c.
Proof. now intros [H _]. Qed.

Lemma geo_conditions_nd p : Forall nd (geo_conditions p).
Proof.
  unfold geo_conditions.
  destruct (HasLocation p && cutoff_sort p); destruct (nonempty (City p));
    destruct (HasLocation p); repeat constructor.
Qed.

Ltac geo_cases p :=
  unfold distance, geo_conditions, geo_args, cutoff_sort in *;
  destruct (HasLocation p);
  destruct (String.eqb (Sort p) "" || String.eqb (Sort p) "discount");
  destruct (nonempty (City p)).

Lemma geo_order p :
  intro_order 1 (placeholders (distance p)
                 ++ List.concat (map placeholders (geo_conditions p)))
  = Some (1 + Z.of_nat (List.length (geo_args p))).
Proof. geo_cases p; vm_compute; reflexivity. Qed.

Lemma geo_range p c k :
  In c (distance p :: geo_conditions p) -> In k (placeholders c) ->
  1 <= k < 1 + Z.of_nat (List.length (geo_args p)).
Proof.
  geo_cases p; cbn [andb app In]; intros H Hk;
    repeat (destruct H as [<-|H]; [vm_compute in Hk; cbn [List.length]; lia |]);
    destruct H.
Qed.

Lemma search_conditions_nd p : Forall nd (search_conditions p).
Proof.
  destruct (build_structure p) as (cs & vs & _ & C & _ & O & _).
  unfold search_conditions. rewrite C. apply Forall_app. split.
  - apply geo_conditions_nd.
  - eapply Forall_impl; [|exact O]. apply ordinary_nd.
Qed.

Lemma placeholders_count p :
  placeholders (countQuery p) = List.concat (map placeholders (search_conditions p)).
Proof.
  unfold countQuery. rewrite BuildSearchQueries_eq. cbn [fst].
  apply placeholders_countQuery, search_conditions_nd.
Qed.

Lemma placeholders_fetch p :
  placeholders (resultQuery p)
  = placeholders (distanceExpr p)
    ++ List.concat (map placeholders (search_conditions p)).
Proof.
  unfold resultQuery. rewrite BuildSearchQueries_eq. cbn [fst snd].
  apply placeholders_resultQuery, search_conditions_nd.
Qed.

Lemma arguments_eq p : arguments p = args (snd (build p)).
Proof. unfold arguments. now rewrite BuildSearchQueries_eq. Qed.

(** The fetch template introduces the parameters in order, one per argument. *)
Lemma fetch_order p :
  intro_order 1 (placeholders (resultQuery p))
  = Some (1 + Z.of_nat (List.length (arguments p))).
Proof.
  rewrite placeholders_fetch, arguments_eq.
  destruct (build_structure p) as (cs & vs & D & C & A & O & B & I).
  unfold distanceExpr, search_conditions. rewrite D, C.
  rewrite map_app, concat_app, app_assoc, intro_order_app, geo_order.
  rewrite <- I. apply own_blocks_intro; [lia | exact B].
Qed.

(** The fetch template refers to every argument and to nothing else. *)
Lemma fetch_references p k :
  In k (placeholders (resultQuery p)) <-> 1 <= k <= Z.of_nat (List.length (arguments p)).
Proof.
  rewrite (intro_order_In _ _ (fetch_order p)). lia.
Qed.

(** The count template refers to arguments only. *)
Lemma count_references p k :
  In k (placeholders (countQuery p)) -> In k (placeholders (resultQuery p)).
Proof.
  rewrite placeholders_count, placeholders_fetch. intros H.
  apply in_or_app. now right.
Qed.

(** *** A block in its context *)

Lemma tail_blocks_list p b : tail_blocks p b = run_blocks (tail_list p) b.
Proof. reflexivity. Qed.

Lemma tail_list_fresh p :
  Forall (fun f => forall x, 0 <= idx x -> fresh_step x (f x)) (tail_list p).
Proof.
  unfold tail_list. repeat constructor.
  - apply name_block_fresh.
  - apply area_block_fresh.
  - apply cuisine_block_fresh.
  - apply cuisines_block_fresh.
  - apply cuisineIds_block_fresh.
  - apply mealType_block_fresh.
  - apply mealTypes_block_fresh.
  - apply mealTypeIds_block_fresh.
  - apply minCost_block_fresh.
  - apply maxCost_block_fresh.
  - apply rating_block_fresh.
  - apply discount_block_fresh.
  - intros; apply free_block_fresh.
  - intros; apply duplicate_block_fresh.
Qed.

Lemma run_blocks_fresh l :
  Forall (fun f => forall x, 0 <= idx x -> fresh_step x (f x)) l ->
  forall b, 0 <= idx b -> fresh_step b (run_blocks l b).
Proof.
  induction l as [|f l IH]; intros F b H; cbn [run_blocks fold_left].
  - apply fresh_refl.
  - inversion F as [|? ? Ff Fl]; subst.
    apply (fresh_trans _ (f b)); [auto|].
    apply IH; [assumption|].
    specialize (Ff b H). apply fresh_step_idx in Ff. lia.
Qed.

Lemma run_blocks_app l1 l2 b :
  run_blocks (l1 ++ l2) b = run_blocks l2 (run_blocks l1 b).
Proof. apply fold_left_app. Qed.

Lemma prefix_state_idx p :
  idx (prefix_state p) = 1 + Z.of_nat (List.length (args (prefix_state p))).
Proof.
  destruct (prefix_spec p) as (_ & _ & A & I). unfold prefix_state.
  now rewrite I, A.
Qed.

Lemma build_prefix p : snd (build p) = run_blocks (tail_list p) (prefix_state p).
Proof. rewrite build_eq. reflexivity. Qed.

(** Around any block of the tail: the counter is one more than the number of
    arguments when the block starts, and what follows only appends. *)
Lemma block_context p l1 f l2 :
  tail_list p = l1 ++ f :: l2 ->
  let x := run_blocks l1 (prefix_state p) in
  idx x = 1 + Z.of_nat (List.length (args x)) /\
  fresh_step (f x) (snd (build p)).
Proof.
  intros E x.
  pose proof (tail_list_fresh p) as F. rewrite E in F.
  apply Forall_app in F. destruct F as [F1 F2].
  inversion F2 as [|? ? Ff F3]; subst.
  pose proof (prefix_state_idx p) as I0.
  assert (S1 : fresh_step (prefix_state p) x) by (apply run_blocks_fresh; [assumption | lia]).
  pose proof (fresh_step_idx _ _ S1) as L1.
  split.
  - destruct S1 as (cs & vs & _ & A & I & _). rewrite I, A, length_app, I0. lia.
  - rewrite build_prefix, E, run_blocks_app. cbn [run_blocks fold_left].
    apply run_blocks_fresh; [assumption|].
    assert (S2 : fresh_step x (f x)) by (apply Ff; lia).
    apply fresh_step_idx in S2. fold x. lia.
Qed.

Lemma fresh_step_keeps b b' :
  fresh_step b b' ->
  (forall c, In c (conditions b) -> In c (conditions b')) /\
  (forall i v, nth_error (args b) i = Some v -> nth_error (args b') i = Some v).
Proof.
  intros (cs & vs & C & A & _). rewrite C, A. split.
  - intros c H. apply in_or_app. now left.
  - intros i v H. rewrite nth_error_app1; [assumption|].
    apply nth_error_Some. congruence.
Qed.

Lemma bound_nth a k j v :
  k = 1 + Z.of_nat j -> nth_error a j = Some v -> bound a k = Some v.
Proof.
  intros -> H. unfold bound.
  replace (1 <=? 1 + Z.of_nat j) with true by (symmetry; apply Z.leb_le; lia).
  replace (Z.to_nat (1 + Z.of_nat j - 1)) with j by lia. assumption.
Qed.

(** The name predicate refers twice to the one argument it appends. *)
Lemma name_binding p :
  nonempty (Name p) = true ->
  let k := 1 + Z.of_nat (List.length (geo_args p)) in
  In (name_predicate k) (search_conditions p) /\
  bound (arguments p) k = Some (VString ("%" +++ Name p +++ "%")).
Proof.
  intros H k.
  destruct (block_context p [] (name_block p) (tl (tail_list p)) eq_refl) as [I S].
  cbn [run_blocks fold_left] in I, S.
  destruct (prefix_spec p) as (_ & _ & A & Ix). fold (prefix_state p) in A, Ix.
  destruct (fresh_step_keeps _ _ S) as [KC KA].
  unfold name_block in KC, KA. rewrite H in KC, KA. cbn [conditions args] in KC, KA.
  split.
  - apply KC, in_or_app. right. left. unfold name_predicate, k. now rewrite Ix.
  - rewrite arguments_eq.
    apply (bound_nth _ _ (List.length (geo_args p))); [reflexivity|].
    apply KA. rewrite A, nth_error_app2, Nat.sub_diag by lia. reflexivity.
Qed.

(** An IN-list predicate has one placeholder per segment, numbered
    consecutively and bound to the converted segments in order. *)
Lemma list_binding p l1 format conv field l2 :
  tail_list p = l1 ++ list_block format conv field :: l2 ->
  nonempty field = true ->
  let segments := Strings.Split field "," in
  exists k,
    1 <= k /\
    In (Sprintf format
          [OStr (Strings.Join (map placeholder (zseq k (List.length segments))) ",")])
       (search_conditions p) /\
    forall j segment,
      nth_error segments j = Some segment ->
      bound (arguments p) (k + Z.of_nat j) = Some (VString (conv segment)).
Proof.
  intros E H segments.
  destruct (block_context p _ _ _ E) as [I S].
  set (x := run_blocks l1 (prefix_state p)) in *.
  rewrite list_block_spec in S by assumption. fold segments in S.
  destruct (fresh_step_keeps _ _ S) as [KC KA]. cbn [conditions args] in KC, KA.
  exists (idx x). split; [lia|]. split.
  - apply KC, in_or_app. right. now left.
  - intros j segment Hj. rewrite arguments_eq.
    apply (bound_nth _ _ (List.length (args x) + j)); [lia|].
    apply KA. rewrite nth_error_app2 by lia.
    replace (List.length (args x) + j - List.length (args x))%nat with j by lia.
    now rewrite nth_error_map, Hj.
Qed.

(** *** Telling the predicates apart *)

Lemma dollars_app a b : dollars (a +++ b) = (dollars a + dollars b)%nat.
Proof.
  induction a as [|c a IH]; [reflexivity|].
  cbn [String.append dollars]. rewrite IH. now destruct (Ascii.eqb c "$").
Qed.

Lemma dollars_uint d : dollars (NilEmpty.string_of_uint d) = O.
Proof. induction d; cbn; auto. Qed.

Lemma dollars_Itoa z : dollars (Itoa z) = O.
Proof.
  unfold Itoa. destruct (Z.to_int z); cbn [NilEmpty.string_of_int dollars];
    cbn; apply dollars_uint.
Qed.

Lemma dollars_cutoff i j : dollars (cutoff_predicate i j) = 2%nat.
Proof.
  unfold cutoff_predicate. cbn [Sprintf dollars Ascii.eqb Bool.eqb].
  repeat (rewrite !dollars_app, !dollars_Itoa; cbn [dollars Ascii.eqb Bool.eqb plus]).
  reflexivity.
Qed.

Lemma dollars_radius i j k : dollars (radius_predicate i j k) = 3%nat.
Proof.
  unfold radius_predicate. cbn [Sprintf dollars Ascii.eqb Bool.eqb].
  repeat (rewrite !dollars_app, !dollars_Itoa; cbn [dollars Ascii.eqb Bool.eqb plus]).
  reflexivity.
Qed.

Lemma cutoff_not_radius a b i j k : cutoff_predicate a b <> radius_predicate i j k.
Proof.
  intros E. apply (f_equal dollars) in E.
  rewrite dollars_cutoff, dollars_radius in E. discriminate.
Qed.

Lemma city_not_radius a i j k : city_predicate a <> radius_predicate i j k.
Proof. intros E. apply (f_equal (String.prefix "ST_")) in E. discriminate. Qed.

Lemma city_not_cutoff a i j : city_predicate a <> cutoff_predicate i j.
Proof. intros E. apply (f_equal (String.prefix "ST_")) in E. discriminate. Qed.

Lemma ordinary_not_city c k : ordinary c -> c <> city_predicate k.
Proof. intros (_ & H & _) ->. discriminate. Qed.

Lemma ordinary_not_radius c i j k : ordinary c -> c <> radius_predicate i j k.
Proof. intros (_ & _ & H) ->. discriminate. Qed.

Lemma ordinary_not_cutoff c i j : ordinary c -> c <> cutoff_predicate i j.
Proof. intros (_ & _ & H) ->. discriminate. Qed.

Lemma search_conditions_split p :
  exists cs, search_conditions p = geo_conditions p ++ cs /\ Forall ordinary cs.
Proof.
  destruct (build_structure p) as (cs & vs & _ & C & _ & O & _).
  exists cs. split; assumption.
Qed.

Lemma geo_conditions_In p c :
  In c (geo_conditions p) <->
  (HasLocation p = true /\ cutoff_sort p = true /\ c = cutoff_predicate 1 2) \/
  (nonempty (City p) = true /\ c = city_predicate (if HasLocation p then 3 else 1)) \/
  (nonempty (City p) = false /\ HasLocation p = true /\ c = radius_predicate 1 2 3).
Proof.
  unfold geo_conditions. rewrite in_app_iff.
  destruct (HasLocation p); destruct (cutoff_sort p); destruct (nonempty (City p));
    cbn [andb In]; intuition (try discriminate; auto).
Qed.

(** The radius predicate is present only without a city and with a point. *)
Lemma radius_only_if p i j k :
  In (radius_predicate i j k) (search_conditions p) ->
  nonempty (City p) = false /\ HasLocation p = true.
Proof.
  destruct (search_conditions_split p) as (cs & -> & O). rewrite in_app_iff.
  intros [H|H].
  - apply geo_conditions_In in H. destruct H as [(_ & _ & E)|[(_ & E)|(C & L & _)]].
    + symmetry in E. now apply cutoff_not_radius in E.
    + symmetry in E. now apply city_not_radius in E.
    + auto.
  - rewrite Forall_forall in O. apply O in H.
    exfalso. exact (ordinary_not_radius _ i j k H eq_refl).
Qed.

(** The city predicate is present only with a city. *)
Lemma city_only_if p k :
  In (city_predicate k) (search_conditions p) -> nonempty (City p) = true.
Proof.
  destruct (search_conditions_split p) as (cs & -> & O). rewrite in_app_iff.
  intros [H|H].
  - apply geo_conditions_In in H. destruct H as [(_ & _ & E)|[(C & _)|(_ & _ & E)]].
    + now apply city_not_cutoff in E.
    + assumption.
    + now apply city_not_radius in E.
  - rewrite Forall_forall in O. apply O in H.
    exfalso. exact (ordinary_not_city _ k H eq_refl).
Qed.

(** The cutoff is present only with a point and one of the two sort keys. *)
Lemma cutoff_only_if p i j :
  In (cutoff_predicate i j) (search_conditions p) ->
  HasLocation p = true /\ cutoff_sort p = true.
Proof.
  destruct (search_conditions_split p) as (cs & -> & O). rewrite in_app_iff.
  intros [H|H].
  - apply geo_conditions_In in H. destruct H as [(L & S & _)|[(_ & E)|(_ & _ & E)]].
    + auto.
    + symmetry in E. now apply city_not_cutoff in E.
    + now apply cutoff_not_radius in E.
  - rewrite Forall_forall in O. apply O in H.
    exfalso. exact (ordinary_not_cutoff _ i j H eq_refl).
Qed.

Lemma geo_conditions_present p c :
  In c (geo_conditions p) -> In c (search_conditions p).
Proof.
  destruct (search_conditions_split p) as (cs & -> & _). intros H.
  apply in_or_app. now left.
Qed.

Lemma geo_args_present p j v :
  nth_error (geo_args p) j = Some v -> nth_error (arguments p) j = Some v.
Proof.
  destruct (build_structure p) as (cs & vs & _ & _ & A & _).
  rewrite arguments_eq, A. intros H.
  rewrite nth_error_app1; [assumption|]. apply nth_error_Some. congruence.
Qed.

(** *** Sharing of parameters between fragments *)

Lemma FOP_app {A} (R : A -> A -> Prop) l1 : forall l2,
  ForallOrdPairs R l1 -> ForallOrdPairs R l2 ->
  (forall a b, In a l1 -> In b l2 -> R a b) ->
  ForallOrdPairs R (l1 ++ l2).
Proof.
  induction l1 as [|a l1 IH]; intros l2 H1 H2 H; [assumption|].
  inversion H1 as [|? ? Ha Hl]; subst. cbn [app]. constructor.
  - apply Forall_app. split; [assumption|].
    apply Forall_forall. intros b Hb. apply H; [now left | assumption].
  - apply IH; auto. intros x y Hx Hy. apply H; [now right | assumption].
Qed.

Lemma FOP_map {A B} (f : A -> B) (R : B -> B -> Prop) l :
  ForallOrdPairs R (map f l) -> ForallOrdPairs (fun a b => R (f a) (f b)) l.
Proof.
  induction l as [|a l IH]; intros H; [constructor|].
  cbn [map] in H. inversion H as [|? ? Ha Hl]; subst. constructor; [|auto].
  rewrite Forall_map in Ha. exact Ha.
Qed.

Lemma FOP_impl {A} (R S : A -> A -> Prop) l :
  (forall a b, R a b -> S a b) -> ForallOrdPairs R l -> ForallOrdPairs S l.
Proof.
  intros I H. induction H; constructor; auto.
  eapply Forall_impl; [|eassumption]. auto.
Qed.

(** *** Occurrence of a predicate in the templates *)

Lemma nonempty_true s : s <> "" <-> nonempty s = true.
Proof. destruct s; cbn; split; congruence. Qed.

Lemma nonempty_false s : s = "" <-> nonempty s = false.
Proof. destruct s; cbn; split; congruence. Qed.

Lemma string_app_assoc a b c : (a +++ b) +++ c = a +++ b +++ c.
Proof. induction a; cbn; congruence. Qed.

Lemma prefix_app n s : String.prefix n (n +++ s) = true.
Proof.
  induction n as [|c n IH]; cbn; [now destruct s|].
  destruct (ascii_dec c c); [assumption | congruence].
Qed.

Lemma prefix_app_l n : forall a b,
  String.prefix n a = true -> String.prefix n (a +++ b) = true.
Proof.
  induction n as [|c n IH]; intros a b H; cbn; [now destruct (a +++ b)|].
  destruct a as [|c' a]; cbn in *; [discriminate|].
  destruct (ascii_dec c c'); [auto | discriminate].
Qed.

Lemma contains_app_l n a b : contains n a = true -> contains n (a +++ b) = true.
Proof.
  induction a as [|c a IH]; intros H.
  - cbn in H. rewrite orb_false_r in H. destruct n; [|discriminate].
    destruct b; reflexivity.
  - cbn [contains] in H. apply orb_true_iff in H. destruct H as [H|H].
    + cbn [String.append contains].
      change (String c (a +++ b)) with (String c a +++ b).
      rewrite (prefix_app_l _ _ _ H). reflexivity.
    + cbn [String.append contains]. rewrite (IH H). apply orb_true_r.
Qed.

Lemma contains_app_r n a b : contains n b = true -> contains n (a +++ b) = true.
Proof.
  intros H. induction a as [|c a IH]; [assumption|].
  cbn [String.append contains]. rewrite IH. apply orb_true_r.
Qed.

Lemma contains_prefix n hay : String.prefix n hay = true -> contains n hay = true.
Proof. destruct hay; cbn [contains]; intros ->; reflexivity. Qed.

Lemma contains_self n s : contains n (n +++ s) = true.
Proof. apply contains_prefix, prefix_app. Qed.

Lemma contains_refl n : contains n n = true.
Proof.
  replace n with (n +++ "") at 2; [apply contains_self|].
  induction n; cbn; congruence.
Qed.

Lemma contains_Join c conds sep :
  In c conds -> contains c (Strings.Join conds sep) = true.
Proof.
  induction conds as [|c' conds IH]; intros H; [destruct H|].
  destruct conds as [|c'' conds'].
  - destruct H as [->|[]]. apply contains_refl.
  - change (Strings.Join (c' :: c'' :: conds') sep)
      with (c' +++ sep +++ Strings.Join (c'' :: conds') sep).
    destruct H as [->|H].
    + apply contains_self.
    + apply contains_app_r, contains_app_r, IH, H.
Qed.

Lemma resultQuery_where sf d w :
  exists pre post, Sprintf resultFormat [OStr sf; OStr d; OStr w] = pre +++ w +++ post.
Proof.
  unfold resultFormat. cbn [Sprintf].
  match goal with
  | |- exists pre post, ?lhs = _ =>
      match lhs with
      | context C [w +++ ?post0] =>
          let pre0 := context C [EmptyString] in
          exists pre0, post0
      end
  end.
  repeat (progress (cbn [String.append]; rewrite ?string_app_assoc)).
  reflexivity.
Qed.

(** Every collected predicate occurs in both templates. *)
Lemma condition_in_templates p c :
  In c (search_conditions p) ->
  contains c (countQuery p) = true /\ contains c (resultQuery p) = true.
Proof.
  intros H.
  assert (W : contains c (whereStr (search_conditions p)) = true)
    by (apply contains_app_r, contains_Join, H).
  unfold countQuery, resultQuery. rewrite BuildSearchQueries_eq. cbn [fst snd].
  destruct (render_where (distanceExpr p) (search_conditions p)) as [-> ->].
  split.
  - apply contains_app_r, W.
  - destruct (resultQuery_where selectFields (distanceExpr p)
                (whereStr (search_conditions p))) as (pre & post & ->).
    apply contains_app_r, contains_app_l, W.
Qed.

(** *** The list filters in the whole query *)

Lemma Split_length s : List.length (Strings.Split s ",") = S (occurrences "," s).
Proof.
  induction s as [|c s IH]; [reflexivity|].
  cbn [Strings.Split occurrences].
  destruct (Ascii.eqb c ","); cbn [List.length]; [congruence|].
  destruct (Strings.Split s ","); cbn [List.length] in *; congruence.
Qed.

Lemma in_list_predicate_phs format k n :
  In format [cuisines_format; cuisineIds_format; mealTypes_format; mealTypeIds_format] ->
  0 <= k ->
  placeholders (in_list_predicate format k n) = zseq k n.
Proof.
  intros H Hk. unfold in_list_predicate.
  assert (J := placeholders_join (zseq k n) (zseq_nonneg n k Hk)).
  cbn [In] in H.
  destruct H as [<-|[<-|[<-|[<-|[]]]]];
    (unfold cuisines_format, cuisineIds_format, mealTypes_format, mealTypeIds_format;
     in_list; exact J).
Qed.

Lemma list_filter p l1 format conv field l2 :
  tail_list p = l1 ++ list_block format conv field :: l2 ->
  In format [cuisines_format; cuisineIds_format; mealTypes_format; mealTypeIds_format] ->
  conv "" = "" ->
  list_filter_kept p format conv field.
Proof.
  intros E F Hconv Hne segments. split; [apply Split_length|].
  apply nonempty_true in Hne.
  destruct (list_binding p l1 format conv field l2 E Hne) as (k & Hk & HIn & HB).
  assert (P : placeholders (in_list_predicate format k (List.length segments))
              = zseq k (List.length segments))
    by (apply in_list_predicate_phs; [assumption | lia]).
  exists k. split; [assumption|]. split; [exact HIn|].
  split; [now apply condition_in_templates|]. split; [exact P|]. split.
  - intros j Hj.
    assert (I : In (k + Z.of_nat j)
                   (List.concat (map placeholders (search_conditions p)))).
    { apply in_concat. eexists. split; [apply in_map, HIn|].
      change (In (k + Z.of_nat j)
                 (placeholders (in_list_predicate format k (List.length segments)))).
      rewrite P. apply zseq_In. lia. }
    split.
    + now rewrite placeholders_count.
    + rewrite placeholders_fetch. apply in_or_app. now right.
  - split; [exact HB|].
    intros j Hj. specialize (HB j "" Hj). now rewrite Hconv in HB.
Qed.

Lemma geo_pairs p : ForallOrdPairs (shares_geo_only p) (distance p :: geo_conditions p).
Proof.
  unfold shares_geo_only. geo_cases p; cbn [andb app];
    repeat first [ apply FOP_nil | apply FOP_cons | apply Forall_nil | apply Forall_cons ];
    intros k H1 H2; vm_compute in H1, H2;
    repeat match goal with
           | H : _ \/ _ |- _ => destruct H
           | H : False |- _ => destruct H
           end; subst; try discriminate;
    (split; [reflexivity|]); (split; [auto|]); unfold geographic; auto.
Qed.

Lemma fragment_pairs p :
  ForallOrdPairs (shares_geo_only p) (distanceExpr p :: search_conditions p).
Proof.
  destruct (build_structure p) as (cs & vs & D & C & A & O & B & I).
  unfold distanceExpr, search_conditions. rewrite D, C.
  change (distance p :: geo_conditions p ++ cs)
    with ((distance p :: geo_conditions p) ++ cs).
  apply FOP_app.
  - apply geo_pairs.
  - apply own_blocks_disjoint in B. apply FOP_map in B.
    eapply FOP_impl; [|exact B]. cbv beta. intros a b H k Ha Hb.
    exfalso. exact (H k Ha Hb).
  - intros a b Ha Hb k Hka Hkb. exfalso.
    pose proof (geo_range p a k Ha Hka) as R1.
    destruct (own_blocks_range _ _ _ B) as [_ R2].
    specialize (R2 (placeholders b) k (in_map _ _ _ Hb) Hkb). lia.
Qed.

(** *** The handlers *)

Lemma BuildSearchQueries_parts p :
  BuildSearchQueries p = (countQuery p, resultQuery p, arguments p).
Proof.
  unfold countQuery, resultQuery, arguments.
  destruct (BuildSearchQueries p) as [[c r] a]. reflexivity.
Qed.

Lemma collect_spec rt hasExtraFields rows : forall l,
  collect rt hasExtraFields rows (make_slice l)
  = make_slice (l ++ decoded rt hasExtraFields rows).
Proof.
  unfold collect, decoded.
  induction rows as [|row rows IH]; intros l; cbn [fold_left flat_map].
  - now rewrite app_nil_r.
  - destruct (ScanRestaurant rt row hasExtraFields); cbn [append].
    + rewrite IH, <- app_assoc. reflexivity.
    + apply IH.
Qed.




(** The branches of [SearchHandler]. *)
Lemma SearchHandler_count_error rt db query err :
  let p := ParseSearchParams rt query in
  QueryRow db (countQuery p) (arguments p) = inr err ->
  SearchHandler rt db query
  = (respond_json (empty_page 0),
     [EQueryRow (countQuery p) (arguments p); ELog "Count query error:" err]).
Proof.
  intros p H. unfold SearchHandler. fold p.
  rewrite BuildSearchQueries_parts, H. reflexivity.
Qed.

Lemma SearchHandler_overflow rt db query totalCount :
  let p := ParseSearchParams rt query in
  let pages := totalPages totalCount (Limit p) in
  QueryRow db (countQuery p) (arguments p) = inl totalCount ->
  pages < Page p -> 0 < pages ->
  SearchHandler rt db query
  = (respond_json (empty_page pages), [EQueryRow (countQuery p) (arguments p)]).
Proof.
  intros p pages H H1 H2. unfold SearchHandler. fold p.
  rewrite BuildSearchQueries_parts, H. fold pages.
  apply Z.ltb_lt in H1, H2. rewrite H1, H2. reflexivity.
Qed.

Lemma SearchHandler_fetch_error rt db query totalCount err :
  let p := ParseSearchParams rt query in
  let pages := totalPages totalCount (Limit p) in
  QueryRow db (countQuery p) (arguments p) = inl totalCount ->
  (pages <? Page p) && (0 <? pages) = false ->
  Query db (finalQuery p) (arguments p) = inr err ->
  SearchHandler rt db query
  = (http_Error "Something went wrong" StatusBadRequest,
     [EQueryRow (countQuery p) (arguments p); EQuery (finalQuery p) (arguments p);
      ELog "Search result query error:" err]).
Proof.
  intros p pages H H1 H2. unfold SearchHandler. fold p.
  rewrite BuildSearchQueries_parts, H. fold pages. rewrite H1.
  fold (finalQuery p). rewrite H2. reflexivity.
Qed.

Lemma SearchHandler_results rt db query totalCount rows :
  let p := ParseSearchParams rt query in
  let pages := totalPages totalCount (Limit p) in
  QueryRow db (countQuery p) (arguments p) = inl totalCount ->
  (pages <? Page p) && (0 <? pages) = false ->
  Query db (finalQuery p) (arguments p) = inl rows ->
  SearchHandler rt db query
  = (respond_json (Object [("restaurants", JRestaurants (make_slice (decoded rt true rows)));
                           ("pages", JInt pages);
                           ("total_count", JInt totalCount)]),
     [EQueryRow (countQuery p) (arguments p); EQuery (finalQuery p) (arguments p)]).
Proof.
  intros p pages H H1 H2. unfold SearchHandler. fold p.
  rewrite BuildSearchQueries_parts, H. fold pages. rewrite H1.
  fold (finalQuery p). rewrite H2, collect_spec. reflexivity.
Qed.

Lemma ParseSearchParams_Limit rt query : Limit (ParseSearchParams rt query) = 12.
Proof.
  unfold ParseSearchParams.
  destruct (nonempty (Get query "lat") && nonempty (Get query "lon")); reflexivity.
Qed.

(* ================================================================== *)
(** * The page count in float64 arithmetic *)
(* ================================================================== *)

Lemma fexp_eq x : fexp 53 1024 x = Z.max (x - 53) (-1074).
Proof. reflexivity. Qed.

Lemma digits2_pos_size p : digits2_pos p = Pos.size p.
Proof. induction p; simpl; congruence. Qed.

Lemma Zdigits2_log2 q : 0 < q -> Zdigits2 q = Z.log2 q + 1.
Proof.
  destruct q as [|p|p]; try lia. intros _. cbn [Zdigits2].
  rewrite digits2_pos_size. destruct p; cbn [Pos.size Z.log2]; lia.
Qed.

Lemma Zdigits2_bounds q k : 0 < k -> 2 ^ (k - 1) <= q < 2 ^ k -> Zdigits2 q = k.
Proof.
  intros Hk H. assert (0 < q) by (pose proof (Z.pow_pos_nonneg 2 (k - 1)); lia).
  rewrite Zdigits2_log2 by assumption.
  rewrite (Z.log2_unique q (k - 1)); try lia.
  replace (Z.succ (k - 1)) with k by lia. assumption.
Qed.

(** Second stage of the rounding: a mantissa of 53 bits, or 2^53, is kept. *)
Lemma round_stage2 s m e :
  2 ^ 52 <= m <= 2 ^ 53 -> -1074 <= e <= 970 ->
  exists m' e',
    (let '(mrs, e2) := shr_fexp 53 1024 m e loc_Exact in
     match shr_m mrs with
     | Z0 => S754_zero s
     | Zpos m0 => if e2 <=? 1024 - 53 then S754_finite s m0 e2 else S754_infinity s
     | _ => S754_nan
     end) = S754_finite s m' e'
    /\ e <= e' <= e + 1 /\ Zpos m' * 2 ^ (e' - e) = m.
Proof.
  intros Hm He. unfold shr_fexp.
  destruct (Z.eq_dec m (2 ^ 53)) as [->|Hne].
  - assert (D : Zdigits2 (2 ^ 53) = 54) by reflexivity. rewrite D.
    rewrite fexp_eq. replace (Z.max (54 + e - 53) (-1074) - e) with 1 by lia.
    cbn [shr shr_record_of_loc iter_pos shr_1 shr_m Z.pow Z.pow_pos Pos.iter Z.mul Pos.mul].
    replace (e + 1 <=? 1024 - 53) with true by (symmetry; apply Z.leb_le; lia).
    eexists _, (e + 1). split; [reflexivity|]. split; [lia|].
    replace (e + 1 - e) with 1 by lia. reflexivity.
  - rewrite (Zdigits2_bounds m 53) by lia.
    rewrite fexp_eq. replace (Z.max (53 + e - 53) (-1074) - e) with 0 by lia.
    cbn [shr shr_record_of_loc shr_m].
    destruct m as [|p|p]; try lia.
    replace (e <=? 1024 - 53) with true by (symmetry; apply Z.leb_le; lia).
    exists p, e. split; [reflexivity|]. split; [lia|].
    rewrite Z.sub_diag. lia.
Qed.

Lemma shr_record_of_loc_m m l : shr_m (shr_record_of_loc m l) = m.
Proof. destruct l as [|[]]; reflexivity. Qed.

Lemma loc_of_shr_record_of_loc m l : loc_of_shr_record (shr_record_of_loc m l) = l.
Proof. destruct l as [|[]]; reflexivity. Qed.

(** First stage: the quotient is shifted to 53 bits and rounded to nearest
    even; the result stays within one unit of the last kept place. *)
Lemma round_stage1 q e l :
  2 ^ 52 <= q < 2 ^ 54 -> -1074 <= e ->
  let '(mrs, e1) := shr_fexp 53 1024 q e l in
  let m1 := round_nearest_even (shr_m mrs) (loc_of_shr_record mrs) in
  2 ^ 52 <= m1 <= 2 ^ 53 /\ e <= e1 <= e + 1
  /\ q - 1 <= m1 * 2 ^ (e1 - e) <= q + 2
  /\ (l = loc_Exact -> Z.even q = true -> m1 * 2 ^ (e1 - e) = q).
Proof.
  intros Hq He. unfold shr_fexp.
  destruct (Z_lt_le_dec q (2 ^ 53)) as [Hlt|Hge].
  - rewrite (Zdigits2_bounds q 53) by lia.
    rewrite fexp_eq. replace (Z.max (53 + e - 53) (-1074) - e) with 0 by lia.
    cbn [shr]. rewrite shr_record_of_loc_m, loc_of_shr_record_of_loc, Z.sub_diag.
    change (2 ^ 0) with 1. rewrite Z.mul_1_r.
    destruct l as [|[]]; cbn [round_nearest_even];
      try destruct (Z.even q); repeat split; try lia; intros; try lia; discriminate.
  - rewrite (Zdigits2_bounds q 54) by lia.
    rewrite fexp_eq. replace (Z.max (54 + e - 53) (-1074) - e) with 1 by lia.
    cbn [shr iter_pos]. replace (e + 1 - e) with 1 by lia. change (2 ^ 1) with 2.
    destruct q as [|p|p]; try lia.
    destruct p as [p|p|]; try (exfalso; cbv in Hge; congruence);
      destruct l as [|[]];
      cbn [shr_record_of_loc shr_1 shr_m loc_of_shr_record orb round_nearest_even];
      try destruct (Z.even (Z.pos p));
      repeat split; try lia; intros; try lia; try discriminate.
Qed.

(** Rounding a quotient of 53 or 54 bits: the result is finite and within
    two units of the quotient's last place, and exact when nothing is lost. *)
Lemma round_aux_bracket q e l :
  2 ^ 52 <= q < 2 ^ 54 -> -1074 <= e <= 969 ->
  exists m' e',
    binary_round_aux 53 1024 false q e l = S754_finite false m' e'
    /\ e <= e' <= e + 2
    /\ q - 1 <= Zpos m' * 2 ^ (e' - e) <= q + 2
    /\ (l = loc_Exact -> Z.even q = true -> Zpos m' * 2 ^ (e' - e) = q).
Proof.
  intros Hq He. unfold binary_round_aux.
  pose proof (round_stage1 q e l Hq (proj1 He)) as S1.
  destruct (shr_fexp 53 1024 q e l) as [mrs e1].
  cbv zeta in S1. destruct S1 as (B & E1 & V & X).
  set (m1 := round_nearest_even (shr_m mrs) (loc_of_shr_record mrs)) in *.
  destruct (round_stage2 false m1 e1 B) as (m' & e' & R & E2 & V2); [lia|].
  destruct (shr_fexp 53 1024 m1 e1 loc_Exact) as [mrs2 e2].
  exists m', e'. split; [exact R|]. split; [lia|].
  assert (P : Z.pos m' * 2 ^ (e' - e) = m1 * 2 ^ (e1 - e)).
  { rewrite <- V2, <- Z.mul_assoc, <- Z.pow_add_r by lia. do 2 f_equal. lia. }
  rewrite P. split; [exact V | exact X].
Qed.

Lemma round_aux_exact s mz e :
  2 ^ 52 <= Zpos mz < 2 ^ 53 -> -1074 <= e <= 971 ->
  binary_round_aux 53 1024 s (Zpos mz) e loc_Exact = S754_finite s mz e.
Proof.
  intros Hm He. unfold binary_round_aux, shr_fexp.
  rewrite (Zdigits2_bounds (Zpos mz) 53) by lia.
  rewrite fexp_eq. replace (Z.max (53 + e - 53) (-1074) - e) with 0 by lia.
  cbn [shr shr_record_of_loc shr_m loc_of_shr_record round_nearest_even].
  rewrite (Zdigits2_bounds (Zpos mz) 53) by lia.
  rewrite fexp_eq. replace (Z.max (53 + e - 53) (-1074) - e) with 0 by lia.
  cbn [shr shr_record_of_loc shr_m].
  replace (e <=? 1024 - 53) with true by (symmetry; apply Z.leb_le; lia).
  reflexivity.
Qed.

Lemma iter_xO m k : Zpos (Pos.iter xO m k) = Zpos m * 2 ^ Zpos k.
Proof.
  change (Pos.iter xO m k) with (shift_pos k m).
  rewrite shift_pos_correct. change (Z.pow_pos 2 k) with (2 ^ Zpos k). lia.
Qed.

(** The float64 of a positive integer of at most 53 bits is the integer. *)
Lemma of_int_normal n d :
  0 < n -> Zdigits2 n = d -> d <= 53 ->
  exists mx,
    F64.of_int n = S754_finite false mx (d - 53) /\ Zpos mx = n * 2 ^ (53 - d)
    /\ 2 ^ 52 <= Zpos mx < 2 ^ 53.
Proof.
  intros Hn Hd Hle.
  assert (Hd' := Hd). rewrite Zdigits2_log2 in Hd' by assumption.
  pose proof (Z.log2_spec n Hn) as Hlog.
  pose proof (Z.log2_nonneg n) as Hnn.
  assert (1 <= d) by lia.
  replace (Z.succ (Z.log2 n)) with d in Hlog by lia.
  replace (Z.log2 n) with (d - 1) in Hlog by lia.
  destruct n as [|m|m]; try lia.
  unfold F64.of_int, F64.prec, F64.emax, binary_normalize, binary_round.
  change (Z.pos (digits2_pos m)) with (Zdigits2 (Zpos m)). rewrite Hd.
  rewrite fexp_eq. replace (Z.max (d + 0 - 53) (-1074)) with (d - 53) by lia.
  unfold shl_align.
  assert (P : 2 ^ 52 <= Zpos m * 2 ^ (53 - d) < 2 ^ 53).
  { assert (E1 : 2 ^ 52 = 2 ^ (d - 1) * 2 ^ (53 - d))
      by (rewrite <- Z.pow_add_r by lia; f_equal; lia).
    assert (E2 : 2 ^ 53 = 2 ^ d * 2 ^ (53 - d))
      by (rewrite <- Z.pow_add_r by lia; f_equal; lia).
    assert (0 < 2 ^ (53 - d)) by (apply Z.pow_pos_nonneg; lia).
    rewrite E1, E2. split;
      [apply Z.mul_le_mono_nonneg_r | apply Z.mul_lt_mono_pos_r]; lia. }
  destruct (d - 53 - 0) as [|k|k] eqn:K; try lia.
  - replace (53 - d) with 0 in * by lia. rewrite Z.mul_1_r in P.
    exists m. split; [|split; lia].
    replace (d - 53) with 0 by lia. apply round_aux_exact; lia.
  - replace (53 - d) with (Zpos k) in * by lia.
    exists (Pos.iter xO m k). split; [|rewrite iter_xO; split; [reflexivity | exact P]].
    apply round_aux_exact; [rewrite iter_xO; exact P | lia].
Qed.

(** Division by 12.0: the quotient of the mantissas, rounded. *)
Lemma div_12 mx ex :
  2 ^ 52 <= Zpos mx < 2 ^ 53 -> -1000 <= ex <= 0 ->
  F64.div (S754_finite false mx ex) (F64.of_int 12)
  = binary_round_aux 53 1024 false
      ((Zpos mx * 2 ^ 53) / 6755399441055744) (ex - 4)
      (new_location 6755399441055744 ((Zpos mx * 2 ^ 53) mod 6755399441055744)).
Proof.
  intros Hm He.
  change (F64.of_int 12) with (S754_finite false 6755399441055744 (-49)).
  unfold F64.div, F64.prec, F64.emax, SFdiv, SFdiv_core_binary. cbn [xorb].
  rewrite (Zdigits2_bounds (Zpos mx) 53) by lia.
  change (Zdigits2 6755399441055744) with 53.
  rewrite fexp_eq.
  replace (Z.min (Z.max (53 + ex - (53 + -49) - 53) (-1074)) (ex - -49)) with (ex - 4) by lia.
  replace (ex - -49 - (ex - 4)) with 53 by lia.
  cbv iota beta. rewrite Z.shiftl_mul_pow2 by lia.
  unfold Z.div, Z.modulo.
  destruct (Z.div_eucl (Z.pos mx * 2 ^ 53) 6755399441055744) as [q r].
  reflexivity.
Qed.

Lemma ceil_bracket a v T : 0 < T -> a * T < v <= (a + 1) * T -> - ((- v) / T) = a + 1.
Proof.
  intros HT Hv.
  assert (E : (- v) / T = - (a + 1)).
  { symmetry. apply (Z.div_unique_pos (- v) T (- (a + 1)) ((a + 1) * T - v)); lia. }
  lia.
Qed.

Lemma ceil_exact a T : 0 < T -> - ((- (a * T)) / T) = a.
Proof.
  intros HT. replace (- (a * T)) with ((- a) * T) by lia.
  rewrite Z.div_mul by lia. lia.
Qed.

(** Line 280 computes the exact number of pages for every count below 2^52. *)
Theorem totalPages_exact n :
  0 <= n < 2 ^ 52 -> totalPages n 12 = ceil_div n 12.
Proof.
  intros Hn. unfold totalPages, ceil_div.
  destruct (Z.eq_dec n 0) as [->|Hne]; [reflexivity|].
  assert (Hpos : 0 < n) by lia.
  set (d := Zdigits2 n).
  assert (Hd : 1 <= d <= 52).
  { unfold d. rewrite Zdigits2_log2 by assumption.
    pose proof (Z.log2_nonneg n).
    assert (Z.log2 n < 52) by (apply Z.log2_lt_pow2; lia). lia. }
  destruct (of_int_normal n d Hpos eq_refl) as (mx & -> & Hmx & Bmx); [lia|].
  rewrite div_12 by lia.
  set (W := 2 ^ (53 - d)) in *.
  assert (HW : 2 <= W).
  { unfold W. change 2 with (2 ^ 1) at 1. apply Z.pow_le_mono_r; lia. }
  assert (E53 : 2 ^ 53 = 4 * 2251799813685248) by reflexivity.
  assert (Emy : 6755399441055744 = 3 * 2251799813685248) by reflexivity.
  assert (Q : (Zpos mx * 2 ^ 53) / 6755399441055744 = (4 * n * W) / 3).
  { rewrite Hmx, E53, Emy.
    replace (n * W * (4 * 2251799813685248)) with ((4 * n * W) * 2251799813685248) by lia.
    apply Z.div_mul_cancel_r; lia. }
  assert (R : (Zpos mx * 2 ^ 53) mod 6755399441055744
              = ((4 * n * W) mod 3) * 2251799813685248).
  { rewrite Hmx, E53, Emy.
    replace (n * W * (4 * 2251799813685248)) with ((4 * n * W) * 2251799813685248) by lia.
    apply Z.mul_mod_distr_r; lia. }
  rewrite Q, R.
  assert (E52 : 2 ^ 52 = 4503599627370496) by reflexivity.
  assert (E53' : 2 ^ 53 = 9007199254740992) by reflexivity.
  assert (E54 : 2 ^ 54 = 18014398509481984) by reflexivity.
  assert (Bq : 2 ^ 52 <= (4 * n * W) / 3 < 2 ^ 54).
  { rewrite Hmx in Bmx. rewrite E52, E53' in Bmx. rewrite E52, E54.
    replace (4 * n * W) with (4 * (n * W)) by ring.
    generalize dependent (n * W). intros y _ By. split.
    - apply Z.div_le_lower_bound; lia.
    - apply Z.div_lt_upper_bound; lia. }
  destruct (round_aux_bracket ((4 * n * W) / 3) (d - 53 - 4)
              (new_location 6755399441055744 (((4 * n * W) mod 3) * 2251799813685248)) Bq)
    as (m' & e' & -> & Be & V & X); [lia|].
  unfold F64.ceil_int.
  replace (0 <=? e') with false by (symmetry; apply Z.leb_gt; lia).
  set (c := 2 ^ (e' - (d - 53 - 4))) in *.
  assert (Hc : 0 < c) by (apply Z.pow_pos_nonneg; lia).
  assert (HT : 2 ^ (- e') * c = 16 * W).
  { unfold c, W. rewrite <- Z.pow_add_r by lia.
    replace 16 with (2 ^ 4) by reflexivity. rewrite <- Z.pow_add_r by lia.
    f_equal. lia. }
  assert (P : (- Z.pos m') / 2 ^ (- e') = (- (Z.pos m' * c)) / (16 * W)).
  { rewrite <- HT. replace (- (Z.pos m' * c)) with ((- Z.pos m') * c) by lia.
    symmetry. apply Z.div_mul_cancel_r; [|lia].
    assert (0 < 2 ^ (- e')) by (apply Z.pow_pos_nonneg; lia). lia. }
  rewrite P. set (v := Z.pos m' * c) in *.
  pose proof (Z.div_mod n 12 ltac:(lia)) as Dn.
  pose proof (Z.mod_pos_bound n 12 ltac:(lia)) as Bn.
  set (a := n / 12) in *. set (rr := n mod 12) in *.
  destruct (Z.eq_dec rr 0) as [Hr|Hr].
  - assert (En : n = 12 * a) by lia.
    assert (Eq : 4 * n * W = (16 * a * W) * 3) by (rewrite En; ring).
    rewrite Eq, Z.div_mul, Z.mod_mul in X by lia.
    rewrite Eq, Z.div_mul in V by lia.
    assert (Ev : v = 16 * a * W).
    { apply X; [reflexivity|].
      replace (16 * a * W) with (2 * (8 * a * W)) by ring. rewrite Z.even_mul. reflexivity. }
    rewrite Ev, En.
    replace (16 * a * W) with (a * (16 * W)) by ring.
    rewrite ceil_exact by lia.
    replace (- (12 * a)) with ((- a) * 12) by ring. rewrite Z.div_mul by lia. lia.
  - assert (Ea : - ((- n) / 12) = a + 1).
    { apply (ceil_bracket a n 12); lia. }
    rewrite Ea. apply ceil_bracket; [lia|].
    assert (Eq : 4 * n * W = (16 * a * W) * 3 + 4 * rr * W) by (rewrite Dn; ring).
    rewrite Eq, Z.div_add_l in V by lia.
    assert (Hlo : 2 <= (4 * rr * W) / 3).
    { apply Z.div_le_lower_bound; nia. }
    assert (Hhi : (4 * rr * W) / 3 <= 16 * W - 3).
    { assert ((4 * rr * W) / 3 < 16 * W - 2); [|lia].
      apply Z.div_lt_upper_bound; nia. }
    replace (a * (16 * W)) with (16 * a * W) by ring.
    replace ((a + 1) * (16 * W)) with (16 * a * W + 16 * W) by ring.
    lia.
Qed.

(** ** Where the predicates of a request come from *)

Lemma blocks_emit (P : string -> Prop) l :
  Forall (fun f => forall b, exists cs,
                     conditions (f b) = conditions b ++ cs /\ Forall P cs) l ->
  forall b, exists cs,
    conditions (run_blocks l b) = conditions b ++ cs /\ Forall P cs.
Proof.
  induction 1 as [|f l Hf _ IH]; intros b.
  - exists []. split; [now rewrite app_nil_r | constructor].
  - cbn [run_blocks fold_left]. destruct (Hf b) as (cs1 & E1 & F1).
    destruct (IH (f b)) as (cs2 & E2 & F2). exists (cs1 ++ cs2). split.
    + unfold run_blocks in E2. now rewrite E2, E1, app_assoc.
    + now apply Forall_app.
Qed.

Ltac emits_nothing :=
  exists []; split; [now rewrite app_nil_r | constructor].

Ltac emits_one c :=
  eexists [_]; cbn [conditions]; split;
  [reflexivity | constructor; [apply c; assumption | constructor]].

Lemma list_block_emits p format conv field :
  (forall k n, nonempty field = true -> emitted p (in_list_predicate format k n)) ->
  forall b, exists cs,
    conditions (list_block format conv field b) = conditions b ++ cs
    /\ Forall (emitted p) cs.
Proof.
  intros c b. destruct (nonempty field) eqn:G.
  - rewrite list_block_spec by assumption.
    eexists [_]; cbn [conditions]; split; [reflexivity|].
    constructor; [|constructor]. now apply c.
  - unfold list_block. rewrite G. emits_nothing.
Qed.

Lemma tail_list_emits p :
  Forall (fun f => forall b, exists cs,
                     conditions (f b) = conditions b ++ cs /\ Forall (emitted p) cs)
         (tail_list p).
Proof.
  unfold tail_list.
  repeat first [ apply Forall_cons | apply Forall_nil ].
  - intros b. unfold name_block. destruct (nonempty (Name p)) eqn:G;
      [emits_one (em_name p) | emits_nothing].
  - intros b. unfold area_block. destruct (nonempty (Area p)) eqn:G;
      [emits_one (em_area p) | emits_nothing].
  - intros b. unfold cuisine_block, single. destruct (nonempty (Cuisine p)) eqn:G;
      [emits_one (em_cuisine p) | emits_nothing].
  - apply list_block_emits. intros k n. apply em_cuisines.
  - apply list_block_emits. intros k n. apply em_cuisineIds.
  - intros b. unfold mealType_block, single. destruct (nonempty (MealType p)) eqn:G;
      [emits_one (em_mealType p) | emits_nothing].
  - apply list_block_emits. intros k n. apply em_mealTypes.
  - apply list_block_emits. intros k n. apply em_mealTypeIds.
  - intros b. unfold minCost_block, single. destruct (0 <? MinCost p) eqn:G;
      [emits_one (em_minCost p) | emits_nothing].
  - intros b. unfold maxCost_block, single. destruct (0 <? MaxCost p) eqn:G;
      [emits_one (em_maxCost p) | emits_nothing].
  - intros b. unfold rating_block, single.
    destruct (F64.ltb F64.zero (Rating p)) eqn:G;
      [emits_one (em_rating p) | emits_nothing].
  - intros b. unfold discount_block, single.
    destruct (F64.ltb F64.zero (Discount p)) eqn:G;
      [emits_one (em_discount p) | emits_nothing].
  - intros b. unfold free_block, fixed. destruct (Free p) eqn:G.
    + eexists [_]; cbn [conditions]; split; [reflexivity|].
      constructor; [now apply em_free | constructor].
    + emits_nothing.
  - intros b. unfold duplicate_block, fixed.
    eexists [_]; cbn [conditions]; split; [reflexivity|].
    constructor; [apply em_duplicate | constructor].
Qed.

(** Every predicate of a request is one of the geographic block or one a
    later block emitted under its guard. *)
Lemma search_conditions_origin p c :
  In c (search_conditions p) -> In c (geo_conditions p) \/ emitted p c.
Proof.
  unfold search_conditions. rewrite build_prefix.
  destruct (blocks_emit _ _ (tail_list_emits p) (prefix_state p)) as (cs & E & F).
  rewrite E. destruct (prefix_spec p) as (_ & C & _). fold (prefix_state p) in C.
  rewrite C, in_app_iff. intros [H | H]; [now left | right].
  rewrite Forall_forall in F. now apply F.
Qed.

Lemma string_app_nil_r s : s +++ "" = s.
Proof. induction s as [|c s IH]; [reflexivity|]. cbn [String.append]. now rewrite IH. Qed.

(** A row that decodes has the column count of its mode. *)
Lemma ScanRestaurant_length rt row hasExtraFields r :
  ScanRestaurant rt row hasExtraFields = Some r ->
  List.length row = if hasExtraFields then 16%nat else 15%nat.
Proof.
  unfold ScanRestaurant.
  do 13 (destruct row as [|? row]; [discriminate|]).
  repeat match goal with
         | |- context [match ?x with Some _ => _ | None => _ end] =>
             destruct x; [|discriminate]
         end.
  destruct hasExtraFields.
  - destruct row as [|? [|? [|? [|? ?]]]]; try discriminate. reflexivity.
  - destruct row as [|? [|? [|? ?]]]; try discriminate. reflexivity.
Qed.

(** The distance expression occurs in the text of the fetch statement. *)
Lemma resultQuery_distance sf d w :
  exists pre post, Sprintf resultFormat [OStr sf; OStr d; OStr w] = pre +++ d +++ post.
Proof.
  unfold resultFormat. cbn [Sprintf].
  match goal with
  | |- exists pre post, ?lhs = _ =>
      match lhs with
      | context C [d +++ ?post0] =>
          let pre0 := context C [EmptyString] in
          exists pre0, post0
      end
  end.
  repeat (progress (cbn [String.append]; rewrite ?string_app_assoc)).
  reflexivity.
Qed.

Lemma distance_in_fetch sf d w :
  contains d (Sprintf resultFormat [OStr sf; OStr d; OStr w]) = true.
Proof.
  destruct (resultQuery_distance sf d w) as (pre & post & ->).
  apply contains_app_r, contains_self.
Qed.

(* ================================================================== *)
(** * Text that does not occur in a statement *)
(* ================================================================== *)
Lemma drop_occurs n : forall s a r, drop n s = String a r -> occurs a s = true.
Proof.
  induction n as [|n IH]; intros s a r H.
  - cbn in H. subst s. cbn [occurs]. now rewrite Ascii.eqb_refl.
  - destruct s as [|c s]; [discriminate|]. cbn [drop] in H.
    cbn [occurs]. rewrite (IH _ _ _ H). apply orb_true_r.
Qed.

Lemma drop_S n : forall s a r, drop n s = String a r -> drop (S n) s = r.
Proof.
  induction n as [|n IH]; intros s a r H.
  - cbn in H. now subst s.
  - destruct s as [|c s]; [discriminate|]. cbn [drop] in H. cbn [drop].
    now apply (IH s a r).
Qed.

Lemma prefix_head a r c s :
  String.prefix (String a r) (String c s)
  = if Ascii.eqb c a then String.prefix r s else false.
Proof.
  cbn [String.prefix]. destruct (ascii_dec a c) as [->|N].
  - now rewrite Ascii.eqb_refl.
  - destruct (Ascii.eqb_spec c a); [congruence | reflexivity].
Qed.

(** A search that does not find the marker means the marker is not there:
    neither what is left of the marker continues at the head of [s], nor does
    the marker occur in [s]. *)
Lemma track_sound m :
  distinct m = true ->
  forall s n e,
    drop n m <> "" ->
    track m n s = Some e ->
    String.prefix (drop n m) s = false /\ contains m s = false.
Proof.
  intros D. induction s as [|c s IH]; intros n e R H.
  - destruct (drop n m) as [|a r] eqn:E; [contradiction|].
    destruct m as [|a0 m']; [destruct n; discriminate|]. now split.
  - cbn [track] in H. destruct (step m n c) as [n'|] eqn:S; [|discriminate].
    unfold step in S.
    destruct (drop n m) as [|a r] eqn:E; [contradiction|].
    destruct m as [|a0 m']; [destruct n; discriminate|].
    cbn [contains]. rewrite !prefix_head.
    destruct (Ascii.eqb_spec c a) as [->|N].
    + destruct r as [|b r']; [discriminate|]. injection S as <-.
      assert (E' : drop (S n) (String a0 m') = String b r') by now apply (drop_S n _ a).
      destruct (IH (S n) e) as [P C]; [rewrite E'; discriminate | assumption|].
      rewrite E' in P. rewrite P, C. split; [reflexivity|].
      destruct n as [|n].
      * cbn in E. injection E as -> ->. rewrite Ascii.eqb_refl. now rewrite P.
      * cbn [drop] in E. apply drop_occurs in E.
        cbn [distinct] in D. apply andb_prop in D. destruct D as [D _].
        destruct (Ascii.eqb_spec a a0) as [->|_]; [|reflexivity].
        rewrite E in D. discriminate.
    + split; [reflexivity|].
      destruct m' as [|b m''].
      * destruct (Ascii.eqb_spec c a0); [discriminate|]. injection S as <-.
        destruct (IH O e) as [_ C]; [discriminate | assumption|]. exact C.
      * destruct (Ascii.eqb_spec c a0) as [->|_]; injection S as <-.
        -- destruct (IH 1%nat e) as [P C]; [discriminate | assumption|].
           cbn [drop] in P. now rewrite P, C.
        -- destruct (IH O e) as [_ C]; [discriminate | assumption|]. exact C.
Qed.

Lemma track_absent m s e :
  distinct m = true -> m <> "" -> track m O s = Some e -> contains m s = false.
Proof. intros D N H. now apply (track_sound m D s O e). Qed.

Lemma track_app m a : forall n b,
  track m n (a +++ b)
  = match track m n a with
    | Some e => track m e b
    | None => None
    end.
Proof.
  induction a as [|c a IH]; intros n b; [reflexivity|].
  cbn [String.append track]. destruct (step m n c); [apply IH | reflexivity].
Qed.

(** A string without the first byte of the marker leaves the search where
    it starts. *)
Lemma track_plain a0 m' s :
  every_byte (fun c => negb (Ascii.eqb c a0)) s = true ->
  track (String a0 m') O s = Some O.
Proof.
  induction s as [|c s IH]; [reflexivity|].
  cbn [every_byte]. intros H. apply andb_prop in H. destruct H as [H1 H2].
  cbn [track]. unfold step. cbn [drop].
  destruct (Ascii.eqb c a0); [discriminate|].
  destruct m'; now apply IH.
Qed.

Lemma every_byte_app ok a b :
  every_byte ok (a +++ b) = every_byte ok a && every_byte ok b.
Proof.
  induction a as [|c a IH]; [reflexivity|].
  cbn [String.append every_byte]. now rewrite IH, andb_assoc.
Qed.

Lemma every_byte_impl (ok ok' : ascii -> bool) s :
  (forall c, ok c = true -> ok' c = true) ->
  every_byte ok s = true -> every_byte ok' s = true.
Proof.
  intros I. induction s as [|c s IH]; [reflexivity|].
  cbn [every_byte]. intros H. apply andb_prop in H. destruct H as [H1 H2].
  now rewrite (I _ H1), IH.
Qed.

Lemma reference_uint d : every_byte reference_byte (NilEmpty.string_of_uint d) = true.
Proof. induction d; cbn [NilEmpty.string_of_uint every_byte]; auto. Qed.

Lemma reference_Itoa z : every_byte reference_byte (Itoa z) = true.
Proof.
  unfold Itoa. destruct (Z.to_int z); cbn [NilEmpty.string_of_int every_byte];
    [|change (reference_byte "-") with true; cbn [andb]]; apply reference_uint.
Qed.

Lemma reference_placeholders zs :
  every_byte reference_byte (Strings.Join (map placeholder zs) ",") = true.
Proof.
  induction zs as [|z zs IH]; [reflexivity|].
  cbn [map Strings.Join]. destruct (map placeholder zs) as [|e es] eqn:E.
  - unfold placeholder. cbn [Sprintf]. rewrite string_app_nil_r.
    cbn [every_byte]. apply reference_Itoa.
  - unfold placeholder at 1. cbn [Sprintf]. cbn [every_byte String.append].
    rewrite !every_byte_app, reference_Itoa. cbn [andb every_byte String.append].
    exact IH.
Qed.

Lemma lacks_absent m s :
  distinct m = true -> m <> "" -> lacks m s -> contains m s = false.
Proof. intros D N [e H]. now apply (track_absent m s e). Qed.

Lemma plain_reference a0 m' s rest :
  reference_byte a0 = false ->
  every_byte reference_byte s = true ->
  track (String a0 m') O (s +++ rest) = track (String a0 m') O rest.
Proof.
  intros N H. rewrite track_app, track_plain; [reflexivity|].
  apply (every_byte_impl reference_byte); [|exact H].
  intros c R. destruct (Ascii.eqb_spec c a0) as [->|]; [congruence | reflexivity].
Qed.

Lemma track_Itoa_radius z rest :
  track "), $" O (Itoa z +++ rest) = track "), $" O rest.
Proof. apply plain_reference; [reflexivity | apply reference_Itoa]. Qed.

Lemma track_Itoa_city z rest :
  track "r.city I" O (Itoa z +++ rest) = track "r.city I" O rest.
Proof. apply plain_reference; [reflexivity | apply reference_Itoa]. Qed.

Lemma track_list_radius zs rest :
  track "), $" O (Strings.Join (map placeholder zs) "," +++ rest)
  = track "), $" O rest.
Proof. apply plain_reference; [reflexivity | apply reference_placeholders]. Qed.

Lemma track_list_city zs rest :
  track "r.city I" O (Strings.Join (map placeholder zs) "," +++ rest)
  = track "r.city I" O rest.
Proof. apply plain_reference; [reflexivity | apply reference_placeholders]. Qed.

Ltac reads :=
  cbn [track step drop Ascii.eqb Bool.eqb andb String.append].

Ltac tracks :=
  unfold lacks; cbn [Sprintf]; reads;
  repeat (first [ rewrite track_Itoa_radius | rewrite track_Itoa_city
                | rewrite track_list_radius | rewrite track_list_city ];
          reads);
  eexists; reflexivity.

Lemma emitted_lacks_radius p c : emitted p c -> lacks "), $" c.
Proof.
  intros H. unfold lacks.
  destruct H; unfold name_predicate, area_predicate, cuisine_predicate,
    mealType_predicate, minCost_predicate, maxCost_predicate, rating_predicate,
    discount_predicate, in_list_predicate, cuisines_format, cuisineIds_format,
    mealTypes_format, mealTypeIds_format; tracks.
Qed.

Lemma emitted_lacks_city p c : emitted p c -> lacks "r.city I" c.
Proof.
  intros H. unfold lacks.
  destruct H; unfold name_predicate, area_predicate, cuisine_predicate,
    mealType_predicate, minCost_predicate, maxCost_predicate, rating_predicate,
    discount_predicate, in_list_predicate, cuisines_format, cuisineIds_format,
    mealTypes_format, mealTypeIds_format; tracks.
Qed.

Lemma lacks_Join m sep conds :
  (forall n, track m n sep = Some O) ->
  Forall (lacks m) conds -> lacks m (Strings.Join conds sep).
Proof.
  intros R F. induction F as [|c cs [e H] F IH]; [now exists O|].
  cbn [Strings.Join]. destruct cs as [|c' cs]; [now exists e|].
  destruct IH as [e' H']. exists e'.
  now rewrite track_app, H, track_app, R.
Qed.

Lemma and_resets_radius n : track "), $" n " AND " = Some O.
Proof. do 5 (destruct n as [|n]; [reflexivity|]). reflexivity. Qed.

Lemma and_resets_city n : track "r.city I" n " AND " = Some O.
Proof. do 9 (destruct n as [|n]; [reflexivity|]). reflexivity. Qed.

(** The predicates of a request with a city lack the end of a radius
    predicate; those of a request without one lack the start of a city
    predicate. *)
Lemma conditions_lack_radius p :
  nonempty (City p) = true -> Forall (lacks "), $") (search_conditions p).
Proof.
  intros C. apply Forall_forall. intros c H.
  apply search_conditions_origin in H. destruct H as [H | H].
  - apply geo_conditions_In in H.
    destruct H as [(_ & _ & ->) | [(_ & ->) | (N & _)]]; [| |congruence].
    + unfold cutoff_predicate. tracks.
    + unfold city_predicate. tracks.
  - now apply (emitted_lacks_radius p).
Qed.

Lemma conditions_lack_city p :
  nonempty (City p) = false -> Forall (lacks "r.city I") (search_conditions p).
Proof.
  intros C. apply Forall_forall. intros c H.
  apply search_conditions_origin in H. destruct H as [H | H].
  - apply geo_conditions_In in H.
    destruct H as [(_ & _ & ->) | [(N & _) | (_ & _ & ->)]]; [|congruence|].
    + unfold cutoff_predicate. tracks.
    + unfold radius_predicate. tracks.
  - now apply (emitted_lacks_city p).
Qed.

Lemma countQuery_eq p :
  countQuery p = "SELECT COUNT(*) FROM restaurants r " +++ whereStr (search_conditions p).
Proof.
  unfold countQuery. rewrite BuildSearchQueries_eq. cbn [fst].
  apply (render_where (distanceExpr p) (search_conditions p)).
Qed.

Lemma resultQuery_eq p :
  resultQuery p
  = Sprintf resultFormat
            [OStr selectFields; OStr (distance p); OStr (whereStr (search_conditions p))].
Proof.
  unfold resultQuery. rewrite BuildSearchQueries_eq. cbn [fst snd].
  destruct (render_where (distanceExpr p) (search_conditions p)) as [_ ->].
  unfold distanceExpr. rewrite build_eq. cbn [fst].
  now destruct (prefix_spec p) as (-> & _).
Qed.

Ltac template_lacks J :=
  unfold lacks; rewrite ?countQuery_eq, ?resultQuery_eq;
  unfold resultFormat, selectFields, whereStr, distance, distance_expression;
  match goal with
  | |- context [HasLocation ?p] => destruct (HasLocation p)
  | _ => idtac
  end;
  cbn [Sprintf]; reads;
  repeat (first [ rewrite track_Itoa_radius | rewrite track_Itoa_city ]; reads);
  rewrite ?track_app, J; try reads; eexists; reflexivity.

Lemma templates_lack_radius p :
  nonempty (City p) = true ->
  contains "), $" (countQuery p) = false /\ contains "), $" (resultQuery p) = false.
Proof.
  intros C.
  destruct (lacks_Join "), $" " AND " _ and_resets_radius (conditions_lack_radius p C))
    as [e J].
  assert (T : forall n, track "), $" n (String "010" (String "009" "")) = Some O).
  { intros n. do 5 (destruct n as [|n]; [reflexivity|]). reflexivity. }
  split; apply lacks_absent; try reflexivity; try discriminate.
  - template_lacks J.
  - unfold lacks; rewrite resultQuery_eq;
    unfold resultFormat, selectFields, whereStr, distance, distance_expression.
    destruct (HasLocation p); cbn [Sprintf]; reads;
      repeat (first [rewrite track_Itoa_radius | rewrite string_app_assoc]; reads);
      rewrite track_app, J, T; now eexists.
Qed.

Lemma templates_lack_city p :
  nonempty (City p) = false ->
  contains "r.city I" (countQuery p) = false
  /\ contains "r.city I" (resultQuery p) = false.
Proof.
  intros C.
  destruct (lacks_Join "r.city I" " AND " _ and_resets_city (conditions_lack_city p C))
    as [e J].
  assert (T : forall n, track "r.city I" n (String "010" (String "009" "")) = Some O).
  { intros n. do 9 (destruct n as [|n]; [reflexivity|]). reflexivity. }
  split; apply lacks_absent; try reflexivity; try discriminate.
  - template_lacks J.
  - unfold lacks; rewrite resultQuery_eq;
    unfold resultFormat, selectFields, whereStr, distance, distance_expression.
    destruct (HasLocation p); cbn [Sprintf]; reads;
      repeat (first [rewrite track_Itoa_city | rewrite string_app_assoc]; reads);
      rewrite track_app, J, T; now eexists.
Qed.

(** A text occurs in another exactly when the other is some text, the
    first, and some more text. *)
Lemma prefix_split n : forall s, String.prefix n s = true -> exists b, s = n +++ b.
Proof.
  induction n as [|a n IH]; intros s H; [now exists s|].
  destruct s as [|c s]; [discriminate|]. rewrite prefix_head in H.
  destruct (Ascii.eqb_spec c a) as [->|]; [|discriminate].
  destruct (IH s H) as [b ->]. now exists b.
Qed.

Lemma contains_split n : forall s,
  contains n s = true -> exists a b, s = a +++ n +++ b.
Proof.
  induction s as [|c s IH]; cbn [contains]; intros H.
  - rewrite orb_false_r in H. destruct (prefix_split n "" H) as [b E].
    now exists "", b.
  - apply orb_prop in H. destruct H as [H | H].
    + destruct (prefix_split n _ H) as [b E]. now exists "", b.
    + destruct (IH H) as (a & b & ->). now exists (String c a), b.
Qed.

(** What has a part that does not occur does not occur. *)
Lemma contains_part m n s :
  contains m n = true -> contains m s = false -> contains n s = false.
Proof.
  intros P A. destruct (contains n s) eqn:E; [|reflexivity].
  destruct (contains_split n s E) as (a & b & ->).
  rewrite <- A. symmetry. apply contains_app_r, contains_app_l, P.
Qed.

Lemma radius_has_marker i j k : contains "), $" (radius_predicate i j k) = true.
Proof.
  unfold radius_predicate. cbn [Sprintf].
  match goal with
  | |- contains _ ?s = true =>
      match s with
      | context C [Itoa j +++ ?r] =>
          let pre := context C [EmptyString] in
          replace s with (pre +++ Itoa j +++ r)
            by (cbn [String.append]; rewrite ?string_app_assoc; reflexivity)
      end
  end.
  apply contains_app_r, contains_app_r.
  match goal with
  | |- contains _ ?s = true =>
      match s with
      | context C [Itoa k +++ ?r] =>
          let pre := context C [EmptyString] in
          replace s with (pre +++ Itoa k +++ r)
            by (cbn [String.append]; rewrite ?string_app_assoc; reflexivity)
      end
  end.
  apply contains_app_l. reflexivity.
Qed.

Lemma city_has_marker k : contains "r.city I" (city_predicate k) = true.
Proof.
  unfold city_predicate. cbn [Sprintf].
  change (contains "r.city I" ("r.city ILIKE $" +++ Itoa k +++ "") = true).
  apply contains_app_l. reflexivity.
Qed.

(* ================================================================== *)
(** * The properties of the specification *)
(* ================================================================== *)

(** ** Placeholders and arguments *)

(** C1 (evaluation at the failing input): for a request with a geographic
    point, a city and the sort key "rating_desc", the argument vector has
    three elements and the fetch template refers to [$1], [$2] and [$3], but
    the count template refers to [$3] only: the two arguments of the distance
    expression are passed to a statement that does not mention them. *)
Theorem C1_count_template_skips_point_parameters :
  let p := request "Pune" "" "" "rating_desc" true in
  countQuery p
    = "SELECT COUNT(*) FROM restaurants r WHERE r.city ILIKE $3 AND r.is_duplicate = false"
  /\ placeholders (countQuery p) = [3]
  /\ placeholders (resultQuery p) = [1; 2; 3]
  /\ arguments p = [VFloat (Lon p); VFloat (Lat p); VString "Pune"].
Proof. vm_compute. repeat split. Qed.

(** C2: placeholder numbers are assigned sequentially.  Reading the fetch
    template from left to right, every reference is to a parameter already
    introduced or to the next fresh one, and there are as many parameters as
    arguments; the placeholders of the template are those of the distance
    expression followed by those of the predicates; two different fragments
    share a parameter only if both are geographic fragments (distance
    expression, cutoff, radius) and the parameter is [$1] or [$2]; the name
    predicate mentions its value twice through one parameter bound to one
    argument. *)
Theorem C2_placeholders_sequential : forall p,
  intro_order 1 (placeholders (resultQuery p))
    = Some (1 + Z.of_nat (List.length (arguments p)))
  /\ placeholders (resultQuery p)
     = List.concat (map placeholders (distanceExpr p :: search_conditions p))
  /\ ForallOrdPairs (shares_geo_only p) (distanceExpr p :: search_conditions p)
  /\ (Name p <> "" ->
      exists k,
        In (name_predicate k) (search_conditions p) /\
        placeholders (name_predicate k) = [k; k] /\
        bound (arguments p) k = Some (VString ("%" +++ Name p +++ "%"))).
Proof.
  intros p. split; [apply fetch_order|]. split; [apply placeholders_fetch|].
  split; [apply fragment_pairs|].
  intros H. apply nonempty_true in H.
  destruct (name_binding p H) as [HIn HB].
  eexists. split; [exact HIn|]. split; [|exact HB].
  apply name_predicate_phs. lia.
Qed.

Lemma C2_placeholders_sequential_witness :
  let p := request "Pune" "pizza" "" "" true in
  intro_order 1 (placeholders (resultQuery p)) = Some 5
  /\ exists k,
       In (name_predicate k) (search_conditions p) /\
       placeholders (name_predicate k) = [k; k] /\
       bound (arguments p) k = Some (VString "%pizza%").
Proof.
  intros p. split.
  - exact (proj1 (C2_placeholders_sequential p)).
  - apply (C2_placeholders_sequential p). discriminate.
Defined.

(** C3: with a non-empty city the city match (ILIKE) is among the
    predicates and in the text of both statements, bound to the city, and no
    radius predicate is among the predicates or occurs in either statement;
    with a geographic point and an empty city the radius predicate over the
    point is among the predicates and in the text of both statements, bound
    to the radius of the request, and no city match occurs in either
    statement; no statement has both. *)
Theorem C3_city_excludes_radius : forall p,
  (City p <> "" ->
     (exists k, In (city_predicate k) (search_conditions p) /\
                in_both p (city_predicate k) /\
                bound (arguments p) k = Some (VString (City p))) /\
     (forall i j k, ~ In (radius_predicate i j k) (search_conditions p) /\
                    in_neither p (radius_predicate i j k)))
  /\ (HasLocation p = true -> City p = "" ->
        In (radius_predicate 1 2 3) (search_conditions p) /\
        in_both p (radius_predicate 1 2 3) /\
        bound (arguments p) 1 = Some (VFloat (Lon p)) /\
        bound (arguments p) 2 = Some (VFloat (Lat p)) /\
        bound (arguments p) 3 = Some (VFloat (Radius p)) /\
        (forall k, in_neither p (city_predicate k)))
  /\ ~ ((exists k, In (city_predicate k) (search_conditions p)) /\
        (exists i j k, In (radius_predicate i j k) (search_conditions p)))
  /\ (forall k i j r,
        ~ (contains (city_predicate k) (countQuery p) = true /\
           contains (radius_predicate i j r) (countQuery p) = true))
  /\ (forall k i j r,
        ~ (contains (city_predicate k) (resultQuery p) = true /\
           contains (radius_predicate i j r) (resultQuery p) = true)).
Proof.
  intros p.
  assert (R : nonempty (City p) = true -> forall i j k, in_neither p (radius_predicate i j k)).
  { intros H i j k. destruct (templates_lack_radius p H) as [A B].
    split; eapply contains_part; eauto using radius_has_marker. }
  assert (Y : nonempty (City p) = false -> forall k, in_neither p (city_predicate k)).
  { intros H k. destruct (templates_lack_city p H) as [A B].
    split; eapply contains_part; eauto using city_has_marker. }
  split; [|split; [|split; [|split]]].
  - intros H. apply nonempty_true in H. split.
    + exists (if HasLocation p then 3 else 1).
      assert (I : In (city_predicate (if HasLocation p then 3 else 1))
                     (search_conditions p)).
      { apply geo_conditions_present, geo_conditions_In. right. left. auto. }
      split; [exact I|]. split; [now apply condition_in_templates|].
      destruct (HasLocation p) eqn:L;
        [apply (bound_nth _ _ 2%nat) | apply (bound_nth _ _ 0%nat)];
        try reflexivity;
        apply geo_args_present; unfold geo_args; rewrite L, H; reflexivity.
    + intros i j k. split; [|now apply R].
      intros HIn. apply radius_only_if in HIn. destruct HIn. congruence.
  - intros L C. apply nonempty_false in C.
    assert (I : In (radius_predicate 1 2 3) (search_conditions p)).
    { apply geo_conditions_present, geo_conditions_In. right. right. auto. }
    split; [exact I|]. split; [now apply condition_in_templates|].
    split; [|split; [|split; [|now apply Y]]];
      [apply (bound_nth _ _ 0%nat) | apply (bound_nth _ _ 1%nat)
       | apply (bound_nth _ _ 2%nat)];
      try reflexivity;
      apply geo_args_present; unfold geo_args; rewrite L, C; reflexivity.
  - intros [[k HC] (i & j & r & HR)].
    apply city_only_if in HC. apply radius_only_if in HR. destruct HR. congruence.
  - intros k i j r [HC HR]. destruct (nonempty (City p)) eqn:C.
    + destruct (R eq_refl i j r) as [A _]. congruence.
    + destruct (Y eq_refl k) as [A _]. congruence.
  - intros k i j r [HC HR]. destruct (nonempty (City p)) eqn:C.
    + destruct (R eq_refl i j r) as [_ A]. congruence.
    + destruct (Y eq_refl k) as [_ A]. congruence.
Qed.

Lemma C3_city_excludes_radius_witness :
  (exists k, In (city_predicate k) (search_conditions (request "Pune" "" "" "" true)) /\
             in_both (request "Pune" "" "" "" true) (city_predicate k) /\
             bound (arguments (request "Pune" "" "" "" true)) k = Some (VString "Pune"))
  /\ in_neither (request "Pune" "" "" "" true) (radius_predicate 1 2 3)
  /\ in_both (request "" "" "" "" true) (radius_predicate 1 2 3)
  /\ bound (arguments (request "" "" "" "" true)) 3 = Some (VFloat (F64.of_int 50000))
  /\ in_neither (request "" "" "" "" true) (city_predicate 3).
Proof.
  destruct (C3_city_excludes_radius (request "Pune" "" "" "" true)) as (A & _).
  destruct (C3_city_excludes_radius (request "" "" "" "" true)) as (_ & B & _).
  destruct A as [A1 A2]; [discriminate|].
  destruct B as (_ & B1 & _ & _ & B2 & B3); [reflexivity | reflexivity |].
  split; [exact A1|]. split; [exact (proj2 (A2 1 2 3))|].
  split; [exact B1|]. split; [exact B2 | exact (B3 3)].
Defined.

(** ** The proximity cutoff *)

Lemma cutoff_sort_iff p : cutoff_sort p = true <-> Sort p = "" \/ Sort p = "discount".
Proof.
  unfold cutoff_sort. rewrite orb_true_iff, !String.eqb_eq. reflexivity.
Qed.

(** C4 (as stated, refuted): the sort key "popular" is neither "rating_desc"
    nor "cost_asc" and is ordered by discount descending, yet with a
    geographic point no cutoff predicate is generated: the number 100000
    occurs in neither template. *)
Lemma C4_counterexample_unknown_sort :
  let p := request "" "" "" "popular" true in
  HasLocation p = true
  /\ Sort p <> "rating_desc" /\ Sort p <> "cost_asc"
  /\ orderBy (Sort p) = "ORDER BY effective_discount DESC, id ASC"
  /\ ~ In (cutoff_predicate 1 2) (search_conditions p)
  /\ contains "100000" (countQuery p) = false
  /\ contains "100000" (resultQuery p) = false.
Proof.
  cbv zeta. split; [reflexivity|]. split; [discriminate|]. split; [discriminate|].
  split; [reflexivity|]. split.
  - intros H. apply cutoff_only_if in H. destruct H as [_ H]. discriminate.
  - split; vm_compute; reflexivity.
Qed.

(** C4 (amended): with a geographic point, the fixed 100000-meter cutoff
    predicate is among the predicates, and so in the WHERE clause of both
    templates, exactly when the sort key is the empty string or "discount",
    whatever the radius; for any other sort key, including the unknown ones
    that are still ordered by discount, no cutoff predicate is added. *)
Theorem C4_cutoff_for_empty_or_discount_sort : forall p,
  HasLocation p = true ->
  ((Sort p = "" \/ Sort p = "discount") ->
     In (cutoff_predicate 1 2) (search_conditions p) /\
     contains (cutoff_predicate 1 2) (countQuery p) = true /\
     contains (cutoff_predicate 1 2) (resultQuery p) = true /\
     contains "100000" (cutoff_predicate 1 2) = true)
  /\ (Sort p <> "" -> Sort p <> "discount" ->
      forall i j, ~ In (cutoff_predicate i j) (search_conditions p)).
Proof.
  intros p L. split.
  - intros S. apply cutoff_sort_iff in S.
    assert (HIn : In (cutoff_predicate 1 2) (search_conditions p))
      by (apply geo_conditions_present, geo_conditions_In; left; auto).
    split; [exact HIn|].
    destruct (condition_in_templates p _ HIn) as [H1 H2].
    split; [exact H1|]. split; [exact H2|]. vm_compute. reflexivity.
  - intros S1 S2 i j H. apply cutoff_only_if in H. destruct H as [_ H].
    apply cutoff_sort_iff in H. tauto.
Qed.

Lemma C4_cutoff_for_empty_or_discount_sort_witness :
  In (cutoff_predicate 1 2) (search_conditions (request "" "" "" "discount" true))
  /\ forall i j, ~ In (cutoff_predicate i j) (search_conditions (request "" "" "" "popular" true)).
Proof.
  split.
  - apply (C4_cutoff_for_empty_or_discount_sort (request "" "" "" "discount" true));
      [reflexivity | right; reflexivity].
  - apply (C4_cutoff_for_empty_or_discount_sort (request "" "" "" "popular" true));
      [reflexivity | discriminate | discriminate].
Defined.

(** ** The list filters *)

(** C10: for each of the four comma-separated list filters with a non-empty
    value, the number of segments is one more than the number of commas; the
    IN-list predicate occurs in the text of both statements and has one
    placeholder per segment, numbered consecutively; each of these
    parameters is referred to by both statements and bound to its segment
    (trimmed for the name lists, as it is for the id lists); an empty segment
    still has its placeholder, bound to the empty string. *)
Theorem C10_empty_segments_keep_placeholders : forall p,
  list_filter_kept p cuisines_format Strings.TrimSpace (Cuisines p)
  /\ list_filter_kept p cuisineIds_format (fun id => id) (CuisineIds p)
  /\ list_filter_kept p mealTypes_format Strings.TrimSpace (MealTypes p)
  /\ list_filter_kept p mealTypeIds_format (fun id => id) (MealTypeIds p).
Proof.
  intros p. split; [|split; [|split]].
  - apply (list_filter p [name_block p; area_block p; cuisine_block p] _ _ _
             (skipn 4 (tail_list p)) eq_refl); cbn [In]; auto.
  - apply (list_filter p [name_block p; area_block p; cuisine_block p; cuisines_block p]
             _ _ _ (skipn 5 (tail_list p)) eq_refl); cbn [In]; auto.
  - apply (list_filter p (firstn 6 (tail_list p)) _ _ _
             (skipn 7 (tail_list p)) eq_refl); cbn [In]; auto.
  - apply (list_filter p (firstn 7 (tail_list p)) _ _ _
             (skipn 8 (tail_list p)) eq_refl); cbn [In]; auto.
Qed.

Lemma C10_empty_segments_keep_placeholders_witness :
  let p := request "" "" "Italian," "" false in
  Strings.Split (Cuisines p) "," = ["Italian"; ""]
  /\ exists k,
       1 <= k /\
       In (in_list_predicate cuisines_format k 2) (search_conditions p) /\
       in_both p (in_list_predicate cuisines_format k 2) /\
       placeholders (in_list_predicate cuisines_format k 2) = zseq k 2 /\
       referenced p (k + 1) /\
       bound (arguments p) (k + 1) = Some (VString "").
Proof.
  intros p. split; [reflexivity|].
  destruct (proj1 (C10_empty_segments_keep_placeholders p))
    as [_ (k & Hk & HIn & HB & HP & HR & _ & HE)]; [discriminate|].
  exists k. split; [exact Hk|]. split; [exact HIn|]. split; [exact HB|].
  split; [exact HP|]. split; [exact (HR 1%nat (le_n 2))|].
  exact (HE 1%nat eq_refl).
Defined.

(** ** The search handler *)

(** C6: when the count query fails the response has status 200, an empty
    (non-null) result list and zero pages, and the fetch is not run; when the
    count succeeds, the fetch is run and fails, the response is the client
    error 400 with the fixed text "Something went wrong": the same response
    whatever the error was. *)
Theorem C6_count_failure_masked_fetch_failure_surfaced : forall rt db query,
  let p := ParseSearchParams rt query in
  (forall err,
      QueryRow db (countQuery p) (arguments p) = inr err ->
      status (fst (SearchHandler rt db query)) = StatusOK /\
      body (fst (SearchHandler rt db query)) = empty_page 0 /\
      ran_fetch (snd (SearchHandler rt db query)) = false)
  /\ (forall totalCount err,
        QueryRow db (countQuery p) (arguments p) = inl totalCount ->
        (totalPages totalCount (Limit p) <? Page p) && (0 <? totalPages totalCount (Limit p)) = false ->
        Query db (finalQuery p) (arguments p) = inr err ->
        fst (SearchHandler rt db query) = http_Error "Something went wrong" StatusBadRequest /\
        400 <= status (fst (SearchHandler rt db query)) < 500 /\
        body (fst (SearchHandler rt db query)) = Text (String.append "Something went wrong" (String "010"%char ""))).
Proof.
  intros rt db query p. split.
  - intros err H. rewrite (SearchHandler_count_error rt db query err H).
    repeat split.
  - intros totalCount err H H1 H2.
    rewrite (SearchHandler_fetch_error rt db query totalCount err H H1 H2).
    cbn [fst status body http_Error]. unfold StatusBadRequest. repeat split; lia.
Qed.

Lemma C6_count_failure_masked_fetch_failure_surfaced_witness :
  body (fst (SearchHandler sample_runtime (constant_db (inr "timeout") (inl [])) []))
    = empty_page 0
  /\ fst (SearchHandler sample_runtime (constant_db (inl 25) (inr "syntax error at $1")) [])
     = http_Error "Something went wrong" StatusBadRequest.
Proof.
  split.
  - apply (proj1 (C6_count_failure_masked_fetch_failure_surfaced
                    sample_runtime (constant_db (inr "timeout") (inl [])) []) "timeout").
    reflexivity.
  - apply (proj2 (C6_count_failure_masked_fetch_failure_surfaced
                    sample_runtime (constant_db (inl 25) (inr "syntax error at $1")) [])
                 25 "syntax error at $1"); reflexivity.
Defined.

(** What each JSON response of the search handler reports. *)
Lemma SearchHandler_reports rt db query :
  let p := ParseSearchParams rt query in
  let r := fst (SearchHandler rt db query) in
  (forall err,
      QueryRow db (countQuery p) (arguments p) = inr err ->
      reports_list r /\ reported "pages" r = Some (JInt 0) /\
      reported "total_count" r = None)
  /\ (forall totalCount,
        QueryRow db (countQuery p) (arguments p) = inl totalCount ->
        totalPages totalCount (Limit p) < Page p -> 0 < totalPages totalCount (Limit p) ->
        reports_list r /\
        reported "pages" r = Some (JInt (totalPages totalCount (Limit p))) /\
        reported "total_count" r = None)
  /\ (forall totalCount rows,
        QueryRow db (countQuery p) (arguments p) = inl totalCount ->
        (totalPages totalCount (Limit p) <? Page p) && (0 <? totalPages totalCount (Limit p)) = false ->
        Query db (finalQuery p) (arguments p) = inl rows ->
        forallb encodes_restaurant (decoded rt true rows) = true ->
        reports_list r /\
        reported "pages" r = Some (JInt (totalPages totalCount (Limit p))) /\
        reported "total_count" r = Some (JInt totalCount)).
Proof.
  intros p r. unfold r. split; [|split].
  - intros err H. rewrite (SearchHandler_count_error rt db query err H).
    split; [eexists; reflexivity | split; reflexivity].
  - intros n H H1 H2. rewrite (SearchHandler_overflow rt db query n H H1 H2).
    split; [eexists; reflexivity | split; reflexivity].
  - intros n rows H H1 H2 E. rewrite (SearchHandler_results rt db query n rows H H1 H2).
    unfold reports_list, reported. cbn [fst body respond_json encodes forallb snd
                                        encodes_json elements andb].
    rewrite E. cbn [andb].
    split; [eexists; reflexivity | split; reflexivity].
Qed.

(** C7 (evaluation at the failing inputs): the response to a failed count
    query and the response to a page beyond the last one report a non-null
    result list and a page count, but no total count; only the response of a
    completed fetch reports all three. *)
Theorem C7_short_circuit_responses_omit_total_count :
  let failed := fst (SearchHandler sample_runtime (constant_db (inr "timeout") (inl [])) []) in
  let beyond := fst (SearchHandler sample_runtime (constant_db (inl 25) (inl []))
                                   [("page", ["10"])]) in
  let complete := fst (SearchHandler sample_runtime (constant_db (inl 25) (inl []))
                                     [("page", ["3"])]) in
  body failed = Object [("restaurants", JRestaurants (make_slice [])); ("pages", JInt 0)]
  /\ reported "total_count" failed = None
  /\ body beyond = Object [("restaurants", JRestaurants (make_slice [])); ("pages", JInt 3)]
  /\ reported "total_count" beyond = None
  /\ body complete = Object [("restaurants", JRestaurants (make_slice []));
                             ("pages", JInt 3); ("total_count", JInt 25)].
Proof. vm_compute. repeat split. Qed.

(** ** The city listing *)




(** ** Lenient coordinates *)

Lemma ParseSearchParams_location rt query :
  Get query "lat" <> "" -> Get query "lon" <> "" ->
  let p := ParseSearchParams rt query in
  HasLocation p = true
  /\ Lat p = fst (ParseFloat rt (Get query "lat"))
  /\ Lon p = fst (ParseFloat rt (Get query "lon")).
Proof.
  intros H1 H2. apply nonempty_true in H1, H2.
  unfold ParseSearchParams. rewrite H1, H2. cbn [andb]. repeat split.
Qed.

(** C9 (as stated, refuted): the latitude 1e999 fails numeric parsing (it
    is a number outside the float64 range), geographic mode is active, and
    the latitude is the positive infinity the parser returns, not 0. *)
Lemma C9_counterexample_out_of_range :
  let p := ParseSearchParams sample_runtime [("lat", ["1e999"]); ("lon", ["73"])] in
  snd (ParseFloat sample_runtime "1e999") = ErrRange
  /\ HasLocation p = true
  /\ Lat p = S754_infinity false
  /\ Lat p <> F64.zero.
Proof. vm_compute. repeat split. discriminate. Qed.

(** C9 (amended): when both lat and lon are non-empty, geographic mode is
    active and the coordinates are the values the float parser returns, its
    error being dropped: a coordinate that is not a number is 0, a number
    outside the float64 range is an infinity.  The distance expression over
    [$1] and [$2] is in the text of the fetch statement, bound to the
    longitude and the latitude; the cutoff is in both statements exactly for
    the sort keys that have it; without a city the radius predicate is in
    both statements, bound to the radius; and the handler goes on to run the
    count query. *)
Theorem C9_lenient_coordinates : forall rt db query,
  Get query "lat" <> "" -> Get query "lon" <> "" ->
  let p := ParseSearchParams rt query in
  HasLocation p = true
  /\ Lat p = fst (ParseFloat rt (Get query "lat"))
  /\ Lon p = fst (ParseFloat rt (Get query "lon"))
  /\ (snd (ParseFloat rt (Get query "lat")) = ErrSyntax -> Lat p = F64.zero)
  /\ (snd (ParseFloat rt (Get query "lon")) = ErrSyntax -> Lon p = F64.zero)
  /\ (snd (ParseFloat rt (Get query "lat")) = ErrRange -> is_infinity (Lat p) = true)
  /\ (snd (ParseFloat rt (Get query "lon")) = ErrRange -> is_infinity (Lon p) = true)
  /\ distanceExpr p = distance_expression 1 2
  /\ contains (distance_expression 1 2) (resultQuery p) = true
  /\ bound (arguments p) 1 = Some (VFloat (Lon p))
  /\ bound (arguments p) 2 = Some (VFloat (Lat p))
  /\ (In (cutoff_predicate 1 2) (search_conditions p) <-> Sort p = "" \/ Sort p = "discount")
  /\ (Sort p = "" \/ Sort p = "discount" -> in_both p (cutoff_predicate 1 2))
  /\ (City p = "" ->
      In (radius_predicate 1 2 3) (search_conditions p)
      /\ in_both p (radius_predicate 1 2 3)
      /\ bound (arguments p) 3 = Some (VFloat (Radius p)))
  /\ exists rest,
       snd (SearchHandler rt db query) = EQueryRow (countQuery p) (arguments p) :: rest.
Proof.
  intros rt db query H1 H2 p.
  destruct (ParseSearchParams_location rt query H1 H2) as (L & La & Lo). fold p in L, La, Lo.
  assert (K : In (cutoff_predicate 1 2) (search_conditions p)
              <-> Sort p = "" \/ Sort p = "discount").
  { rewrite <- cutoff_sort_iff. split.
    - intros H. now apply cutoff_only_if in H.
    - intros H. apply geo_conditions_present, geo_conditions_In. left. auto. }
  split; [exact L|]. split; [exact La|]. split; [exact Lo|].
  split; [intros E; rewrite La; now apply ParseFloat_syntax|].
  split; [intros E; rewrite Lo; now apply ParseFloat_syntax|].
  split; [intros E; rewrite La; now apply ParseFloat_range|].
  split; [intros E; rewrite Lo; now apply ParseFloat_range|].
  split.
  { destruct (build_structure p) as (cs & vs & D & _). unfold distanceExpr.
    rewrite D. unfold distance. now rewrite L. }
  split.
  { rewrite resultQuery_eq. unfold distance. rewrite L.
    apply distance_in_fetch. }
  split.
  { apply (bound_nth _ _ 0%nat); [reflexivity|].
    apply geo_args_present. unfold geo_args. rewrite L. reflexivity. }
  split.
  { apply (bound_nth _ _ 1%nat); [reflexivity|].
    apply geo_args_present. unfold geo_args. rewrite L. reflexivity. }
  split; [exact K|].
  split; [intros H; now apply condition_in_templates, K|].
  split.
  { intros C. apply nonempty_false in C.
    assert (I : In (radius_predicate 1 2 3) (search_conditions p)).
    { apply geo_conditions_present, geo_conditions_In. right. right. auto. }
    split; [exact I|]. split; [now apply condition_in_templates|].
    apply (bound_nth _ _ 2%nat); [reflexivity|].
    apply geo_args_present. unfold geo_args. rewrite L, C. reflexivity. }
  unfold SearchHandler. fold p. rewrite BuildSearchQueries_parts.
  destruct (QueryRow db (countQuery p) (arguments p)) as [n|err]; [|eexists; reflexivity].
  destruct ((totalPages n (Limit p) <? Page p) && (0 <? totalPages n (Limit p)));
    [eexists; reflexivity|].
  match goal with |- context [Query db ?q ?a] => destruct (Query db q a) end;
    eexists; reflexivity.
Qed.

Lemma C9_lenient_coordinates_witness :
  let p := ParseSearchParams sample_runtime [("lat", ["north"]); ("lon", ["1e999"])] in
  HasLocation p = true /\ Lat p = F64.zero /\ is_infinity (Lon p) = true
  /\ contains (distance_expression 1 2) (resultQuery p) = true
  /\ in_both p (radius_predicate 1 2 3).
Proof.
  intros p.
  pose proof (C9_lenient_coordinates sample_runtime (constant_db (inl 0) (inl []))
                [("lat", ["north"]); ("lon", ["1e999"])]) as H.
  destruct H as (L & _ & _ & Z & _ & _ & I & _ & D & _ & _ & _ & _ & R & _);
    [discriminate | discriminate |].
  split; [exact L|]. split; [apply Z; reflexivity|]. split; [apply I; reflexivity|].
  split; [exact D|]. apply R. reflexivity.
Defined.

(** ** Pagination *)

(** C5 (as stated, refuted): for the count 54043195528445953 the handler
    reports 4503599627370496 pages, one fewer than the ceiling of the count
    over the page size: the conversion of the count to float64 and the
    float64 division both round. *)
Lemma C5_counterexample_large_count :
  let db := constant_db (inl 54043195528445953) (inl []) in
  Limit (ParseSearchParams sample_runtime []) = 12
  /\ reported "pages" (fst (SearchHandler sample_runtime db []))
     = Some (JInt 4503599627370496)
  /\ reported "total_count" (fst (SearchHandler sample_runtime db []))
     = Some (JInt 54043195528445953)
  /\ ceil_div 54043195528445953 12 = 4503599627370497.
Proof. vm_compute. repeat split. Qed.

(** C5 (amended): the page size of a request is always 12; for every
    successful count below 2^52 the number of pages is the ceiling of the
    count over the page size; and for every successful count, when the
    requested page exceeds the number of pages and that number is positive,
    the response is the empty (non-null) result list with that number of
    pages, and the only database call is the count query. *)
Theorem C5_pages_and_overflow : forall rt db query totalCount,
  let p := ParseSearchParams rt query in
  let pages := totalPages totalCount (Limit p) in
  QueryRow db (countQuery p) (arguments p) = inl totalCount ->
  Limit p = 12
  /\ (0 <= totalCount < 2 ^ 52 -> pages = ceil_div totalCount (Limit p))
  /\ (pages < Page p -> 0 < pages ->
      SearchHandler rt db query
      = (respond_json (empty_page pages), [EQueryRow (countQuery p) (arguments p)])
      /\ ran_fetch (snd (SearchHandler rt db query)) = false).
Proof.
  intros rt db query n p pages H.
  pose proof (ParseSearchParams_Limit rt query) as L. fold p in L.
  split; [exact L|]. split.
  - intros B. unfold pages. rewrite L. now apply totalPages_exact.
  - intros H1 H2.
    rewrite (SearchHandler_overflow rt db query n H H1 H2). split; reflexivity.
Qed.

Lemma C5_pages_and_overflow_witness :
  let db := constant_db (inl 25) (inl []) in
  let query := [("page", ["10"])] in
  totalPages 25 12 = ceil_div 25 12
  /\ ceil_div 25 12 = 3
  /\ fst (SearchHandler sample_runtime db query) = respond_json (empty_page 3)
  /\ ran_fetch (snd (SearchHandler sample_runtime db query)) = false.
Proof.
  intros db query.
  destruct (C5_pages_and_overflow sample_runtime db query 25 eq_refl) as (_ & E & O).
  split; [apply E; split; [discriminate | reflexivity] |].
  split; [reflexivity|].
  destruct O as [O1 O2]; [reflexivity | reflexivity |].
  split; [rewrite O1; reflexivity | exact O2].
Defined.

(* ================================================================== *)
(** * Further properties of the query builder *)
(* ================================================================== *)

(** X1: the fetch template refers to exactly the parameters 1..N, N the
    length of the argument vector; the count template refers only to
    parameters among them; and both templates carry the same WHERE clause,
    the count template directly after its fixed head. *)
Theorem X1_templates_share_where_and_arguments : forall p,
  (forall k, In k (placeholders (resultQuery p))
             <-> 1 <= k <= Z.of_nat (List.length (arguments p)))
  /\ (forall k, In k (placeholders (countQuery p))
                -> 1 <= k <= Z.of_nat (List.length (arguments p)))
  /\ countQuery p = "SELECT COUNT(*) FROM restaurants r " +++ whereStr (search_conditions p)
  /\ exists pre post, resultQuery p = pre +++ whereStr (search_conditions p) +++ post.
Proof.
  intros p. split; [apply fetch_references|]. split.
  - intros k H. apply fetch_references, count_references, H.
  - unfold countQuery, resultQuery. rewrite BuildSearchQueries_eq. cbn [fst snd].
    destruct (render_where (distanceExpr p) (search_conditions p)) as [-> ->].
    split; [reflexivity | apply resultQuery_where].
Qed.

(** X2: the predicate that excludes duplicates is the last predicate of
    every query, whatever the request. *)
Theorem X2_duplicates_always_excluded : forall p,
  exists cs, search_conditions p = cs ++ ["r.is_duplicate = false"]
  /\ contains "r.is_duplicate = false" (countQuery p) = true
  /\ contains "r.is_duplicate = false" (resultQuery p) = true.
Proof.
  intros p.
  assert (E : exists cs, search_conditions p = cs ++ ["r.is_duplicate = false"]).
  { unfold search_conditions. rewrite build_eq. cbn [snd]. unfold tail_blocks.
    unfold duplicate_block, fixed. cbn [conditions]. eexists. reflexivity. }
  destruct E as [cs E]. exists cs. split; [exact E|].
  apply condition_in_templates. rewrite E. apply in_or_app. right. now left.
Qed.

(** X3: a coordinate that is a number outside the float64 range is not
    defaulted to 0: the parser's infinity is kept and geographic mode is
    active. *)
Theorem X3_out_of_range_coordinate_kept : forall rt query,
  Get query "lat" <> "" -> Get query "lon" <> "" ->
  snd (ParseFloat rt (Get query "lat")) = ErrRange ->
  HasLocation (ParseSearchParams rt query) = true
  /\ is_infinity (Lat (ParseSearchParams rt query)) = true.
Proof.
  intros rt query H1 H2 E.
  destruct (ParseSearchParams_location rt query H1 H2) as (L & La & _).
  split; [exact L|]. rewrite La. now apply ParseFloat_range.
Qed.

Lemma X3_out_of_range_coordinate_kept_witness :
  HasLocation (ParseSearchParams sample_runtime [("lat", ["1e999"]); ("lon", ["73"])]) = true
  /\ is_infinity (Lat (ParseSearchParams sample_runtime [("lat", ["1e999"]); ("lon", ["73"])]))
     = true.
Proof.
  apply (X3_out_of_range_coordinate_kept sample_runtime
           [("lat", ["1e999"]); ("lon", ["73"])]);
    [discriminate | discriminate | reflexivity].
Defined.

(* ================================================================== *)
(** * Further facts about the query builder *)
(* ================================================================== *)

(** ** The text of the statements does not depend on the values *)

Lemma alike_refl b : alike b b.
Proof. repeat split. Qed.

Ltac alike_records :=
  unfold alike; cbn [conditions idx args]; rewrite ?length_app; cbn [List.length];
  repeat split; congruence.

Lemma location_block_alike p q b b' :
  alike b b' ->
  HasLocation p = HasLocation q -> cutoff_sort p = cutoff_sort q ->
  fst (location_block p b) = fst (location_block q b')
  /\ alike (snd (location_block p b)) (snd (location_block q b')).
Proof.
  intros (C & I & A) H1 H2. unfold location_block, cutoff_sort in *.
  rewrite <- H1, <- H2.
  destruct (HasLocation p); [|now repeat split].
  destruct (String.eqb (Sort p) "" || String.eqb (Sort p) "discount");
    cbn [fst snd]; rewrite I; (split; [reflexivity | alike_records]).
Qed.

Lemma city_block_alike p q b b' :
  alike b b' ->
  HasLocation p = HasLocation q -> nonempty (City p) = nonempty (City q) ->
  alike (city_block p b) (city_block q b').
Proof.
  intros (C & I & A) H1 H2. unfold city_block. rewrite <- H1, <- H2.
  destruct (nonempty (City p)); [alike_records|].
  destruct (HasLocation p); [alike_records | now repeat split].
Qed.

Lemma single_alike format v v' b b' :
  alike b b' -> alike (single format v b) (single format v' b').
Proof. intros (C & I & A). unfold single. alike_records. Qed.

Lemma fixed_alike condition b b' :
  alike b b' -> alike (fixed condition b) (fixed condition b').
Proof. intros (C & I & A). unfold fixed. alike_records. Qed.

Lemma guarded_alike (g : bool) (f f' : builder -> builder) b b' :
  alike b b' -> (forall x x', alike x x' -> alike (f x) (f' x')) ->
  alike (if g then f b else b) (if g then f' b' else b').
Proof. intros H F. destruct g; [now apply F | assumption]. Qed.

Lemma name_block_alike p q b b' :
  alike b b' -> nonempty (Name p) = nonempty (Name q) ->
  alike (name_block p b) (name_block q b').
Proof.
  intros (C & I & A) H. unfold name_block. rewrite <- H.
  destruct (nonempty (Name p)); [alike_records | now repeat split].
Qed.

Lemma area_block_alike p q b b' :
  alike b b' -> nonempty (Area p) = nonempty (Area q) ->
  alike (area_block p b) (area_block q b').
Proof.
  intros (C & I & A) H. unfold area_block. rewrite <- H.
  destruct (nonempty (Area p)); [alike_records | now repeat split].
Qed.

Lemma segment_count_zero field : segment_count field = O -> nonempty field = false.
Proof.
  unfold segment_count. destruct (nonempty field); [|reflexivity].
  intros H. destruct (Strings.Split field ",") eqn:E; [|discriminate].
  now apply Split_nonempty in E.
Qed.

Lemma list_block_alike format conv conv' field field' b b' :
  alike b b' -> segment_count field = segment_count field' ->
  alike (list_block format conv field b) (list_block format conv' field' b').
Proof.
  intros (C & I & A) H.
  destruct (nonempty field) eqn:E.
  - destruct (nonempty field') eqn:E'.
    + rewrite !list_block_spec by assumption.
      unfold segment_count in H. rewrite E, E' in H.
      unfold alike; cbn [conditions idx args].
      rewrite !length_app, !length_map, H, C, I, A. repeat split.
    + unfold segment_count in H at 2. rewrite E' in H.
      apply segment_count_zero in H. congruence.
  - destruct (nonempty field') eqn:E'.
    + unfold segment_count in H at 1. rewrite E in H. symmetry in H.
      apply segment_count_zero in H. congruence.
    + unfold list_block. rewrite E, E'. now repeat split.
Qed.

Lemma build_alike p q :
  shape p = shape q ->
  fst (build p) = fst (build q) /\ alike (snd (build p)) (snd (build q)).
Proof.
  intros H. unfold shape in H.
  injection H as HL HS HC HN HA Hc Hcs Hci Hm Hms Hmi Hlo Hhi Hr Hd Hf.
  rewrite !build_eq. cbn [fst snd].
  destruct (location_block_alike p q init init (alike_refl init) HL HS) as [D L].
  split; [exact D|]. unfold tail_blocks.
  apply fixed_alike.
  unfold free_block. rewrite <- Hf. apply guarded_alike; [|intros; now apply fixed_alike].
  unfold discount_block. rewrite <- Hd. apply guarded_alike; [|intros; now apply single_alike].
  unfold rating_block. rewrite <- Hr. apply guarded_alike; [|intros; now apply single_alike].
  unfold maxCost_block. rewrite <- Hhi. apply guarded_alike; [|intros; now apply single_alike].
  unfold minCost_block. rewrite <- Hlo. apply guarded_alike; [|intros; now apply single_alike].
  apply list_block_alike; [|exact Hmi].
  apply list_block_alike; [|exact Hms].
  unfold mealType_block. rewrite <- Hm. apply guarded_alike; [|intros; now apply single_alike].
  apply list_block_alike; [|exact Hci].
  apply list_block_alike; [|exact Hcs].
  unfold cuisine_block. rewrite <- Hc. apply guarded_alike; [|intros; now apply single_alike].
  apply area_block_alike; [|exact HA].
  apply name_block_alike; [|exact HN].
  now apply city_block_alike.
Qed.

(** X4: the two statements are determined by which filters are active and
    by the number of segments of each list filter: two requests of the same
    shape get the same count template and the same fetch template, byte for
    byte, and argument vectors of the same length, whatever the values of
    their filters are. *)
Theorem X4_templates_independent_of_values : forall p q,
  shape p = shape q ->
  countQuery p = countQuery q
  /\ resultQuery p = resultQuery q
  /\ List.length (arguments p) = List.length (arguments q).
Proof.
  intros p q H. destruct (build_alike p q H) as (D & C & _ & A).
  unfold countQuery, resultQuery. rewrite !BuildSearchQueries_eq. cbn [fst snd].
  unfold distanceExpr, search_conditions. rewrite D, C.
  repeat split. now rewrite !arguments_eq.
Qed.

Lemma X4_templates_independent_of_values_witness :
  countQuery (full_request "pizza" "Pune")
    = countQuery (full_request "x' OR 1=1; --" "$9")
  /\ resultQuery (full_request "pizza" "Pune")
     = resultQuery (full_request "x' OR 1=1; --" "$9")
  /\ List.length (arguments (full_request "pizza" "Pune"))
     = List.length (arguments (full_request "x' OR 1=1; --" "$9")).
Proof.
  apply (X4_templates_independent_of_values
           (full_request "pizza" "Pune") (full_request "x' OR 1=1; --" "$9")).
  reflexivity.
Defined.

(** ** Which predicates a request has *)

(** A predicate of the geographic block starts unlike any later one. *)
Ltac not_geographic H T :=
  apply geo_conditions_In in H;
  destruct H as [(_ & _ & H) | [(_ & H) | (_ & _ & H)]];
  apply (f_equal (String.prefix T)) in H; discriminate H.

(** The guard under which a predicate that starts with [T] was emitted. *)
Ltac guard_of H T :=
  apply search_conditions_origin in H; destruct H as [H | H];
  [ not_geographic H T
  | match type of H with
    | emitted _ ?c =>
        let E := fresh "E" in
        remember c as c' eqn:E; destruct H; try assumption;
        apply (f_equal (String.prefix T)) in E; discriminate E
    end ].

Lemma name_only_if p k :
  In (name_predicate k) (search_conditions p) -> nonempty (Name p) = true.
Proof. intros H. guard_of H "(r.restaurant_name". Qed.

Lemma area_only_if p k :
  In (area_predicate k) (search_conditions p) -> nonempty (Area p) = true.
Proof. intros H. guard_of H "r.area ILIKE". Qed.

Lemma cuisine_only_if p k :
  In (cuisine_predicate k) (search_conditions p) -> nonempty (Cuisine p) = true.
Proof.
  intros H.
  guard_of H "r.id IN (SELECT rc.restaurant_id FROM restaurant_cuisines rc JOIN cuisines c ON rc.cuisine_id = c.id WHERE c.cuisine_name ILIKE".
Qed.

Lemma cuisines_only_if p k n :
  In (in_list_predicate cuisines_format k n) (search_conditions p) ->
  nonempty (Cuisines p) = true.
Proof.
  intros H.
  guard_of H "r.id IN (SELECT rc.restaurant_id FROM restaurant_cuisines rc JOIN cuisines c ON rc.cuisine_id = c.id WHERE c.cuisine_name IN".
Qed.

Lemma cuisineIds_only_if p k n :
  In (in_list_predicate cuisineIds_format k n) (search_conditions p) ->
  nonempty (CuisineIds p) = true.
Proof.
  intros H. guard_of H "r.id IN (SELECT restaurant_id FROM restaurant_cuisines".
Qed.

Lemma mealType_only_if p k :
  In (mealType_predicate k) (search_conditions p) -> nonempty (MealType p) = true.
Proof.
  intros H.
  guard_of H "r.id IN (SELECT rmt.restaurant_id FROM restaurant_meal_types rmt JOIN meal_types m ON rmt.meal_type_id = m.id WHERE m.meal_type ILIKE".
Qed.

Lemma mealTypes_only_if p k n :
  In (in_list_predicate mealTypes_format k n) (search_conditions p) ->
  nonempty (MealTypes p) = true.
Proof.
  intros H.
  guard_of H "r.id IN (SELECT rmt.restaurant_id FROM restaurant_meal_types rmt JOIN meal_types m ON rmt.meal_type_id = m.id WHERE m.meal_type IN".
Qed.

Lemma mealTypeIds_only_if p k n :
  In (in_list_predicate mealTypeIds_format k n) (search_conditions p) ->
  nonempty (MealTypeIds p) = true.
Proof.
  intros H. guard_of H "r.id IN (SELECT restaurant_id FROM restaurant_meal_types".
Qed.

Lemma minCost_only_if p k :
  In (minCost_predicate k) (search_conditions p) -> (0 <? MinCost p) = true.
Proof. intros H. guard_of H "r.cost_for_two >=". Qed.

Lemma maxCost_only_if p k :
  In (maxCost_predicate k) (search_conditions p) -> (0 <? MaxCost p) = true.
Proof. intros H. guard_of H "r.cost_for_two <=". Qed.

Lemma rating_only_if p k :
  In (rating_predicate k) (search_conditions p) ->
  F64.ltb F64.zero (Rating p) = true.
Proof. intros H. guard_of H "r.rating". Qed.

Lemma discount_only_if p k :
  In (discount_predicate k) (search_conditions p) ->
  F64.ltb F64.zero (Discount p) = true.
Proof. intros H. guard_of H "r.effective_discount". Qed.

Lemma free_only_if p :
  In "r.free = true" (search_conditions p) -> Free p = true.
Proof. intros H. guard_of H "r.free". Qed.

(** A block that appends one predicate over one fresh parameter binds that
    parameter to its value. *)
Lemma single_binding p l1 f l2 format v :
  tail_list p = l1 ++ f :: l2 ->
  (forall b, f b = single format v b) ->
  exists k,
    1 <= k /\
    In (Sprintf format [OInt k]) (search_conditions p) /\
    bound (arguments p) k = Some v.
Proof.
  intros E F.
  destruct (block_context p _ _ _ E) as [I S].
  set (x := run_blocks l1 (prefix_state p)) in *.
  rewrite F in S. destruct (fresh_step_keeps _ _ S) as [KC KA].
  unfold single in KC, KA. cbn [conditions args] in KC, KA.
  exists (idx x). split; [lia|]. split.
  - apply KC, in_or_app. right. now left.
  - rewrite arguments_eq.
    apply (bound_nth _ _ (List.length (args x))); [lia|].
    apply KA. now rewrite nth_error_app2, Nat.sub_diag by lia.
Qed.

Ltac binds_by n f G :=
  match goal with
  | |- binds ?p ?predicate ?v =>
      let k := fresh "k" in
      let K := fresh "K" in
      let I := fresh "I" in
      let B := fresh "B" in
      edestruct (single_binding p (firstn n (tail_list p)) f (skipn (S n) (tail_list p)))
        as (k & K & I & B);
      [ exact eq_refl
      | intros b; cbv beta delta [area_block cuisine_block mealType_block
                                  minCost_block maxCost_block rating_block
                                  discount_block];
        rewrite G; reflexivity
      | exists k; split; [exact K|]; split; [exact I|]; split; [|exact B];
        cbv delta [predicate]; cbv beta; phs; reflexivity ]
  end.

Lemma area_binding p :
  nonempty (Area p) = true ->
  binds p area_predicate (VString ("%" +++ Area p +++ "%")).
Proof. intros G. binds_by 1%nat (area_block p) G. Qed.

Lemma cuisine_binding p :
  nonempty (Cuisine p) = true -> binds p cuisine_predicate (VString (Cuisine p)).
Proof. intros G. binds_by 2%nat (cuisine_block p) G. Qed.

Lemma mealType_binding p :
  nonempty (MealType p) = true -> binds p mealType_predicate (VString (MealType p)).
Proof. intros G. binds_by 5%nat (mealType_block p) G. Qed.

Lemma minCost_binding p :
  (0 <? MinCost p) = true -> binds p minCost_predicate (VInt (MinCost p)).
Proof. intros G. binds_by 8%nat (minCost_block p) G. Qed.

Lemma maxCost_binding p :
  (0 <? MaxCost p) = true -> binds p maxCost_predicate (VInt (MaxCost p)).
Proof. intros G. binds_by 9%nat (maxCost_block p) G. Qed.

Lemma rating_binding p :
  F64.ltb F64.zero (Rating p) = true -> binds p rating_predicate (VFloat (Rating p)).
Proof. intros G. binds_by 10%nat (rating_block p) G. Qed.

Lemma discount_binding p :
  F64.ltb F64.zero (Discount p) = true ->
  binds p discount_predicate (VFloat (Discount p)).
Proof. intros G. binds_by 11%nat (discount_block p) G. Qed.

Lemma binds_present p predicate v : binds p predicate v -> present p predicate.
Proof. intros (k & _ & I & _). now exists k. Qed.

Lemma list_filter_present p n format conv field :
  nth_error (tail_list p) n = Some (list_block format conv field) ->
  nonempty field = true -> list_present p format.
Proof.
  intros E G.
  assert (T : tail_list p = firstn n (tail_list p) ++ list_block format conv field
                              :: skipn (S n) (tail_list p)).
  { apply nth_error_split in E. destruct E as (l1 & l2 & E & L).
    rewrite E at 1. rewrite E, <- L.
    rewrite firstn_app, firstn_all, Nat.sub_diag, firstn_O, app_nil_r.
    replace (S (List.length l1)) with (List.length (l1 ++ [list_block format conv field]))
      by (rewrite length_app; cbn; lia).
    change (l1 ++ list_block format conv field :: l2)
      with (l1 ++ [list_block format conv field] ++ l2) at 2.
    now rewrite app_assoc, skipn_app, skipn_all, Nat.sub_diag, skipn_O. }
  destruct (list_binding p _ _ _ _ _ T G) as (k & _ & I & _).
  exists k. eexists. exact I.
Qed.

Lemma free_present p : Free p = true -> In "r.free = true" (search_conditions p).
Proof.
  intros G.
  destruct (block_context p (firstn 12 (tail_list p)) (free_block p)
              (skipn 13 (tail_list p)) eq_refl) as [_ S].
  destruct (fresh_step_keeps _ _ S) as [KC _]. apply KC.
  unfold free_block, fixed. rewrite G. cbn [conditions].
  apply in_or_app. right. now left.
Qed.

(** X5: each optional filter contributes its predicate exactly when the
    filter is set: the thirteen predicates are present independently of one
    another, a text filter when its value is not empty, a threshold when it
    is strictly positive, the free-offer predicate when the flag is set. *)
Theorem X5_predicate_iff_filter_set : forall p,
  (present p name_predicate <-> Name p <> "")
  /\ (present p area_predicate <-> Area p <> "")
  /\ (present p cuisine_predicate <-> Cuisine p <> "")
  /\ (list_present p cuisines_format <-> Cuisines p <> "")
  /\ (list_present p cuisineIds_format <-> CuisineIds p <> "")
  /\ (present p mealType_predicate <-> MealType p <> "")
  /\ (list_present p mealTypes_format <-> MealTypes p <> "")
  /\ (list_present p mealTypeIds_format <-> MealTypeIds p <> "")
  /\ (present p minCost_predicate <-> 0 < MinCost p)
  /\ (present p maxCost_predicate <-> 0 < MaxCost p)
  /\ (present p rating_predicate <-> F64.ltb F64.zero (Rating p) = true)
  /\ (present p discount_predicate <-> F64.ltb F64.zero (Discount p) = true)
  /\ (In "r.free = true" (search_conditions p) <-> Free p = true).
Proof.
  intros p. rewrite !nonempty_true, <- !Z.ltb_lt.
  repeat match goal with |- _ /\ _ => split end; split.
  - intros [k H]. now apply name_only_if in H.
  - intros G. exists (1 + Z.of_nat (List.length (geo_args p))). now apply name_binding.
  - intros [k H]. now apply area_only_if in H.
  - intros G. eapply binds_present, area_binding, G.
  - intros [k H]. now apply cuisine_only_if in H.
  - intros G. eapply binds_present, cuisine_binding, G.
  - intros (k & n & H). now apply cuisines_only_if in H.
  - exact (list_filter_present p 3 cuisines_format Strings.TrimSpace (Cuisines p) eq_refl).
  - intros (k & n & H). now apply cuisineIds_only_if in H.
  - exact (list_filter_present p 4 cuisineIds_format (fun id => id) (CuisineIds p) eq_refl).
  - intros [k H]. now apply mealType_only_if in H.
  - intros G. eapply binds_present, mealType_binding, G.
  - intros (k & n & H). now apply mealTypes_only_if in H.
  - exact (list_filter_present p 6 mealTypes_format Strings.TrimSpace (MealTypes p) eq_refl).
  - intros (k & n & H). now apply mealTypeIds_only_if in H.
  - exact (list_filter_present p 7 mealTypeIds_format (fun id => id) (MealTypeIds p) eq_refl).
  - intros [k H]. now apply minCost_only_if in H.
  - intros G. eapply binds_present, minCost_binding, G.
  - intros [k H]. now apply maxCost_only_if in H.
  - intros G. eapply binds_present, maxCost_binding, G.
  - intros [k H]. now apply rating_only_if in H.
  - intros G. eapply binds_present, rating_binding, G.
  - intros [k H]. now apply discount_only_if in H.
  - intros G. eapply binds_present, discount_binding, G.
  - apply free_only_if.
  - apply free_present.
Qed.

(** X6: each active filter with one value has a predicate over one
    parameter of its own, bound to that value: the area between two
    wildcards, the cuisine and the meal type as given, the two cost bounds
    as integers, the rating and the discount fraction as floats. *)
Theorem X6_scalar_filters_bound : forall p,
  (Area p <> "" -> binds p area_predicate (VString ("%" +++ Area p +++ "%")))
  /\ (Cuisine p <> "" -> binds p cuisine_predicate (VString (Cuisine p)))
  /\ (MealType p <> "" -> binds p mealType_predicate (VString (MealType p)))
  /\ (0 < MinCost p -> binds p minCost_predicate (VInt (MinCost p)))
  /\ (0 < MaxCost p -> binds p maxCost_predicate (VInt (MaxCost p)))
  /\ (F64.ltb F64.zero (Rating p) = true ->
      binds p rating_predicate (VFloat (Rating p)))
  /\ (F64.ltb F64.zero (Discount p) = true ->
      binds p discount_predicate (VFloat (Discount p))).
Proof.
  intros p. rewrite !nonempty_true, <- !Z.ltb_lt.
  repeat split.
  - apply area_binding.
  - apply cuisine_binding.
  - apply mealType_binding.
  - apply minCost_binding.
  - apply maxCost_binding.
  - apply rating_binding.
  - apply discount_binding.
Qed.

Lemma X6_scalar_filters_bound_witness :
  binds (full_request "pizza" "Pune") area_predicate (VString "%Baner%")
  /\ binds (full_request "pizza" "Pune") minCost_predicate (VInt 200)
  /\ binds (full_request "pizza" "Pune") discount_predicate
           (VFloat (F64.div (F64.of_int 20) (F64.of_int 100))).
Proof.
  pose proof (X6_scalar_filters_bound (full_request "pizza" "Pune"))
    as (A & _ & _ & L & _ & _ & D).
  split; [apply A; discriminate|]. split; [apply L; reflexivity|].
  apply D. reflexivity.
Defined.

(* ================================================================== *)
(** * Further facts about the handlers of search.go *)
(* ================================================================== *)

(** ** The fetch statement *)

Lemma run_no_dollar s : dollars s = O -> run Idle s = ([], Idle).
Proof.
  induction s as [|c s IH]; [reflexivity|].
  cbn [dollars run]. unfold feed. destruct (Ascii.eqb c "$"); [discriminate|].
  intros H. destruct (digit_of c); cbn [flush]; now rewrite (IH H).
Qed.

Lemma placeholders_no_dollar s : dollars s = O -> placeholders s = [].
Proof. intros H. unfold placeholders. now rewrite run_no_dollar. Qed.

Lemma orderBy_cases sort :
  orderBy sort = "ORDER BY rating DESC, id ASC"
  \/ orderBy sort = "ORDER BY cost_for_two ASC, id ASC"
  \/ orderBy sort = "ORDER BY effective_discount DESC, id ASC".
Proof.
  unfold orderBy. destruct (String.eqb sort "rating_desc"); [now left|].
  destruct (String.eqb sort "cost_asc"); [right; now left | right; now right].
Qed.

Lemma finalQuery_eq p :
  finalQuery p
  = resultQuery p +++ " " +++ orderBy (Sort p)
    +++ " LIMIT " +++ Itoa (Limit p) +++ " OFFSET " +++ Itoa (Offset p).
Proof. unfold finalQuery. cbn [Sprintf]. now rewrite string_app_nil_r. Qed.

(** X7: the statement sent for the fetch is the fetch template followed by
    the ordering, the page size and the offset, the two numbers written into
    the text as decimal literals; what follows the template adds no
    parameter reference, so the statement refers to exactly the parameters
    1..N of the N arguments passed with it; and every ordering ends with
    the ascending identity as tie-break. *)
Theorem X7_fetch_statement : forall p,
  finalQuery p
    = resultQuery p +++ " " +++ orderBy (Sort p)
      +++ " LIMIT " +++ Itoa (Limit p) +++ " OFFSET " +++ Itoa (Offset p)
  /\ placeholders (finalQuery p) = placeholders (resultQuery p)
  /\ (forall k, In k (placeholders (finalQuery p))
                <-> 1 <= k <= Z.of_nat (List.length (arguments p)))
  /\ exists key, orderBy (Sort p) = "ORDER BY " +++ key +++ ", id ASC".
Proof.
  intros p.
  assert (P : placeholders (finalQuery p) = placeholders (resultQuery p)).
  { rewrite finalQuery_eq, placeholders_app by exact eq_refl.
    rewrite (placeholders_no_dollar (" " +++ _)); [apply app_nil_r|].
    destruct (orderBy_cases (Sort p)) as [-> | [-> | ->]];
      repeat (progress (cbn [String.append dollars Ascii.eqb Bool.eqb plus];
                        rewrite ?dollars_app, ?dollars_Itoa));
      reflexivity. }
  split; [apply finalQuery_eq|]. split; [exact P|]. split.
  - intros k. rewrite P. apply fetch_references.
  - destruct (orderBy_cases (Sort p)) as [-> | [-> | ->]].
    + now exists "rating DESC".
    + now exists "cost_for_two ASC".
    + now exists "effective_discount DESC".
Qed.

(** ** The effects of a search *)

(** X8: a search runs the count statement first and once; it runs the
    fetch statement at most once, only after the count succeeded, and with
    the argument vector of the count; it logs only the error of a failed
    call.  The status is 400 exactly when the fetch ran and failed, and 200
    in the three other cases. *)
Theorem X8_search_effects : forall rt db query,
  let p := ParseSearchParams rt query in
  let count := EQueryRow (countQuery p) (arguments p) in
  let fetch := EQuery (finalQuery p) (arguments p) in
  let r := fst (SearchHandler rt db query) in
  let t := snd (SearchHandler rt db query) in
  ((exists err,
       QueryRow db (countQuery p) (arguments p) = inr err
       /\ t = [count; ELog "Count query error:" err] /\ status r = StatusOK)
   \/ (exists n,
         QueryRow db (countQuery p) (arguments p) = inl n
         /\ totalPages n (Limit p) < Page p /\ 0 < totalPages n (Limit p)
         /\ t = [count] /\ status r = StatusOK)
   \/ (exists n err,
         QueryRow db (countQuery p) (arguments p) = inl n
         /\ Query db (finalQuery p) (arguments p) = inr err
         /\ t = [count; fetch; ELog "Search result query error:" err]
         /\ status r = StatusBadRequest)
   \/ (exists n rows,
         QueryRow db (countQuery p) (arguments p) = inl n
         /\ Query db (finalQuery p) (arguments p) = inl rows
         /\ t = [count; fetch] /\ status r = StatusOK))
  /\ hd_error t = Some count
  /\ (status r = StatusBadRequest <->
      exists err, In (ELog "Search result query error:" err) t).
Proof.
  intros rt db query p count fetch r t.
  destruct (QueryRow db (countQuery p) (arguments p)) as [n | err] eqn:Q.
  - destruct ((totalPages n (Limit p) <? Page p) && (0 <? totalPages n (Limit p))) eqn:O.
    + apply andb_prop in O. destruct O as [O1 O2]. apply Z.ltb_lt in O1, O2.
      pose proof (SearchHandler_overflow rt db query n Q O1 O2) as E.
      subst r t. fold p in E. rewrite E. cbn [fst snd]. split; [|split].
      * right. left. exists n. repeat split; assumption.
      * reflexivity.
      * split; [discriminate|]. intros [err [H | []]]. discriminate.
    + destruct (Query db (finalQuery p) (arguments p)) as [rows | err] eqn:F.
      * pose proof (SearchHandler_results rt db query n rows Q O F) as E.
        subst r t. fold p in E. rewrite E. cbn [fst snd]. split; [|split].
        -- right. right. right. exists n, rows. repeat split.
        -- reflexivity.
        -- split; [discriminate|]. intros [err [H | [H | []]]]; discriminate.
      * pose proof (SearchHandler_fetch_error rt db query n err Q O F) as E.
        subst r t. fold p in E. rewrite E. cbn [fst snd]. split; [|split].
        -- right. right. left. exists n, err. repeat split.
        -- reflexivity.
        -- split; [|reflexivity]. intros _. exists err. right. right. now left.
  - pose proof (SearchHandler_count_error rt db query err Q) as E.
    subst r t. fold p in E. rewrite E. cbn [fst snd]. split; [|split].
    + left. exists err. repeat split.
    + reflexivity.
    + split; [discriminate|]. intros [e [H | [H | []]]]; discriminate.
Qed.

(** ** Page and offset *)

Lemma Atoi_range s : MinInt64 <= fst (Atoi s) <= MaxInt64.
Proof.
  unfold Atoi.
  destruct (match s with
            | String "-"%char r => (true, r)
            | String "+"%char r => (false, r)
            | _ => (false, s)
            end) as [neg body].
  destruct body as [|c body]; [cbn; unfold MinInt64, MaxInt64; lia|].
  destruct (digits_value 0 (String c body)) as [v|];
    [|cbn; unfold MinInt64, MaxInt64; lia].
  set (z := if neg then - v else v).
  destruct (Z.ltb_spec MaxInt64 z); [cbn; unfold MinInt64, MaxInt64; lia|].
  destruct (Z.ltb_spec z MinInt64); cbn [fst]; unfold MinInt64, MaxInt64 in *; lia.
Qed.

Lemma wrap64_range z : MinInt64 <= wrap64 z <= MaxInt64.
Proof.
  unfold wrap64, MinInt64, MaxInt64.
  pose proof (Z.mod_pos_bound (z + 9223372036854775808) 18446744073709551616).
  lia.
Qed.

Lemma wrap64_exact z : MinInt64 <= z <= MaxInt64 -> wrap64 z = z.
Proof.
  unfold wrap64, MinInt64, MaxInt64. intros H.
  rewrite Z.mod_small by lia. lia.
Qed.

Lemma ParseSearchParams_Page rt query :
  let n := fst (Atoi (Get query "page")) in
  Page (ParseSearchParams rt query) = (if n <=? 0 then 1 else n)
  /\ Offset (ParseSearchParams rt query)
     = wrap64 (((if n <=? 0 then 1 else n) - 1) * 12).
Proof.
  unfold ParseSearchParams.
  destruct (nonempty (Get query "lat") && nonempty (Get query "lon")); now split.
Qed.

(** X9: the page of a request is at least 1 whatever the page parameter
    holds (absent, not a number, zero and negative all give page 1 and
    offset 0); the offset is (page - 1) * 12 and not negative for every
    page up to 768614336404564651, and differs from that product, by the
    64-bit wrap-around, for every larger page. *)
Theorem X9_page_and_offset : forall rt query,
  let p := ParseSearchParams rt query in
  1 <= Page p <= MaxInt64
  /\ (fst (Atoi (Get query "page")) <= 0 -> Page p = 1 /\ Offset p = 0)
  /\ (0 < fst (Atoi (Get query "page")) -> Page p = fst (Atoi (Get query "page")))
  /\ (Page p <= last_exact_page -> Offset p = (Page p - 1) * 12 /\ 0 <= Offset p)
  /\ (last_exact_page < Page p -> Offset p <> (Page p - 1) * 12).
Proof.
  intros rt query p.
  destruct (ParseSearchParams_Page rt query) as [P O]. fold p in P, O.
  pose proof (Atoi_range (Get query "page")) as R.
  set (n := fst (Atoi (Get query "page"))) in *.
  rewrite <- P in O. clearbody p.
  assert (B : 1 <= Page p <= MaxInt64).
  { rewrite P. destruct (Z.leb_spec n 0); unfold MaxInt64 in *; lia. }
  split; [exact B|]. split; [|split; [|split]].
  - intros H. assert (E : Page p = 1).
    { rewrite P. destruct (Z.leb_spec n 0); lia. }
    split; [exact E|]. rewrite O, E. reflexivity.
  - intros H. rewrite P. destruct (Z.leb_spec n 0); lia.
  - unfold last_exact_page. intros H.
    rewrite O, wrap64_exact; unfold MinInt64, MaxInt64; lia.
  - unfold last_exact_page. intros H E.
    pose proof (wrap64_range ((Page p - 1) * 12)) as W. rewrite <- O, E in W.
    unfold MaxInt64 in W. lia.
Qed.

Lemma X9_page_and_offset_witness :
  (Page (ParseSearchParams sample_runtime [("page", ["-3"])]) = 1
   /\ Offset (ParseSearchParams sample_runtime [("page", ["-3"])]) = 0)
  /\ Page (ParseSearchParams sample_runtime [("page", ["4"])]) = 4
  /\ (Offset (ParseSearchParams sample_runtime [("page", ["4"])]) = (4 - 1) * 12
      /\ 0 <= Offset (ParseSearchParams sample_runtime [("page", ["4"])]))
  /\ Offset (ParseSearchParams sample_runtime [("page", ["768614336404564652"])])
     <> (768614336404564652 - 1) * 12.
Proof.
  pose proof (X9_page_and_offset sample_runtime [("page", ["-3"])]) as (_ & A & _).
  pose proof (X9_page_and_offset sample_runtime [("page", ["4"])]) as (_ & _ & B & C & _).
  pose proof (X9_page_and_offset sample_runtime [("page", ["768614336404564652"])])
    as (_ & _ & _ & _ & D).
  split; [apply A; vm_compute; discriminate|].
  split; [apply B; reflexivity|].
  split; [apply C; vm_compute; discriminate|].
  apply D. reflexivity.
Defined.

(** ** Coordinates given in part *)

(** X10: a request with only one of lat and lon (or none) is treated as a
    request without a point all the way through: geographic mode is off, the
    coordinates and the radius keep their zero values whatever the lat, lon
    and radius parameters hold, the distance expression of the fetch
    statement is the constant 0.0, and no cutoff and no radius predicate is
    generated. *)
Theorem X10_partial_coordinates_ignored : forall rt query,
  Get query "lat" = "" \/ Get query "lon" = "" ->
  let p := ParseSearchParams rt query in
  HasLocation p = false
  /\ Lat p = F64.zero /\ Lon p = F64.zero /\ Radius p = F64.zero
  /\ distanceExpr p = "0.0"
  /\ (forall i j, ~ In (cutoff_predicate i j) (search_conditions p))
  /\ (forall i j k, ~ In (radius_predicate i j k) (search_conditions p)).
Proof.
  intros rt query H p.
  assert (G : nonempty (Get query "lat") && nonempty (Get query "lon") = false).
  { destruct H as [-> | ->]; [reflexivity | apply andb_false_r]. }
  assert (E : HasLocation p = false /\ Lat p = F64.zero /\ Lon p = F64.zero
              /\ Radius p = F64.zero).
  { subst p. unfold ParseSearchParams. rewrite G. now repeat split. }
  destruct E as (L & La & Lo & R). clearbody p.
  repeat match goal with |- _ /\ _ => split end; try assumption.
  - unfold distanceExpr. rewrite build_eq. cbn [fst].
    destruct (prefix_spec p) as (D & _). rewrite D. unfold distance. now rewrite L.
  - intros i j I. apply cutoff_only_if in I. destruct I. congruence.
  - intros i j k I. apply radius_only_if in I. destruct I. congruence.
Qed.

Lemma X10_partial_coordinates_ignored_witness :
  let p := ParseSearchParams sample_runtime [("lat", ["18"]); ("radius", ["900"])] in
  HasLocation p = false /\ Radius p = F64.zero /\ distanceExpr p = "0.0".
Proof.
  pose proof (X10_partial_coordinates_ignored sample_runtime
                [("lat", ["18"]); ("radius", ["900"])] (or_intror eq_refl))
    as (A & _ & _ & B & C & _).
  exact (conj A (conj B C)).
Defined.

(** ** Decoding rows *)

(** X11: the two modes of the row decoder differ in the distance column
    only.  A row decodes with the extra fields only if it has 16 columns and
    without them only if it has 15, so no row decodes in both modes; and a
    row of 16 columns decodes with the extra fields exactly when its
    distance column converts to a float and the row without that column
    decodes in bare mode, to the same entity up to the distance. *)
Theorem X11_scan_modes : forall rt,
  (forall row r, ScanRestaurant rt row true = Some r -> List.length row = 16%nat)
  /\ (forall row r, ScanRestaurant rt row false = Some r -> List.length row = 15%nat)
  /\ (forall row, ScanRestaurant rt row true = None \/ ScanRestaurant rt row false = None)
  /\ (forall base distance cuisines mealTypes,
        List.length base = 13%nat ->
        ScanRestaurant rt (base ++ [distance; cuisines; mealTypes]) true
        = match convertFloat rt distance,
                ScanRestaurant rt (base ++ [cuisines; mealTypes]) false with
          | Some d, Some r => Some (with_distance d r)
          | _, _ => None
          end).
Proof.
  intros rt. split; [|split; [|split]].
  - intros row r H. now apply ScanRestaurant_length in H.
  - intros row r H. now apply ScanRestaurant_length in H.
  - intros row.
    destruct (ScanRestaurant rt row true) as [r|] eqn:E1; [|now left].
    destruct (ScanRestaurant rt row false) as [r'|] eqn:E2; [|now right].
    apply ScanRestaurant_length in E1, E2. congruence.
  - intros base distance cuisines mealTypes L.
    do 13 (destruct base as [|? base]; [discriminate|]).
    destruct base; [|discriminate]. cbn [app]. unfold ScanRestaurant.
    destruct (convertFloat rt distance) as [d|].
    + repeat match goal with
             | |- context [match ?x with Some _ => _ | None => _ end] =>
                 destruct x; [|reflexivity]
             end.
      reflexivity.
    + repeat match goal with
             | |- context [match ?x with Some _ => _ | None => _ end] =>
                 destruct x; [|reflexivity]
             end.
      reflexivity.
Qed.

Lemma X11_scan_modes_witness :
  ScanRestaurant sample_runtime (sample_row 7 "Cafe") true
  = match convertFloat sample_runtime (CFloat (F64.of_int 120)),
          ScanRestaurant sample_runtime
            (firstn 13 (sample_row 7 "Cafe") ++ [CText "[]"; CText "[]"]) false with
    | Some d, Some r => Some (with_distance d r)
    | _, _ => None
    end.
Proof.
  destruct (X11_scan_modes sample_runtime) as (_ & _ & _ & H).
  exact (H (firstn 13 (sample_row 7 "Cafe")) (CFloat (F64.of_int 120))
           (CText "[]") (CText "[]") eq_refl).
Defined.

(** ** What of the database reaches the client *)

Lemma decoded_app rt hasExtraFields rows1 rows2 :
  decoded rt hasExtraFields (rows1 ++ rows2)
  = decoded rt hasExtraFields rows1 ++ decoded rt hasExtraFields rows2.
Proof. unfold decoded. apply flat_map_app. Qed.

Lemma SearchHandler_response rt db db' query :
  let p := ParseSearchParams rt query in
  same_count (QueryRow db (countQuery p) (arguments p))
             (QueryRow db' (countQuery p) (arguments p)) ->
  same_rows rt true (Query db (finalQuery p) (arguments p))
                    (Query db' (finalQuery p) (arguments p)) ->
  fst (SearchHandler rt db query) = fst (SearchHandler rt db' query).
Proof.
  intros p C R.
  destruct (QueryRow db (countQuery p) (arguments p)) as [n | err] eqn:Q;
    destruct (QueryRow db' (countQuery p) (arguments p)) as [n' | err'] eqn:Q';
    try contradiction.
  - cbn in C. subst n'.
    destruct ((totalPages n (Limit p) <? Page p) && (0 <? totalPages n (Limit p))) eqn:O.
    + apply andb_prop in O. destruct O as [O1 O2]. apply Z.ltb_lt in O1, O2.
      now rewrite (SearchHandler_overflow rt db query n Q O1 O2),
                  (SearchHandler_overflow rt db' query n Q' O1 O2).
    + destruct (Query db (finalQuery p) (arguments p)) as [rows | e] eqn:F;
        destruct (Query db' (finalQuery p) (arguments p)) as [rows' | e'] eqn:F';
        try contradiction.
      * cbn in R.
        rewrite (SearchHandler_results rt db query n rows Q O F),
                (SearchHandler_results rt db' query n rows' Q' O F').
        cbn [fst]. now rewrite R.
      * now rewrite (SearchHandler_fetch_error rt db query n e Q O F),
                    (SearchHandler_fetch_error rt db' query n e' Q' O F').
  - now rewrite (SearchHandler_count_error rt db query err Q),
                (SearchHandler_count_error rt db' query err' Q').
Qed.

(** X12: of what the database returns, only the count and the entities of
    the rows that decode reach the client.  Two databases that fail on the
    same calls (with whatever errors), agree on the count and return rows
    that decode to the same entities get the same response from the search
    and from the city listing; in particular a row that does not decode
    can be dropped from a result set without changing the response. *)
Theorem X12_response_from_decodable_rows : forall rt db db' query city,
  (forall q a, same_count (QueryRow db q a) (QueryRow db' q a)) ->
  (forall q a, same_rows rt true (Query db q a) (Query db' q a)) ->
  (forall q a, same_rows rt false (Query db q a) (Query db' q a)) ->
  fst (SearchHandler rt db query) = fst (SearchHandler rt db' query)
  /\ fst (GetRestaurantsByCityHandler rt db city)
     = fst (GetRestaurantsByCityHandler rt db' city)
  /\ (forall hasExtraFields rows1 row rows2,
        ScanRestaurant rt row hasExtraFields = None ->
        decoded rt hasExtraFields (rows1 ++ row :: rows2)
        = decoded rt hasExtraFields (rows1 ++ rows2)).
Proof.
  intros rt db db' query city C R R'. split; [|split].
  - apply SearchHandler_response; [apply C | apply R].
  - unfold GetRestaurantsByCityHandler.
    destruct (String.eqb city ""); [reflexivity|].
    specialize (R' cityQuery [VString city]).
    destruct (Query db cityQuery [VString city]) as [rows | e];
      destruct (Query db' cityQuery [VString city]) as [rows' | e'];
      try contradiction; [|reflexivity].
    cbn in R'. cbn [fst]. now rewrite !collect_spec, R'.
  - intros hx rows1 row rows2 H. rewrite !decoded_app. f_equal.
    unfold decoded at 1. cbn [flat_map]. now rewrite H.
Qed.

Lemma X12_response_from_decodable_rows_witness :
  fst (SearchHandler sample_runtime
         (constant_db (inl 2) (inl [sample_row 7 "Cafe"; [CNull]; sample_row 9 "Diner"]))
         [])
  = fst (SearchHandler sample_runtime
           (constant_db (inl 2) (inl [sample_row 7 "Cafe"; sample_row 9 "Diner"]))
           []).
Proof.
  apply (X12_response_from_decodable_rows sample_runtime
           (constant_db (inl 2) (inl [sample_row 7 "Cafe"; [CNull]; sample_row 9 "Diner"]))
           (constant_db (inl 2) (inl [sample_row 7 "Cafe"; sample_row 9 "Diner"]))
           [] "Pune");
    intros q a; vm_compute; reflexivity.
Defined.

(* ================================================================== *)
(** * From the request to the statements *)
(* ================================================================== *)

Lemma ParseSearchParams_fields rt query :
  let p := ParseSearchParams rt query in
  Name p = (if String.eqb (Get query "name") "" then Get query "q" else Get query "name")
  /\ City p = Get query "city"
  /\ Sort p = Get query "sort"
  /\ MinCost p
     = (if fst (Atoi (Get query "minCost")) =? 0
        then fst (Atoi (Get query "min_cost")) else fst (Atoi (Get query "minCost")))
  /\ Discount p
     = (if F64.ltb F64.zero (fst (ParseFloat rt (Get query "discount")))
        then F64.div (fst (ParseFloat rt (Get query "discount"))) (F64.of_int 100)
        else F64.zero)
  /\ Free p = String.eqb (Get query "free") "true".
Proof.
  unfold ParseSearchParams.
  destruct (nonempty (Get query "lat") && nonempty (Get query "lon")); now repeat split.
Qed.

(** X13: the parameters of a request reach the statements as follows.
    The text filter is the value of name, or of q when name is empty, bound
    between two wildcards; the city is bound as given; the lower cost bound
    is minCost, or min_cost when minCost is 0 or not a number, and filters
    only when positive; a positive discount percentage is bound as the
    fraction percentage / 100; free filters only for the exact value "true";
    and the fetch statement of page n (up to the last page whose offset
    fits 64 bits) ends with LIMIT 12 OFFSET (n - 1) * 12. *)
Theorem X13_parameters_reach_statements : forall rt query,
  let p := ParseSearchParams rt query in
  let name := if String.eqb (Get query "name") "" then Get query "q"
              else Get query "name" in
  let minCost := if fst (Atoi (Get query "minCost")) =? 0
                 then fst (Atoi (Get query "min_cost"))
                 else fst (Atoi (Get query "minCost")) in
  let percentage := fst (ParseFloat rt (Get query "discount")) in
  (name <> "" ->
     exists k, In (name_predicate k) (search_conditions p)
               /\ bound (arguments p) k = Some (VString ("%" +++ name +++ "%")))
  /\ (name = "" -> ~ present p name_predicate)
  /\ (Get query "city" <> "" ->
      exists k, In (city_predicate k) (search_conditions p)
                /\ bound (arguments p) k = Some (VString (Get query "city")))
  /\ (0 < minCost -> binds p minCost_predicate (VInt minCost))
  /\ (minCost <= 0 -> ~ present p minCost_predicate)
  /\ (F64.ltb F64.zero percentage = true ->
      F64.ltb F64.zero (F64.div percentage (F64.of_int 100)) = true ->
      binds p discount_predicate (VFloat (F64.div percentage (F64.of_int 100))))
  /\ (F64.ltb F64.zero percentage = false -> ~ present p discount_predicate)
  /\ (In "r.free = true" (search_conditions p) <-> Get query "free" = "true")
  /\ (Page p <= last_exact_page ->
      finalQuery p
      = resultQuery p +++ " " +++ orderBy (Get query "sort")
        +++ " LIMIT 12 OFFSET " +++ Itoa ((Page p - 1) * 12)).
Proof.
  intros rt query p name minCost percentage.
  destruct (ParseSearchParams_fields rt query) as (N & C & S & M & D & F).
  fold p name minCost percentage in N, C, S, M, D, F.
  pose proof (ParseSearchParams_Limit rt query) as L. fold p in L.
  destruct (ParseSearchParams_Page rt query) as [P O]. fold p in P, O.
  rewrite <- P in O. clearbody p.
  repeat match goal with |- _ /\ _ => split end.
  - intros H. exists (1 + Z.of_nat (List.length (geo_args p))).
    rewrite <- N. apply name_binding. apply nonempty_true. congruence.
  - intros H [k I]. apply name_only_if in I. apply nonempty_true in I. congruence.
  - intros H. rewrite <- C in *.
    destruct (prefix_spec p) as (_ & _ & A & _). fold (prefix_state p) in A.
    exists (if HasLocation p then 3 else 1). split.
    + apply geo_conditions_present, geo_conditions_In. right. left.
      split; [now apply nonempty_true | reflexivity].
    + apply nonempty_true in H.
      apply (bound_nth _ _ (if HasLocation p then 2%nat else 0%nat));
        [now destruct (HasLocation p)|].
      apply geo_args_present. unfold geo_args. rewrite H.
      now destruct (HasLocation p).
  - intros H. rewrite <- M. apply minCost_binding. apply Z.ltb_lt. congruence.
  - intros H [k I]. apply minCost_only_if in I. apply Z.ltb_lt in I. lia.
  - intros H1 H2. rewrite H1 in D. rewrite <- D. apply discount_binding. congruence.
  - intros H [k I]. apply discount_only_if in I. rewrite H in D. rewrite D in I.
    discriminate.
  - split.
    + intros I. apply free_only_if in I. rewrite F in I. now apply String.eqb_eq.
    + intros H. apply free_present. rewrite F. now apply String.eqb_eq.
  - unfold last_exact_page. intros H. rewrite finalQuery_eq, S, L, O.
    assert (B : 1 <= Page p).
    { rewrite P. destruct (Z.leb_spec (fst (Atoi (Get query "page"))) 0); lia. }
    rewrite wrap64_exact by (unfold MinInt64, MaxInt64; lia).
    reflexivity.
Qed.

Lemma X13_parameters_reach_statements_witness :
  let p := ParseSearchParams sample_runtime
             [("q", ["pizza"]); ("min_cost", ["300"]); ("discount", ["20"]);
              ("page", ["3"])] in
  (exists k, In (name_predicate k) (search_conditions p)
             /\ bound (arguments p) k = Some (VString "%pizza%"))
  /\ binds p minCost_predicate (VInt 300)
  /\ binds p discount_predicate (VFloat (F64.div (F64.of_int 20) (F64.of_int 100)))
  /\ finalQuery p
     = resultQuery p +++ " ORDER BY effective_discount DESC, id ASC LIMIT 12 OFFSET 24".
Proof.
  pose proof (X13_parameters_reach_statements sample_runtime
                [("q", ["pizza"]); ("min_cost", ["300"]); ("discount", ["20"]);
                 ("page", ["3"])]) as (A & _ & _ & B & _ & C & _ & _ & D).
  split; [apply A; discriminate|]. split; [apply B; reflexivity|].
  split; [apply C; reflexivity|]. apply D. vm_compute. discriminate.
Defined.

(** ** When the fetch runs *)

Lemma ceil_div_positive n : 0 < n -> 0 < ceil_div n 12.
Proof.
  intros H. unfold ceil_div.
  assert ((- n) / 12 < 0) by (apply Z.div_lt_upper_bound; lia). lia.
Qed.

(** X14: for a count below 2^52 the fetch statement runs exactly when
    there is no match at all or the requested page is one of the
    ceil(count / 12) pages; with no match it runs for every page, and the
    answer then has status 200 and reports the rows that decode, 0 pages and
    a total count of 0 when every float of these rows is finite, and has no
    body at all otherwise (the encoder's error is dropped). *)
Theorem X14_fetch_runs_iff_page_exists : forall rt db query n,
  let p := ParseSearchParams rt query in
  QueryRow db (countQuery p) (arguments p) = inl n ->
  0 <= n < 2 ^ 52 ->
  (ran_fetch (snd (SearchHandler rt db query)) = true
   <-> n = 0 \/ Page p <= ceil_div n 12)
  /\ (n = 0 -> forall rows,
        Query db (finalQuery p) (arguments p) = inl rows ->
        status (fst (SearchHandler rt db query)) = StatusOK
        /\ header (fst (SearchHandler rt db query))
           = [("Content-Type", "application/json")]
        /\ (forallb encodes_restaurant (decoded rt true rows) = true ->
            body (fst (SearchHandler rt db query))
            = Object [("restaurants", JRestaurants (make_slice (decoded rt true rows)));
                      ("pages", JInt 0); ("total_count", JInt 0)])
        /\ (forallb encodes_restaurant (decoded rt true rows) = false ->
            body (fst (SearchHandler rt db query)) = NoBody)).
Proof.
  intros rt db query n p Q R.
  pose proof (ParseSearchParams_Limit rt query) as L. fold p in L.
  assert (T : totalPages n (Limit p) = ceil_div n 12)
    by (rewrite L; now apply totalPages_exact).
  assert (Z0 : n = 0 -> ceil_div n 12 = 0) by (intros ->; reflexivity).
  assert (ZP : 0 < n -> 0 < ceil_div n 12) by apply ceil_div_positive.
  split.
  - destruct ((totalPages n (Limit p) <? Page p) && (0 <? totalPages n (Limit p))) eqn:O.
    + apply andb_prop in O. destruct O as [O1 O2]. apply Z.ltb_lt in O1, O2.
      pose proof (SearchHandler_overflow rt db query n Q O1 O2) as E. fold p in E.
      rewrite E. cbn [snd ran_fetch existsb orb]. rewrite T in O1, O2.
      split; [discriminate|]. intros [H | H]; [rewrite (Z0 H) in O2|]; lia.
    + assert (G : n = 0 \/ Page p <= ceil_div n 12).
      { rewrite T in O. apply andb_false_iff in O.
        destruct O as [O | O]; [apply Z.ltb_ge in O; now right|].
        apply Z.ltb_ge in O. left. destruct (Z.eq_dec n 0); [assumption|].
        assert (0 < n) by lia. specialize (ZP H). lia. }
      split; [intros _; exact G | intros _].
      destruct (Query db (finalQuery p) (arguments p)) as [rows | err] eqn:F.
      * pose proof (SearchHandler_results rt db query n rows Q O F) as E. fold p in E.
        now rewrite E.
      * pose proof (SearchHandler_fetch_error rt db query n err Q O F) as E. fold p in E.
        now rewrite E.
  - intros -> rows F.
    assert (O : (totalPages 0 (Limit p) <? Page p) && (0 <? totalPages 0 (Limit p)) = false).
    { rewrite T. change (ceil_div 0 12) with 0. apply andb_false_r. }
    pose proof (SearchHandler_results rt db query 0 rows Q O F) as E. fold p in E.
    rewrite E, T.
    cbn [fst status header body respond_json encodes forallb snd encodes_json
         elements andb].
    split; [reflexivity|]. split; [reflexivity|].
    split; intros ->; reflexivity.
Qed.

Lemma X14_fetch_runs_iff_page_exists_witness :
  ran_fetch (snd (SearchHandler sample_runtime (constant_db (inl 0) (inl []))
                                [("page", ["40"])])) = true
  /\ ran_fetch (snd (SearchHandler sample_runtime (constant_db (inl 25) (inl []))
                                   [("page", ["3"])])) = true
  /\ body (fst (SearchHandler sample_runtime
                  (constant_db (inl 0) (inl [search_row 7 "Cafe" S754_nan]))
                  [("page", ["40"])])) = NoBody
  /\ body (fst (SearchHandler sample_runtime
                  (constant_db (inl 0) (inl [search_row 7 "Cafe" (F64.of_int 4)]))
                  [("page", ["40"])]))
     = Object [("restaurants",
                JRestaurants (make_slice [search_entity 7 "Cafe" (F64.of_int 4)]));
               ("pages", JInt 0); ("total_count", JInt 0)].
Proof.
  split; [|split; [|split]].
  - apply (X14_fetch_runs_iff_page_exists sample_runtime (constant_db (inl 0) (inl []))
             [("page", ["40"])] 0 eq_refl); [lia | now left].
  - apply (X14_fetch_runs_iff_page_exists sample_runtime (constant_db (inl 25) (inl []))
             [("page", ["3"])] 25 eq_refl); [lia | right; vm_compute; discriminate].
  - destruct (X14_fetch_runs_iff_page_exists sample_runtime
                (constant_db (inl 0) (inl [search_row 7 "Cafe" S754_nan]))
                [("page", ["40"])] 0 eq_refl) as [_ H]; [lia|].
    destruct (H eq_refl _ eq_refl) as (_ & _ & _ & B). exact (B eq_refl).
  - destruct (X14_fetch_runs_iff_page_exists sample_runtime
                (constant_db (inl 0) (inl [search_row 7 "Cafe" (F64.of_int 4)]))
                [("page", ["40"])] 0 eq_refl) as [_ H]; [lia|].
    destruct (H eq_refl _ eq_refl) as (_ & _ & B & _). exact (B eq_refl).
Defined.

(* ================================================================== *)
(** * Facts about the handlers of metadata.go *)
(* ================================================================== *)

(** ** The reference lists *)

Lemma scan_rows_spec {A : Type} (scan : Row -> option A) rows : forall l,
  scan_rows scan rows (make_slice l) = make_slice (l ++ scanned scan rows).
Proof.
  unfold scan_rows, scanned.
  induction rows as [|row rows IH]; intros l; cbn [fold_left flat_map].
  - now rewrite app_nil_r.
  - destruct (scan row); cbn [append].
    + rewrite IH, <- app_assoc. reflexivity.
    + apply IH.
Qed.

Lemma scanned_length {A : Type} (scan : Row -> option A) rows :
  (List.length (scanned scan rows) <= List.length rows)%nat.
Proof.
  unfold scanned. induction rows as [|row rows IH]; cbn [flat_map List.length]; [lia|].
  destruct (scan row); cbn [app List.length]; lia.
Qed.

Lemma forallb_true {A : Type} (l : list A) : forallb (fun _ => true) l = true.
Proof. induction l; cbn [forallb andb]; auto. Qed.

(** X15: each of the three reference-list handlers runs one fixed statement
    without parameters; when it fails the error is logged under the
    handler's label and the answer is the 400 text "Something went wrong",
    the same for every error; otherwise the status is 200 and the body is
    the JSON array, never null, of the rows that scan, in the order of the
    result set, a row that does not scan being skipped; for the cities the
    body is empty instead when a latitude or longitude is not a finite
    number.  A row of five columns that convert scans to the city of these
    five values, a row of two to the cuisine or meal type of these two; rows
    of another length do not scan. *)
Theorem X15_reference_lists : forall rt,
  lists_rows (CitiesHandler rt) citiesQuery "Cities query error:"
             CityList (scanCity rt) encodes_city
  /\ lists_rows (CuisinesHandler rt) cuisinesQuery "Cuisines query error:"
                CuisineList (scanCuisine rt) (fun _ => true)
  /\ lists_rows (MealTypesHandler rt) mealTypesQuery "MealTypes query error:"
                MealTypeList (scanMealType rt) (fun _ => true)
  /\ placeholders citiesQuery = []
  /\ placeholders cuisinesQuery = []
  /\ placeholders mealTypesQuery = []
  /\ (forall row c, scanCity rt row = Some c -> List.length row = 5%nat)
  /\ (forall row c, scanCuisine rt row = Some c -> List.length row = 2%nat)
  /\ (forall row m, scanMealType rt row = Some m -> List.length row = 2%nat)
  /\ (forall c1 c2 c3 c4 c5 id name latitude longitude geoStatus,
        convertInt rt c1 = Some id -> convertString rt c2 = Some name ->
        convertFloat rt c3 = Some latitude -> convertFloat rt c4 = Some longitude ->
        convertString rt c5 = Some geoStatus ->
        scanCity rt [c1; c2; c3; c4; c5]
        = Some {| Models.City.ID := id;
                  Models.City.CityName := name;
                  Models.City.Latitude := latitude;
                  Models.City.Longitude := longitude;
                  Models.City.GeoStatus := geoStatus |})
  /\ (forall c1 c2 id name,
        convertInt rt c1 = Some id -> convertString rt c2 = Some name ->
        scanCuisine rt [c1; c2]
        = Some {| Models.Cuisine.ID := id; Models.Cuisine.CuisineName := name |})
  /\ (forall c1 c2 id name,
        convertInt rt c1 = Some id -> convertString rt c2 = Some name ->
        scanMealType rt [c1; c2]
        = Some {| Models.MealType.ID := id; Models.MealType.MealType := name |})
  /\ (forall (A : Type) (scan : Row -> option A) row rows,
        scanned scan [] = []
        /\ scanned scan (row :: rows)
           = match scan row with
             | Some c => c :: scanned scan rows
             | None => scanned scan rows
             end).
Proof.
  intros rt. repeat match goal with |- _ /\ _ => split end; try reflexivity;
    try (intros row c H;
         do 6 (try (destruct row as [|? row]; [discriminate H|]));
         solve [reflexivity | discriminate H
               | destruct row; [reflexivity | discriminate H]]).
  - intros db. unfold CitiesHandler.
    destruct (Query db citiesQuery []) as [rows | err]; [|reflexivity].
    rewrite scan_rows_spec.
    cbn [fst snd code headers content reply_json encodes_document elements app].
    repeat split; apply scanned_length.
  - intros db. unfold CuisinesHandler.
    destruct (Query db cuisinesQuery []) as [rows | err]; [|reflexivity].
    rewrite scan_rows_spec, forallb_true.
    cbn [fst snd code headers content reply_json encodes_document elements app].
    repeat split; apply scanned_length.
  - intros db. unfold MealTypesHandler.
    destruct (Query db mealTypesQuery []) as [rows | err]; [|reflexivity].
    rewrite scan_rows_spec, forallb_true.
    cbn [fst snd code headers content reply_json encodes_document elements app].
    repeat split; apply scanned_length.
  - intros c1 c2 c3 c4 c5 id name latitude longitude geoStatus H1 H2 H3 H4 H5.
    unfold scanCity. now rewrite H1, H2, H3, H4, H5.
  - intros c1 c2 id name H1 H2. unfold scanCuisine. now rewrite H1, H2.
  - intros c1 c2 id name H1 H2. unfold scanMealType. now rewrite H1, H2.
  - intros A scan row rows. unfold scanned. cbn [flat_map].
    now destruct (scan row).
Qed.

Lemma X15_reference_lists_witness :
  content (fst (CitiesHandler sample_runtime
                  (constant_db (inl 0)
                     (inl [city_row 1 "pune" (F64.of_int 18); [CNull];
                           city_row 2 "delhi-ncr" (F64.of_int 28)]))))
    = CityList (make_slice [city_entity 1 "pune" (F64.of_int 18);
                            city_entity 2 "delhi-ncr" (F64.of_int 28)])
  /\ content (fst (CitiesHandler sample_runtime
                     (constant_db (inl 0)
                        (inl [city_row 1 "pune" (F64.of_int 18);
                              city_row 2 "delhi-ncr" S754_nan]))))
     = NoDocument
  /\ content (fst (CuisinesHandler sample_runtime
                     (constant_db (inl 0) (inl [[CInt 3; CText "Thai"]; [CInt 4]]))))
     = CuisineList (make_slice [{| Models.Cuisine.ID := 3;
                                   Models.Cuisine.CuisineName := "Thai" |}]).
Proof.
  destruct (X15_reference_lists sample_runtime) as (A & B & _).
  split; [|split].
  - exact (proj1 (proj2 (proj2 (proj2
      (A (constant_db (inl 0)
            (inl [city_row 1 "pune" (F64.of_int 18); [CNull];
                  city_row 2 "delhi-ncr" (F64.of_int 28)]))))))).
  - exact (proj1 (proj2 (proj2 (proj2
      (A (constant_db (inl 0)
            (inl [city_row 1 "pune" (F64.of_int 18);
                  city_row 2 "delhi-ncr" S754_nan]))))))).
  - exact (proj1 (proj2 (proj2 (proj2
      (B (constant_db (inl 0) (inl [[CInt 3; CText "Thai"]; [CInt 4]]))))))).
Defined.

(** ** Detecting the city *)

Lemma resolve_cases w lat lon :
  (Getenv w "GEOAPIFY_API_KEY" = "" /\ resolve w lat lon = ("", []))
  \/ (Getenv w "GEOAPIFY_API_KEY" <> ""
      /\ exists logs,
           snd (resolve w lat lon)
           = Requested (apiURL lat lon (Getenv w "GEOAPIFY_API_KEY")) :: logs
           /\ requests logs = [] /\ statements logs = []).
Proof.
  unfold resolve. destruct (nonempty (Getenv w "GEOAPIFY_API_KEY")) eqn:K.
  - right. split; [now apply nonempty_true|].
    destruct (httpGet w _) as [[[|city cities] | err] | err]; cbn [snd];
      eexists; (split; [reflexivity | split; reflexivity]).
  - left. apply nonempty_false in K. now split.
Qed.

Lemma closest_cases w lat lon :
  (exists err,
      QueryName w (closestQuery lon lat) [] = inr err
      /\ fst (closest w lat lon)
         = reply_error "Could not detect city" StatusInternalServerError)
  \/ (exists dbCity,
        QueryName w (closestQuery lon lat) [] = inl dbCity
        /\ fst (closest w lat lon)
           = reply_json (city_body (if capital_region_row dbCity
                                    then "delhi-ncr" else dbCity))).
Proof.
  unfold closest. destruct (QueryName w (closestQuery lon lat) []) as [c | err].
  - right. now exists c.
  - left. now exists err.
Qed.

Lemma closest_effects w lat lon :
  requests (snd (closest w lat lon)) = []
  /\ statements (snd (closest w lat lon)) = [(closestQuery lon lat, [])].
Proof.
  unfold closest. now destruct (QueryName w (closestQuery lon lat) []).
Qed.

(** The handler once both coordinates are given. *)
Lemma DetectCityHandler_located rt w query :
  Get query "lat" <> "" -> Get query "lon" <> "" ->
  fst (DetectCityHandler rt w query)
  = match found rt w query with
    | Some dbCity => reply_json (city_body dbCity)
    | None => fst (closest w (detect_lat rt query) (detect_lon rt query))
    end.
Proof.
  intros H1 H2. apply String.eqb_neq in H1, H2.
  unfold DetectCityHandler, found, resolved. rewrite H1, H2. cbn [orb].
  fold (detect_lat rt query) (detect_lon rt query).
  destruct (resolve w (detect_lat rt query) (detect_lon rt query)) as [city t].
  cbn [fst]. destruct (nonempty city).
  - destruct (QueryName w lookupQuery [VString city]); [reflexivity|].
    now destruct (closest w (detect_lat rt query) (detect_lon rt query)).
  - now destruct (closest w (detect_lat rt query) (detect_lon rt query)).
Qed.

Lemma DetectCityHandler_missing rt w query :
  Get query "lat" = "" \/ Get query "lon" = "" ->
  DetectCityHandler rt w query
  = (reply_error "lat and lon are required" StatusBadRequest, []).
Proof.
  intros H. unfold DetectCityHandler.
  replace (String.eqb (Get query "lat") "" || String.eqb (Get query "lon") "")
    with true; [reflexivity|].
  symmetry. apply orb_true_iff. now rewrite !String.eqb_eq.
Qed.

Lemma coordinates_given (a b : string) : (a = "" \/ b = "") \/ (a <> "" /\ b <> "").
Proof.
  destruct (String.eqb_spec a ""); [left; now left|].
  destruct (String.eqb_spec b ""); [left; now right|]. now right.
Qed.

(** X16: the outcomes of city detection.  The answer is 400 exactly when
    lat or lon is missing, and then nothing at all has been done; it is 500
    only when the nearest-city statement was run and failed; and whenever
    that statement succeeds the answer is 200, whatever the environment and
    the reverse geocoder do (no key, a failed request, an undecodable body,
    no feature, a city the table does not have).  A 200 answer names either
    the capital region or a city name the database returned. *)
Theorem X16_detect_city_outcomes : forall rt w query,
  let r := fst (DetectCityHandler rt w query) in
  let t := snd (DetectCityHandler rt w query) in
  let nearest := QueryName w (closestQuery (detect_lon rt query) (detect_lat rt query)) [] in
  (code r = StatusOK \/ code r = StatusBadRequest \/ code r = StatusInternalServerError)
  /\ (code r = StatusBadRequest <-> Get query "lat" = "" \/ Get query "lon" = "")
  /\ (code r = StatusBadRequest ->
      r = reply_error "lat and lon are required" StatusBadRequest /\ t = [])
  /\ (code r = StatusInternalServerError ->
      r = reply_error "Could not detect city" StatusInternalServerError
      /\ exists err, nearest = inr err)
  /\ (Get query "lat" <> "" -> Get query "lon" <> "" ->
      (exists dbCity, nearest = inl dbCity) -> code r = StatusOK)
  /\ (code r = StatusOK ->
      exists city,
        content r = city_body city
        /\ (city = "delhi-ncr"
            \/ found rt w query = Some city
            \/ nearest = inl city)).
Proof.
  intros rt w query r t nearest.
  destruct (coordinates_given (Get query "lat") (Get query "lon")) as [M | [H1 H2]].
  - pose proof (DetectCityHandler_missing rt w query M) as E.
    subst r t. rewrite E. cbn [fst snd code reply_error content].
    unfold StatusOK, StatusBadRequest, StatusInternalServerError.
    split; [right; now left|]. split; [tauto|]. split; [now split|].
    split; [discriminate|]. split; [tauto | discriminate].
  - pose proof (DetectCityHandler_located rt w query H1 H2) as E. fold r in E.
    assert (N : ~ (Get query "lat" = "" \/ Get query "lon" = "")) by tauto.
    destruct (found rt w query) as [dbCity|] eqn:F.
    + rewrite E. cbn [code reply_json content].
      unfold StatusOK, StatusBadRequest, StatusInternalServerError.
      split; [now left|]. split; [split; [discriminate | tauto]|].
      split; [discriminate|]. split; [discriminate|]. split; [reflexivity|].
      intros _. exists dbCity. split; [reflexivity|]. right. now left.
    + destruct (closest_cases w (detect_lat rt query) (detect_lon rt query))
        as [(err & Q & C) | (c & Q & C)]; rewrite C in E; rewrite E;
        fold nearest in Q; rewrite Q; cbn [code reply_json reply_error content];
        unfold StatusOK, StatusBadRequest, StatusInternalServerError.
      * split; [right; now right|]. split; [split; [discriminate | tauto]|].
        split; [discriminate|]. split; [intros _; split; [reflexivity | now exists err]|].
        split; [|discriminate]. intros _ _ [c H]. discriminate.
      * split; [now left|]. split; [split; [discriminate | tauto]|].
        split; [discriminate|]. split; [discriminate|]. split; [reflexivity|].
        intros _. eexists. split; [reflexivity|].
        destruct (capital_region_row c); [now left | right; now right].
Qed.

Lemma X16_detect_city_outcomes_witness :
  code (fst (DetectCityHandler sample_runtime
               (sample_world "key" (inr "dial tcp: timeout") (no_match (inl "pune")))
               point_query))
  = StatusOK.
Proof.
  pose proof (X16_detect_city_outcomes sample_runtime
                (sample_world "key" (inr "dial tcp: timeout") (no_match (inl "pune")))
                point_query) as (_ & _ & _ & _ & H & _).
  apply H; [discriminate | discriminate | now exists "pune"].
Defined.

Lemma requests_app t1 t2 : requests (t1 ++ t2) = requests t1 ++ requests t2.
Proof. apply flat_map_app. Qed.

Lemma statements_app t1 t2 : statements (t1 ++ t2) = statements t1 ++ statements t2.
Proof. apply flat_map_app. Qed.

Lemma resolve_effects w lat lon :
  requests (snd (resolve w lat lon))
  = (if nonempty (Getenv w "GEOAPIFY_API_KEY")
     then [apiURL lat lon (Getenv w "GEOAPIFY_API_KEY")] else [])
  /\ statements (snd (resolve w lat lon)) = [].
Proof.
  destruct (resolve_cases w lat lon) as [[K E] | [K (logs & E & R & S)]].
  - rewrite E, K. now split.
  - apply nonempty_true in K. rewrite E, K. cbn [requests statements flat_map app].
    fold (requests logs) (statements logs). now rewrite R, S.
Qed.

(** The effects of the handler once both coordinates are given. *)
Lemma DetectCityHandler_effects rt w query :
  Get query "lat" <> "" -> Get query "lon" <> "" ->
  let lat := detect_lat rt query in
  let lon := detect_lon rt query in
  exists logs1 logs2,
    snd (DetectCityHandler rt w query)
    = logs1 ++ snd (resolve w lat lon)
      ++ (if nonempty (resolved rt w query)
          then [QueriedRow lookupQuery [VString (resolved rt w query)]] else [])
      ++ logs2
      ++ match found rt w query with
         | Some _ => []
         | None => snd (closest w lat lon)
         end
    /\ requests logs1 = [] /\ statements logs1 = []
    /\ requests logs2 = [] /\ statements logs2 = [].
Proof.
  intros H1 H2 lat lon. apply String.eqb_neq in H1, H2.
  unfold DetectCityHandler, found, resolved. rewrite H1, H2. cbn [orb].
  fold (detect_lat rt query) (detect_lon rt query). fold lat lon.
  destruct (resolve w lat lon) as [city t]. cbn [fst snd].
  destruct (nonempty city).
  - destruct (QueryName w lookupQuery [VString city]) as [dbCity | err].
    + exists [Printf "Detecting city for lat: %v, lon: %v" [LFloat lat; LFloat lon]],
             [Printf "Found match in DB for resolved city: %s" [LStr dbCity]].
      cbn [snd app]. rewrite ?app_nil_r. now repeat split.
    + destruct (closest w lat lon) as [reply effects].
      exists [Printf "Detecting city for lat: %v, lon: %v" [LFloat lat; LFloat lon]],
             [Printf "Resolved city %s not found in DB, falling back to closest"
                     [LStr city]].
      cbn [snd app]. now repeat split.
  - destruct (closest w lat lon) as [reply effects].
    exists [Printf "Detecting city for lat: %v, lon: %v" [LFloat lat; LFloat lon]], [].
    cbn [snd app]. now repeat split.
Qed.

(** X17: what city detection exchanges with the outside.  It sends at
    most one request, only when the API key is set, and to the reverse
    geocoding address built from the parsed coordinates and the key; it runs
    at most two statements: the lookup of the resolved city, when there is
    one, with that city as its only argument, and then, unless the lookup
    found a row, the nearest-city statement, which takes no argument. *)
Theorem X17_detect_city_interactions : forall rt w query,
  Get query "lat" <> "" -> Get query "lon" <> "" ->
  let t := snd (DetectCityHandler rt w query) in
  let lat := detect_lat rt query in
  let lon := detect_lon rt query in
  let key := Getenv w "GEOAPIFY_API_KEY" in
  requests t = (if nonempty key then [apiURL lat lon key] else [])
  /\ statements t
     = (if nonempty (resolved rt w query)
        then [(lookupQuery, [VString (resolved rt w query)])] else [])
       ++ match found rt w query with
          | Some _ => []
          | None => [(closestQuery lon lat, [])]
          end
  /\ (key = "" -> requests t = [] /\ statements t = [(closestQuery lon lat, [])]).
Proof.
  intros rt w query H1 H2 t lat lon key.
  destruct (DetectCityHandler_effects rt w query H1 H2)
    as (logs1 & logs2 & E & R1 & S1 & R2 & S2).
  fold t lat lon in E.
  destruct (resolve_effects w lat lon) as [RR RS]. fold key in RR.
  destruct (closest_effects w lat lon) as [CR CS].
  assert (R : requests t = if nonempty key then [apiURL lat lon key] else []).
  { rewrite E, !requests_app, R1, R2, RR.
    destruct (nonempty (resolved rt w query)); destruct (found rt w query);
      cbn [requests flat_map app]; rewrite ?CR, ?app_nil_r; reflexivity. }
  assert (S : statements t
              = (if nonempty (resolved rt w query)
                 then [(lookupQuery, [VString (resolved rt w query)])] else [])
                ++ match found rt w query with
                   | Some _ => []
                   | None => [(closestQuery lon lat, [])]
                   end).
  { rewrite E, !statements_app, S1, S2, RS.
    destruct (nonempty (resolved rt w query)); destruct (found rt w query);
      cbn [statements flat_map app]; rewrite ?CS, ?app_nil_r; reflexivity. }
  split; [exact R|]. split; [exact S|].
  intros K. rewrite R, S. unfold found, resolved. fold lat lon.
  destruct (resolve_cases w lat lon) as [[_ Z] | [N _]]; [|contradiction].
  rewrite Z. fold key. rewrite K. now split.
Qed.

Lemma X17_detect_city_interactions_witness :
  requests (snd (DetectCityHandler sample_runtime
                   (sample_world "" (inl (Features ["Pune"])) (one_city "pune"))
                   point_query)) = []
  /\ statements (snd (DetectCityHandler sample_runtime
                        (sample_world "" (inl (Features ["Pune"])) (one_city "pune"))
                        point_query))
     = [(closestQuery (F64.of_int 77) (F64.of_int 28), [])].
Proof.
  pose proof (X17_detect_city_interactions sample_runtime
                (sample_world "" (inl (Features ["Pune"])) (one_city "pune"))
                point_query) as H.
  apply H; [discriminate | discriminate | reflexivity].
Defined.

Lemma capital_region_In city : capital_region city = true <-> In city geocoder_names.
Proof.
  unfold capital_region, geocoder_names. cbn [In].
  rewrite !orb_true_iff, !String.eqb_eq. intuition congruence.
Qed.

Lemma capital_region_row_In dbCity :
  capital_region_row dbCity = true <-> In dbCity table_names.
Proof.
  unfold capital_region_row, table_names. cbn [In].
  rewrite !orb_true_iff, !String.eqb_eq. intuition congruence.
Qed.

(** X18: the names of the capital region.  A city the reverse geocoder
    calls Delhi, Noida, Gurugram, New Delhi or Gurgaon (compared byte for
    byte) is looked up as "delhi-ncr", any other under its own name; when
    the lookup finds a row the answer is status 200 with the name of that
    row as the table has it; the name the nearest-city statement returns is
    answered as "delhi-ncr" when it is delhi-ncr, delhi, noida or gurugram,
    and unchanged otherwise. *)
Theorem X18_capital_region_names : forall rt w query,
  Get query "lat" <> "" -> Get query "lon" <> "" ->
  let r := fst (DetectCityHandler rt w query) in
  let lat := detect_lat rt query in
  let lon := detect_lon rt query in
  let key := Getenv w "GEOAPIFY_API_KEY" in
  (forall city cities,
      key <> "" -> httpGet w (apiURL lat lon key) = inl (Features (city :: cities)) ->
      (In city ["Delhi"; "Noida"; "Gurugram"; "New Delhi"; "Gurgaon"] ->
       resolved rt w query = "delhi-ncr")
      /\ (~ In city ["Delhi"; "Noida"; "Gurugram"; "New Delhi"; "Gurgaon"] ->
          resolved rt w query = city))
  /\ (forall dbCity, found rt w query = Some dbCity -> r = names_city dbCity)
  /\ (forall dbCity,
        found rt w query = None -> QueryName w (closestQuery lon lat) [] = inl dbCity ->
        (In dbCity ["delhi-ncr"; "delhi"; "noida"; "gurugram"] ->
         r = names_city "delhi-ncr")
        /\ (~ In dbCity ["delhi-ncr"; "delhi"; "noida"; "gurugram"] ->
            r = names_city dbCity)).
Proof.
  intros rt w query H1 H2 r lat lon key.
  pose proof (DetectCityHandler_located rt w query H1 H2) as E. fold r lat lon in E.
  split; [|split].
  - intros city cities K G.
    assert (R : resolved rt w query = if capital_region city then "delhi-ncr" else city).
    { unfold resolved, resolve. fold lat lon key.
      apply nonempty_true in K. now rewrite K, G. }
    pose proof (capital_region_In city) as I. unfold geocoder_names in I.
    destruct (capital_region city); split; intros H; try exact R.
    + exfalso. apply H, I. reflexivity.
    + apply I in H. discriminate.
  - intros dbCity F. now rewrite E, F.
  - intros dbCity F Q. rewrite E, F.
    destruct (closest_cases w lat lon) as [(err & Q' & C) | (c & Q' & C)];
      rewrite Q in Q'; [discriminate|].
    injection Q' as <-. rewrite C.
    pose proof (capital_region_row_In dbCity) as I. unfold table_names in I.
    destruct (capital_region_row dbCity); split; intros H; try reflexivity.
    + exfalso. apply H, I. reflexivity.
    + apply I in H. discriminate.
Qed.

Lemma X18_capital_region_names_witness :
  resolved sample_runtime
    (sample_world "key" (inl (Features ["New Delhi"])) (one_city "delhi-ncr")) point_query
    = "delhi-ncr"
  /\ resolved sample_runtime
       (sample_world "key" (inl (Features ["noida"])) (one_city "noida")) point_query
     = "noida"
  /\ fst (DetectCityHandler sample_runtime
            (sample_world "key" (inl (Features ["noida"])) (one_city "noida")) point_query)
     = names_city "noida"
  /\ fst (DetectCityHandler sample_runtime
            (sample_world "" (inl (Features [])) (one_city "noida")) point_query)
     = names_city "delhi-ncr"
  /\ fst (DetectCityHandler sample_runtime
            (sample_world "" (inl (Features [])) (one_city "Gurgaon")) point_query)
     = names_city "Gurgaon".
Proof.
  pose proof (X18_capital_region_names sample_runtime
                (sample_world "key" (inl (Features ["New Delhi"])) (one_city "delhi-ncr"))
                point_query ltac:(discriminate) ltac:(discriminate)) as (A & _ & _).
  pose proof (X18_capital_region_names sample_runtime
                (sample_world "key" (inl (Features ["noida"])) (one_city "noida"))
                point_query ltac:(discriminate) ltac:(discriminate)) as (B & _ & _).
  pose proof (X18_capital_region_names sample_runtime
                (sample_world "key" (inl (Features ["noida"])) (one_city "noida"))
                point_query ltac:(discriminate) ltac:(discriminate)) as (_ & C & _).
  pose proof (X18_capital_region_names sample_runtime
                (sample_world "" (inl (Features [])) (one_city "noida"))
                point_query ltac:(discriminate) ltac:(discriminate)) as (_ & _ & D).
  pose proof (X18_capital_region_names sample_runtime
                (sample_world "" (inl (Features [])) (one_city "Gurgaon"))
                point_query ltac:(discriminate) ltac:(discriminate)) as (_ & _ & G).
  split; [|split; [|split; [|split]]].
  - apply (A "New Delhi" [] ltac:(discriminate) eq_refl). cbn [In]. auto 6.
  - apply (B "noida" [] ltac:(discriminate) eq_refl). cbn [In].
    intros [H | [H | [H | [H | [H | []]]]]]; discriminate H.
  - exact (C "noida" eq_refl).
  - apply (D "noida" eq_refl eq_refl). cbn [In]. auto 6.
  - apply (G "Gurgaon" eq_refl eq_refl). cbn [In].
    intros [H | [H | [H | [H | []]]]]; discriminate H.
Defined.

(** ** The text of the nearest-city statement *)

Lemma every_byte_uint d : every_byte numeric_byte (NilEmpty.string_of_uint d) = true.
Proof. induction d; cbn [NilEmpty.string_of_uint every_byte]; auto. Qed.

Lemma every_byte_Itoa z : every_byte numeric_byte (Itoa z) = true.
Proof.
  unfold Itoa. destruct (Z.to_int z); cbn [NilEmpty.string_of_int every_byte];
    [|change (numeric_byte "-") with true; cbn [andb]]; apply every_byte_uint.
Qed.

Lemma every_byte_zeros n : every_byte numeric_byte (FmtFloat.zeros n) = true.
Proof. induction n as [|n IH]; [reflexivity|]. cbn [FmtFloat.zeros every_byte]. exact IH. Qed.

Lemma verb_f_bytes x : every_byte numeric_byte (FmtFloat.verb_f x) = true.
Proof.
  destruct x as [s | s | | s m e]; cbn [FmtFloat.verb_f].
  - now destruct s.
  - now destruct s.
  - reflexivity.
  - unfold FmtFloat.fraction.
    rewrite !every_byte_app, !every_byte_Itoa, every_byte_zeros. now destruct s.
Qed.

Lemma occurrences_app c a b :
  occurrences c (a +++ b) = (occurrences c a + occurrences c b)%nat.
Proof.
  induction a as [|c' a IH]; [reflexivity|].
  cbn [String.append occurrences]. rewrite IH. now destruct (Ascii.eqb c' c).
Qed.

Lemma every_byte_occurrences ok c s :
  every_byte ok s = true -> ok c = false -> occurrences c s = O.
Proof.
  intros H N. induction s as [|c' s IH]; [reflexivity|].
  cbn [every_byte] in H. apply andb_prop in H. destruct H as [H1 H2].
  cbn [occurrences]. destruct (Ascii.eqb_spec c' c); [congruence | now apply IH].
Qed.

Lemma dollars_occurrences s : dollars s = occurrences "$" s.
Proof. induction s as [|c s IH]; [reflexivity|]. cbn [dollars occurrences]. now rewrite IH. Qed.

Lemma closestQuery_free c lon lat :
  numeric_byte c = false ->
  occurrences c (closestQuery lon lat)
  = occurrences c (closestQuery F64.zero F64.zero).
Proof.
  intros N. unfold closestQuery.
  rewrite !occurrences_app.
  rewrite !(every_byte_occurrences numeric_byte c (FmtFloat.verb_f _))
    by (apply verb_f_bytes || exact N).
  reflexivity.
Qed.

(** X19: the nearest-city statement is built by writing the two parsed
    coordinates into its text, and nothing of a request can reach that text
    but digits, a point, a sign and the letters of NaN and Inf: whatever
    the coordinates, the statement has no quote (single or double, byte 34), no semicolon,
    no backslash,
    no comment bracket and no parameter reference, while the lookup
    statement is a fixed text whose single parameter carries the resolved
    city. *)
Theorem X19_closest_statement_text : forall lon lat,
  every_byte numeric_byte (FmtFloat.verb_f lon) = true
  /\ every_byte numeric_byte (FmtFloat.verb_f lat) = true
  /\ occurrences "'" (closestQuery lon lat) = O
  /\ occurrences (ascii_of_nat 34) (closestQuery lon lat) = O
  /\ occurrences ";" (closestQuery lon lat) = O
  /\ occurrences "\" (closestQuery lon lat) = O
  /\ occurrences "/" (closestQuery lon lat) = O
  /\ occurrences "*" (closestQuery lon lat) = O
  /\ placeholders (closestQuery lon lat) = []
  /\ placeholders lookupQuery = [1].
Proof.
  intros lon lat.
  split; [apply verb_f_bytes|]. split; [apply verb_f_bytes|].
  repeat match goal with
         | |- occurrences _ _ = _ /\ _ =>
             split; [now rewrite closestQuery_free by reflexivity|]
         end.
  split; [|reflexivity].
  apply placeholders_no_dollar. rewrite dollars_occurrences.
  now rewrite closestQuery_free by reflexivity.
Qed.

(* ================================================================== *)
(** * Facts about the worker *)
(* ================================================================== *)

Lemma hex_kept n : Url.shouldEscape (Url.hex n) = false.
Proof.
  unfold Url.hex.
  destruct (Z.to_nat n) as [|k]; [reflexivity|].
  do 15 (destruct k as [|k]; [reflexivity|]).
  reflexivity.
Qed.

Lemma QueryEscape_bytes s : every_byte escaped_byte (Url.QueryEscape s) = true.
Proof.
  induction s as [|c s IH]; [reflexivity|].
  cbn [Url.QueryEscape]. destruct (Url.shouldEscape c) eqn:E.
  - destruct (Ascii.eqb c " "); cbn [every_byte]; rewrite IH.
    + reflexivity.
    + unfold escaped_byte at 2 3. now rewrite !hex_kept.
  - cbn [every_byte]. unfold escaped_byte at 1. now rewrite E, IH.
Qed.

Lemma geocodeURL_eq name city apiKey :
  geocodeURL name city apiKey
  = "https://maps.googleapis.com/maps/api/geocode/json?address="
    +++ Url.QueryEscape (name +++ ", " +++ city) +++ "&key=" +++ apiKey.
Proof.
  unfold geocodeURL. cbn [Sprintf]. now rewrite !string_app_nil_r.
Qed.

(** X20: the restaurant (or city) name and the city are sent to the
    geocoding service as one escaped query component: the component holds
    only letters, digits, the marks - _ . ~, the plus sign and percent
    escapes, so the address has exactly one question mark and no fragment
    sign before the key, and its ampersands and equals signs are those of
    the two fixed parameters plus those of the API key itself: a name cannot
    add, end or override a parameter of the request. *)
Theorem X20_geocode_address : forall name city apiKey,
  geocodeURL name city apiKey
  = "https://maps.googleapis.com/maps/api/geocode/json?address="
    +++ Url.QueryEscape (name +++ ", " +++ city) +++ "&key=" +++ apiKey
  /\ every_byte escaped_byte (Url.QueryEscape (name +++ ", " +++ city)) = true
  /\ occurrences "&" (geocodeURL name city apiKey) = S (occurrences "&" apiKey)
  /\ occurrences "=" (geocodeURL name city apiKey) = S (S (occurrences "=" apiKey))
  /\ occurrences "?" (geocodeURL name city apiKey) = S (occurrences "?" apiKey)
  /\ occurrences "#" (geocodeURL name city apiKey) = occurrences "#" apiKey.
Proof.
  intros name city apiKey.
  split; [apply geocodeURL_eq|]. split; [apply QueryEscape_bytes|].
  rewrite geocodeURL_eq.
  repeat split; rewrite !occurrences_app;
    rewrite (every_byte_occurrences escaped_byte _ (Url.QueryEscape _))
      by (apply QueryEscape_bytes || reflexivity);
    reflexivity.
Qed.

(** X21: coordinates are returned only for a reply that decodes, has the
    status "OK" and at least one result, and they are those of the first
    result; every other outcome is an error with both coordinates 0: the
    error of the request or of the decoding as it is, "API error: " followed
    by the status, or "no results found". *)
Theorem X21_fetch_coordinates : forall get name city apiKey,
  let reply := get (geocodeURL name city apiKey) in
  let lat := fst (fst (fetchCoordinates get name city apiKey)) in
  let lng := snd (fst (fetchCoordinates get name city apiKey)) in
  let err := snd (fetchCoordinates get name city apiKey) in
  (err = None <-> exists first rest, reply = Body "OK" (first :: rest))
  /\ (forall first rest, reply = Body "OK" (first :: rest) -> (lat, lng) = first)
  /\ (err <> None -> lat = F64.zero /\ lng = F64.zero)
  /\ (forall status results,
        reply = Body status results -> status <> "OK" ->
        err = Some ("API error: " +++ status))
  /\ (reply = Body "OK" [] -> err = Some "no results found")
  /\ (forall e, reply = RequestError e \/ reply = BodyError e -> err = Some e).
Proof.
  intros get name city apiKey reply lat lng err.
  subst lat lng err. unfold fetchCoordinates. fold reply.
  destruct reply as [e | e | status results].
  - cbn [fst snd]. split; [split; [discriminate | intros (? & ? & H); discriminate]|].
    split; [discriminate|]. split; [now split|]. split; [discriminate|].
    split; [discriminate|]. intros e' [H | H]; now inversion H.
  - cbn [fst snd]. split; [split; [discriminate | intros (? & ? & H); discriminate]|].
    split; [discriminate|]. split; [now split|]. split; [discriminate|].
    split; [discriminate|]. intros e' [H | H]; now inversion H.
  - destruct (String.eqb_spec status "OK") as [-> | N]; cbn [negb].
    + destruct results as [|[lat lng] rest]; cbn [fst snd].
      * split; [split; [discriminate | intros (? & ? & H); discriminate]|].
        split; [discriminate|]. split; [now split|].
        split; [intros s r H; inversion H; subst; contradiction|].
        split; [reflexivity|]. intros e' [H | H]; discriminate.
      * split; [split; [intros _; now exists (lat, lng), rest | reflexivity]|].
        split; [intros f r H; now inversion H|].
        split; [intros H; now contradiction H|].
        split; [intros s r H; inversion H; subst; contradiction|].
        split; [discriminate|]. intros e' [H | H]; discriminate.
    + cbn [fst snd].
      split; [split; [discriminate | intros (? & ? & H); inversion H; contradiction]|].
      split; [intros f r H; inversion H; contradiction|]. split; [now split|].
      split; [intros s r H; inversion H; subst; cbn [Sprintf];
              now rewrite string_app_nil_r|].
      split; [intros H; inversion H; contradiction|].
      intros e' [H | H]; discriminate.
Qed.

Lemma X21_fetch_coordinates_witness :
  fst (fetchCoordinates
         (fun _ => Body "OK" [(F64.of_int 18, F64.of_int 73); (F64.zero, F64.zero)])
         "Cafe Mocha" "Pune" "k")
  = (F64.of_int 18, F64.of_int 73)
  /\ snd (fetchCoordinates (fun _ => Body "ZERO_RESULTS" []) "Cafe Mocha" "Pune" "k")
     = Some "API error: ZERO_RESULTS".
Proof.
  pose proof (X21_fetch_coordinates
                (fun _ => Body "OK" [(F64.of_int 18, F64.of_int 73); (F64.zero, F64.zero)])
                "Cafe Mocha" "Pune" "k") as (_ & A & _).
  pose proof (X21_fetch_coordinates (fun _ => Body "ZERO_RESULTS" [])
                "Cafe Mocha" "Pune" "k") as (_ & _ & _ & B & _).
  split.
  - symmetry. rewrite <- (A _ _ eq_refl). now destruct (fetchCoordinates _ _ _ _) as [[? ?] ?].
  - exact (B _ _ eq_refl ltac:(discriminate)).
Defined.
